(** * FileNest: the organize-and-watch engine

    A shallow embedding of [file_organizer.py] (the command line engine) and
    of the organizing part of [app.py] (the web variant), with the
    properties of the engine stated and proved over it.

    Conventions of the model.
    - A Python [str] is a Rocq [string]; a character is a code point in
      the range U+0000..U+00FF, which covers every name of the shipped
      configuration.
    - A path [os.path.join(watch_directory, entry)] is represented by
      [entry], the base name of a direct child of the watched directory;
      no entry name contains a slash.
    - [os.listdir] returns the entries of a directory in an arbitrary
      order: the listing is an explicit argument of every loop over a
      directory, constrained by [is_listing] in the theorems.
    - A move fails when the file is [locked] or when the destination
      folder is not a directory, and then changes nothing; creating a
      folder in the watched directory always succeeds. *)

From Stdlib Require Import Ascii NArith.
From stdpp Require Import base gmap sets list strings pretty fin_maps.

(** ** Python strings and [pathlib] names *)

Module PyStr.

(** [str.lower] on one code point below U+0100: the letters A-Z and the
    Latin-1 capitals U+00C0..U+00DE (the multiplication sign U+00D7
    apart) move up by 32. *)
Definition lower_char (c : ascii) : ascii :=
  let n := N_of_ascii c in
  if ((65 <=? n) && (n <=? 90))%N
     || ((192 <=? n) && (n <=? 222) && negb (n =? 215))%N
  then ascii_of_N (n + 32) else c.

Fixpoint lower (s : string) : string :=
  match s with
  | "" => ""
  | String c r => String (lower_char c) (lower r)
  end.

Fixpoint drop (n : nat) (s : string) : string :=
  match n, s with
  | S m, String _ r => drop m r
  | _, _ => s
  end.

Fixpoint take (n : nat) (s : string) : string :=
  match n, s with
  | S m, String c r => String c (take m r)
  | _, _ => ""
  end.

Definition is_dot (c : ascii) : bool := bool_decide (c = "."%char).
Definition is_slash (c : ascii) : bool := bool_decide (c = "/"%char).

(** [name.rfind('.')], with [None] for Python's -1. *)
Fixpoint rfind_dot (s : string) : option nat :=
  match s with
  | "" => None
  | String c r =>
      match rfind_dot r with
      | Some i => Some (S i)
      | None => if is_dot c then Some 0 else None
      end
  end.

(** [s.startswith('.')] *)
Definition startswith_dot (s : string) : bool :=
  match s with
  | String c _ => is_dot c
  | "" => false
  end.

Fixpoint has_slash (s : string) : bool :=
  match s with
  | "" => false
  | String c r => is_slash c || has_slash r
  end.

Fixpoint has_dot (s : string) : bool :=
  match s with
  | "" => false
  | String c r => is_dot c || has_dot r
  end.

(** [s.split('/')] *)
Fixpoint split_slash (s : string) : list string :=
  match s with
  | "" => [""]
  | String c r =>
      if is_slash c then "" :: split_slash r
      else match split_slash r with
           | [] => [String c ""]
           | h :: t => String c h :: t
           end
  end.

(** [PurePosixPath(s).name]: the last of the components that are neither
    empty nor a single dot, the empty string when there is none. *)
Definition path_name (s : string) : string :=
  List.last
    (List.filter (fun x => negb (bool_decide (x = "")) && negb (bool_decide (x = ".")))
                 (split_slash s))
    "".

(** The test [0 < i < len(name) - 1] of [PurePath.suffix] and
    [PurePath.stem] (Python up to 3.13): a dot that opens or closes the
    name starts no suffix. *)
Definition inner_dot (name : string) : option nat :=
  match rfind_dot name with
  | Some i =>
      if (0 <? i)%nat && (i <? String.length name - 1)%nat then Some i else None
  | None => None
  end.

(** [Path(filename).suffix] *)
Definition suffix (filename : string) : string :=
  let name := path_name filename in
  match inner_dot name with
  | Some i => drop i name
  | None => ""
  end.

(** [Path(filename).stem] *)
Definition stem (filename : string) : string :=
  let name := path_name filename in
  match inner_dot name with
  | Some i => take i name
  | None => name
  end.

(** An extension as the configuration writes it: a dot, then at least
    one character, none of them a dot or a slash. *)
Definition plain_ext (e : string) : bool :=
  match e with
  | String c r =>
      is_dot c && negb (has_dot r) && negb (has_slash r) && negb (bool_decide (r = ""))
  | "" => false
  end.

End PyStr.

(** ** Category registry *)

Module Registry.

(** [FILE_EXTENSION_MAP] of [file_organizer.py]; a Python dict keeps
    the insertion order of its items. *)
Definition FILE_EXTENSION_MAP : list (string * list string) :=
  [ ("Images", [".jpg"; ".jpeg"; ".png"; ".gif"; ".bmp"; ".svg"; ".webp";
                ".ico"; ".tiff"; ".tif"; ".raw"; ".psd"; ".ai"]);
    ("Documents", [".pdf"; ".doc"; ".docx"; ".txt"; ".rtf"; ".odt"; ".xls";
                   ".xlsx"; ".ppt"; ".pptx"; ".csv"; ".md"; ".epub"]);
    ("Audio", [".mp3"; ".wav"; ".flac"; ".aac"; ".ogg"; ".wma"; ".m4a";
               ".opus"; ".aiff"]);
    ("Videos", [".mp4"; ".avi"; ".mkv"; ".mov"; ".wmv"; ".flv"; ".webm";
                ".m4v"; ".mpeg"; ".mpg"; ".3gp"]);
    ("Archives", [".zip"; ".rar"; ".7z"; ".tar"; ".gz"; ".bz2"; ".xz"; ".iso"]);
    ("Code", [".py"; ".js"; ".java"; ".c"; ".cpp"; ".h"; ".cs"; ".php"; ".rb";
              ".go"; ".rs"; ".swift"; ".kt"; ".html"; ".css"; ".json"; ".xml";
              ".yaml"; ".yml"]);
    ("Executables", [".exe"; ".msi"; ".dmg"; ".app"; ".deb"; ".rpm"; ".sh";
                     ".bat"; ".cmd"]) ].

(** [FILE_EXTENSION_MAP] of [app.py]: the same table without the
    [Executables] row. *)
Definition APP_FILE_EXTENSION_MAP : list (string * list string) :=
  List.filter (fun row => negb (bool_decide (row.1 = "Executables")))
              FILE_EXTENSION_MAP.

(** The two nested loops that fill [EXTENSION_TO_CATEGORY]: a later
    assignment to the same key overwrites an earlier one. *)
Definition add_row (idx : gmap string string) (row : string * list string)
  : gmap string string :=
  foldl (fun acc ext => <[PyStr.lower ext := row.1]> acc) idx row.2.

Definition build_index (table : list (string * list string)) : gmap string string :=
  foldl add_row ∅ table.

Definition EXTENSION_TO_CATEGORY : gmap string string :=
  build_index FILE_EXTENSION_MAP.

Definition APP_EXTENSION_TO_CATEGORY : gmap string string :=
  build_index APP_FILE_EXTENSION_MAP.

(** [EXTENSION_TO_CATEGORY.get(ext, 'Others')] after
    [ext = Path(filename).suffix.lower()]. *)
Definition category_in (idx : gmap string string) (filename : string) : string :=
  let ext := PyStr.lower (PyStr.suffix filename) in
  default "Others" (idx !! ext).

Definition get_category_for_file (filename : string) : string :=
  category_in EXTENSION_TO_CATEGORY filename.

Definition app_get_category_for_file (filename : string) : string :=
  category_in APP_EXTENSION_TO_CATEGORY filename.

End Registry.

(** ** The watched directory *)

Module FS.

(** A regular file: [locked] tells that [shutil.move] of this file
    raises (permission denied, file in use); [data] stands for its
    content. *)
Record file := { locked : bool; data : string }.

(** An entry of a folder below the watched directory. The content of a
    deeper directory is not tracked. *)
Inductive entry := File (f : file) | Subdir.

(** An entry of the watched directory itself. *)
Inductive node := NFile (f : file) | NDir (children : gmap string entry).

Global Instance file_eq_dec : EqDecision file.
Proof. solve_decision. Defined.
Global Instance entry_eq_dec : EqDecision entry.
Proof. solve_decision. Defined.
Global Instance node_eq_dec : EqDecision node.
Proof. solve_decision. Defined.

(** The watched directory, when it exists: [os.path.exists],
    [os.path.isdir] and [os.path.isfile] of [watch_directory/name]. *)
Definition exists_ (fs : gmap string node) (name : string) : bool :=
  bool_decide (is_Some (fs !! name)).

Definition isdir (fs : gmap string node) (name : string) : bool :=
  match fs !! name with Some (NDir _) => true | _ => false end.

Definition isfile (fs : gmap string node) (name : string) : bool :=
  match fs !! name with Some (NFile _) => true | _ => false end.

(** [(Path(watch_directory/d) / name).exists()] *)
Definition exists_in (fs : gmap string node) (d name : string) : bool :=
  match fs !! d with
  | Some (NDir ch) => bool_decide (is_Some (ch !! name))
  | _ => false
  end.

(** Number of entries of [watch_directory/d]. *)
Definition entries_in (fs : gmap string node) (d : string) : nat :=
  match fs !! d with
  | Some (NDir ch) => size ch
  | _ => 0
  end.

(** [os.makedirs(watch_directory/d)], called on a path that does not
    exist; the watched directory is taken to be writable. *)
Definition makedirs (fs : gmap string node) (d : string) : gmap string node :=
  <[d := NDir ∅]> fs.

(** [shutil.move(watch_directory/src, watch_directory/d/name)];
    [None] when it raises, and the directory is then as before. It
    raises when the source is not a regular file that can be moved, and
    when [watch_directory/d] is not a directory. An existing regular
    file at the destination is replaced, as [os.rename] does; when the
    destination is a directory the file goes inside it, out of what
    the model tracks. *)
Definition move (fs : gmap string node) (src d name : string)
  : option (gmap string node) :=
  match fs !! src with
  | Some (NFile f) =>
      if locked f then None
      else match fs !! d with
           | Some (NDir ch) =>
               match ch !! name with
               | Some Subdir => Some (delete src fs)
               | _ => Some (delete src (<[d := NDir (<[name := File f]> ch)]> fs))
               end
           | _ => None
           end
  | _ => None
  end.

(** What [os.listdir(watch_directory)] may return: every entry once, in
    any order. *)
Definition is_listing (fs : gmap string node) (l : list string) : Prop :=
  NoDup l ∧ list_to_set l = dom fs.

Global Instance is_listing_dec fs l : Decision (is_listing fs l).
Proof. unfold is_listing. apply _. Defined.

(** The watched directory as the engine finds it. *)
Inductive world :=
| Absent                                (* [watch_directory] does not exist *)
| Denied (fs : gmap string node)        (* it exists, [os.listdir] raises [PermissionError] *)
| Present (fs : gmap string node).

Global Instance world_eq_dec : EqDecision world.
Proof. solve_decision. Defined.

End FS.

Import FS.

(** ** Unique namer *)

Module Namer.

(** [f"{name}({counter}){extension}"] *)
Definition candidate (name extension : string) (counter : nat) : string :=
  name +:+ "(" +:+ pretty counter +:+ ")" +:+ extension.

(** The [while True] loop of [generate_unique_filename], run for at
    most [fuel] probes; [None] when the fuel is used up. *)
Fixpoint probe (present : string → bool) (name extension : string)
    (fuel counter : nat) : option string :=
  match fuel with
  | 0 => None
  | S fuel' =>
      let new_filename := candidate name extension counter in
      if negb (present new_filename) then Some new_filename
      else probe present name extension fuel' (S counter)
  end.

(** [generate_unique_filename(destination_dir, filename)], the same in
    both programs. The loop has no bound in the source; here it gets one
    probe more than the destination has entries, which is enough
    ([probe_enough_fuel] below), so the last branch is never taken. *)
Definition generate_unique_filename (fs : gmap string node)
    (destination_dir filename : string) : string :=
  if negb (exists_in fs destination_dir filename) then filename
  else
    let name := PyStr.stem filename in
    let extension := PyStr.suffix filename in
    match probe (exists_in fs destination_dir) name extension
                (S (entries_in fs destination_dir)) 1 with
    | Some new_filename => new_filename
    | None => filename
    end.

End Namer.

(** ** Organizer of the command line engine ([file_organizer.py]) *)

Module Organizer.

(** [os.path.basename(__file__)] *)
Definition script_name : string := "file_organizer.py".

(** What the engine prints, line by line. *)
Inductive message :=
| Skipping_script (filename : string)
| Created_folder (category : string)
| Would_move (filename category unique_filename : string)
| Moved (filename category unique_filename : string)
| Error_moving (filename : string)
| Directory_missing
| Permission_denied
| Watchdog_missing
| Complete (files_organized : nat)
| New_file_detected (name : string).

Global Instance message_eq_dec : EqDecision message.
Proof. solve_decision. Defined.

(** [is_script_file(filepath, script_name)]: the base name of
    [watch_directory/entry] is [entry]. *)
Definition is_script_file (entry script : string) : bool :=
  bool_decide (entry = script).

(** [organize_file(filepath, watch_directory, dry_run)] with
    [filepath = watch_directory/entry]: the directory after the call, the
    returned boolean and the lines printed. *)
Definition organize_file (entry : string) (dry_run : bool) (fs : gmap string node)
  : gmap string node * bool * list message :=
  let filename := entry in
  if is_script_file entry script_name then (fs, false, [Skipping_script filename])
  else if isdir fs entry then (fs, false, [])
  else
    let category := Registry.get_category_for_file filename in
    let destination_dir :=
      if bool_decide (category = "Others") then "Others" else category in
    let '(fs1, out1) :=
      if negb (exists_ fs destination_dir)
      then (makedirs fs destination_dir, [Created_folder category])
      else (fs, []) in
    let unique_filename :=
      Namer.generate_unique_filename fs1 destination_dir filename in
    if dry_run
    then (fs1, true, out1 ++ [Would_move filename category unique_filename])
    else
      match move fs1 entry destination_dir unique_filename with
      | Some fs2 => (fs2, true, out1 ++ [Moved filename category unique_filename])
      | None => (fs1, false, out1 ++ [Error_moving filename])
      end.

(** The [for entry in entries] loop of [organize_directory]. *)
Fixpoint organize_entries (entries : list string) (dry_run : bool)
    (fs : gmap string node) (files_organized : nat)
  : gmap string node * nat * list message :=
  match entries with
  | [] => (fs, files_organized, [])
  | entry :: rest =>
      let '(fs1, ok, out) := organize_file entry dry_run fs in
      let '(fs2, n, out') :=
        organize_entries rest dry_run fs1
          (if ok then S files_organized else files_organized) in
      (fs2, n, out ++ out')
  end.

(** [organize_directory(watch_directory, dry_run)]; [entries] is what
    [os.listdir] returns when it does not raise. *)
Definition organize_directory (w : world) (entries : list string) (dry_run : bool)
  : world * nat * list message :=
  match w with
  | Absent => (Absent, 0, [Directory_missing])
  | Denied fs => (Denied fs, 0, [Permission_denied])
  | Present fs =>
      let '(fs', n, out) := organize_entries entries dry_run fs 0 in
      (Present fs', n, out ++ [Complete n])
  end.

End Organizer.

(** ** Organizer of the web variant ([app.py]) *)

Module App.

Import Organizer.

Definition PROTECTED_DIR : string := "protected_files".

(** The [results] dict of [organize_all_files]. *)
Record results := { organized : nat; errors : nat; skipped : nat }.

Global Instance results_eq_dec : EqDecision results.
Proof. solve_decision. Defined.

Inductive py_result (A : Type) :=
| Returned (a : A)
| Raised_PermissionError.
Global Arguments Returned {A} a.
Global Arguments Raised_PermissionError {A}.

Global Instance py_result_eq_dec `{EqDecision A} : EqDecision (py_result A).
Proof. solve_decision. Defined.

(** [if not os.path.exists(p): os.makedirs(p)] *)
Definition ensure_folder (fs : gmap string node) (d : string) : gmap string node :=
  if negb (exists_ fs d) then makedirs fs d else fs.

(** The folders made sure of before the pass: one per key of
    [FILE_EXTENSION_MAP], then [Others]. *)
Definition ensure_folders (fs : gmap string node) : gmap string node :=
  ensure_folder (foldl ensure_folder fs Registry.APP_FILE_EXTENSION_MAP.*1) "Others".

(** One turn of the loop [for f in os.listdir(watch_dir)]. *)
Definition organize_one (f : string) (fs : gmap string node) (r : results)
  : gmap string node * results * list message :=
  if isdir fs f || PyStr.startswith_dot f
  then (fs, {| organized := organized r; errors := errors r; skipped := S (skipped r) |}, [])
  else if bool_decide (f = PROTECTED_DIR)
  then (fs, {| organized := organized r; errors := errors r; skipped := S (skipped r) |}, [])
  else
    let category := Registry.app_get_category_for_file f in
    let destination_dir :=
      if bool_decide (category = "Others") then "Others" else category in
    let unique_filename := Namer.generate_unique_filename fs destination_dir f in
    match move fs f destination_dir unique_filename with
    | Some fs' =>
        (fs', {| organized := S (organized r); errors := errors r; skipped := skipped r |}, [])
    | None =>
        (fs, {| organized := organized r; errors := S (errors r); skipped := skipped r |},
         [Error_moving f])
    end.

Fixpoint organize_root (entries : list string) (fs : gmap string node) (r : results)
  : gmap string node * results * list message :=
  match entries with
  | [] => (fs, r, [])
  | f :: rest =>
      let '(fs1, r1, out) := organize_one f fs r in
      let '(fs2, r2, out') := organize_root rest fs1 r1 in
      (fs2, r2, out ++ out')
  end.

(** [organize_all_files(watch_dir)]. There is no test that [watch_dir]
    exists: [os.makedirs] of the first category folder creates a missing
    [watch_dir] on the way. [entries] is what [os.listdir] returns, after
    the folders were made, when it does not raise. *)
Definition organize_all_files (w : world) (entries : list string)
  : world * py_result results * list message :=
  let start := {| organized := 0; errors := 0; skipped := 0 |} in
  match w with
  | Denied fs => (Denied (ensure_folders fs), Raised_PermissionError, [])
  | Absent =>
      let '(fs', r, out) := organize_root entries (ensure_folders ∅) start in
      (Present fs', Returned r, out)
  | Present fs =>
      let '(fs', r, out) := organize_root entries (ensure_folders fs) start in
      (Present fs', Returned r, out)
  end.

End App.

(** ** Watch controller *)

Module Watch.

Import Organizer.

(** [FileOrganizerHandler.on_created(event)] on the handler's
    [processed_files] and the directory; [event.src_path] is
    [watch_directory/src]. *)
Definition on_created (is_directory : bool) (src : string)
    (fs : gmap string node) (processed_files : gset string)
  : gmap string node * gset string * list message :=
  if is_directory then (fs, processed_files, [])
  else if bool_decide (src ∈ processed_files) then (fs, processed_files, [])
  else
    let '(fs1, _, out) := organize_file src false fs in
    (fs1, {[src]} ∪ processed_files, New_file_detected src :: out).

(** [watch_directory(watch_directory)] up to [observer.start()]: the
    directory and the new handler's [processed_files], or no session. *)
Definition watch_directory (watchdog_available : bool) (w : world)
    (entries : list string)
  : world * option (gset string) * list message :=
  if negb watchdog_available then (w, None, [Watchdog_missing])
  else match w with
       | Absent => (w, None, [Directory_missing])
       | _ =>
           let '(w', _, out) := organize_directory w entries false in
           (w', Some ∅, out)
       end.

(** The first loop of [watch_directory_loop]: the regular files of the
    root are put in [processed_files]. *)
Fixpoint mark_existing (entries : list string) (fs : gmap string node)
    (processed_files : gset string) : gset string :=
  match entries with
  | [] => processed_files
  | entry :: rest =>
      mark_existing rest fs
        (if isfile fs entry then {[entry]} ∪ processed_files else processed_files)
  end.

(** [watch_directory_loop] before its [while True]: the directory and
    [processed_files]. *)
Definition watch_directory_loop_start (w : world) (entries : list string)
  : world * App.py_result (gset string) :=
  match w with
  | Absent => (Absent, App.Returned ∅)
  | Denied fs => (Denied fs, App.Raised_PermissionError)
  | Present fs => (Present fs, App.Returned (mark_existing entries fs ∅))
  end.

(** One pass of the [for] loop inside [while True]. *)
Fixpoint poll_entries (entries : list string) (fs : gmap string node)
    (processed_files : gset string)
  : gmap string node * gset string * list message :=
  match entries with
  | [] => (fs, processed_files, [])
  | entry :: rest =>
      if isfile fs entry && negb (bool_decide (entry ∈ processed_files))
      then
        let '(fs1, ok, out) := organize_file entry false fs in
        let '(fs2, p2, out') :=
          poll_entries rest fs1
            (if ok then {[entry]} ∪ processed_files else processed_files) in
        (fs2, p2, New_file_detected entry :: out ++ out')
      else poll_entries rest fs processed_files
  end.

(** The polling session: between two passes, during [time.sleep], other
    programs change the directory ([env]); each pass gets the listing
    [os.listdir] returns then. *)
Fixpoint poll_session
    (ticks : list ((gmap string node → gmap string node) * list string))
    (fs : gmap string node) (processed_files : gset string)
  : gmap string node * gset string * list message :=
  match ticks with
  | [] => (fs, processed_files, [])
  | (env, entries) :: later =>
      let '(fs1, p1, out) := poll_entries entries (env fs) processed_files in
      let '(fs2, p2, out') := poll_session later fs1 p1 in
      (fs2, p2, out ++ out')
  end.

End Watch.

(** ** States of the watched directory, and what is printed *)

(** The entry [x] is kept from [fs] to [fs']: a regular file is still
    there, unchanged, and a folder is still a folder and has lost none of
    its entries. *)
Definition keeps (fs fs' : gmap string node) (x : string) : Prop :=
  match fs !! x with
  | Some (NFile f) => fs' !! x = Some (NFile f)
  | Some (NDir ch) => ∃ ch', fs' !! x = Some (NDir ch') ∧ ch ⊆ ch'
  | None => True
  end.

(** No regular file has appeared at the root, and none has changed. *)
Definition no_new_files (fs fs' : gmap string node) : Prop :=
  ∀ x f, fs' !! x = Some (NFile f) → fs !! x = Some (NFile f).

(** The folder [fs] prepared for a move into [d], as [organize_file]
    does it: [d] is created when nothing of that name exists. *)
Definition prepared (fs : gmap string node) (d : string)
    (fs1 : gmap string node) (out1 : list Organizer.message) : Prop :=
  (exists_ fs d = true ∧ fs1 = fs ∧ out1 = []) ∨
  (fs !! d = None ∧ fs1 = makedirs fs d ∧ out1 = [Organizer.Created_folder d]).

(** A listing that [os.listdir] may return in the state [w]. *)
Definition listing_of (w : world) (l : list string) : Prop :=
  match w with
  | Present fs => is_listing fs l
  | _ => True
  end.

(** The entries of the watched directory in the state [w]. *)
Definition root_of (w : world) : gmap string node :=
  match w with
  | Absent => ∅
  | Denied fs => fs
  | Present fs => fs
  end.

(** The entries the web pass skips: directories, dot names, and the
    name of the protected folder. *)
Definition app_skips (fs : gmap string node) (f : string) : bool :=
  isdir fs f || PyStr.startswith_dot f || bool_decide (f = App.PROTECTED_DIR).

Definition add_skipped (k : nat) (r : App.results) : App.results :=
  {| App.organized := App.organized r; App.errors := App.errors r;
     App.skipped := k + App.skipped r |}.

(** Number of printed lines of one kind. *)
Definition count_message (P : Organizer.message → bool) (out : list Organizer.message) : nat :=
  length (List.filter P out).

Definition is_error (m : Organizer.message) : bool :=
  match m with Organizer.Error_moving _ => true | _ => false end.

Definition is_moved (m : Organizer.message) : bool :=
  match m with Organizer.Moved _ _ _ => true | _ => false end.

Definition is_detected (name : string) (m : Organizer.message) : bool :=
  bool_decide (m = Organizer.New_file_detected name).

(** ** Concrete directories *)

Definition plain_file (content : string) : file :=
  {| locked := false; data := content |}.

Definition locked_file (content : string) : file :=
  {| locked := true; data := content |}.

(** One text file and nothing else. *)
Definition fs_notes : gmap string node :=
  {[ "notes.txt" := NFile (plain_file "n") ]}.

(** A text file that cannot be moved, next to a PDF that can. *)
Definition fs_locked : gmap string node :=
  {[ "a.txt" := NFile (locked_file "a"); "b.pdf" := NFile (plain_file "b") ]}.

(** A PDF next to a regular file that bears the name of the PDF's
    category folder. *)
Definition fs_clash : gmap string node :=
  {[ "a.pdf" := NFile (plain_file "pdf"); "Documents" := NFile (plain_file "doc") ]}.

(** A regular file that bears the name of the protected folder. *)
Definition fs_protected_name : gmap string node :=
  {[ App.PROTECTED_DIR := NFile (plain_file "p") ]}.

(** A directory that bears the script's name. *)
Definition fs_script_dir : gmap string node :=
  {[ Organizer.script_name := NDir ∅ ]}.

(** A dot file next to a text file. *)
Definition fs_hidden : gmap string node :=
  {[ ".env" := NFile (plain_file "e"); "a.txt" := NFile (plain_file "a") ]}.

(** The scenario of the specification: three files at the root and a
    [Documents] folder that already holds a [report.pdf]. *)
Definition fs_scenario : gmap string node :=
  {[ "report.pdf" := NFile (plain_file "new report");
     "photo.jpg" := NFile (plain_file "photo");
     "script.py" := NFile (plain_file "script");
     "Documents" := NDir {[ "report.pdf" := File (plain_file "old report") ]} ]}.

Definition scenario_files : list string := ["report.pdf"; "photo.jpg"; "script.py"].

(** The scenario after a pass of the command line engine. *)
Definition fs_scenario_organized : gmap string node :=
  {[ "Documents" := NDir {[ "report.pdf" := File (plain_file "old report");
                            "report(1).pdf" := File (plain_file "new report") ]};
     "Images" := NDir {[ "photo.jpg" := File (plain_file "photo") ]};
     "Code" := NDir {[ "script.py" := File (plain_file "script") ]} ]}.

(** The scenario after a pass of the web variant, which makes every
    category folder. *)
Definition fs_scenario_organized_web : gmap string node :=
  <["Audio" := NDir ∅]> (<["Videos" := NDir ∅]> (<["Archives" := NDir ∅]>
    (<["Others" := NDir ∅]> fs_scenario_organized))).

(** A file that cannot be moved appears in the watched directory. *)
Definition create_locked (fs : gmap string node) : gmap string node :=
  <["a.txt" := NFile (locked_file "a")]> fs.

(** Nothing happens to the watched directory. *)
Definition quiet (fs : gmap string node) : gmap string node := fs.

(** ** Further notions for the passes and the event-driven session *)

(** The entries [organize_file] does not skip: the regular files that
    do not bear the script's name. *)
Definition organizable (fs : gmap string node) (entry : string) : bool :=
  negb (Organizer.is_script_file entry Organizer.script_name) && isfile fs entry.

(** The entries the web pass does not skip. *)
Definition app_organizable (fs : gmap string node) (f : string) : bool :=
  negb (app_skips fs f).

Module Events.

Import Organizer.

(** What the observer hands to [FileOrganizerHandler]: a creation
    ([event.is_directory], [event.src_path]) or a modification. *)
Inductive fs_event :=
| Created (is_directory : bool) (src : string)
| Modified (src : string).

(** [on_modified(event)]: [pass]. *)
Definition on_modified (src : string) (fs : gmap string node)
    (processed_files : gset string)
  : gmap string node * gset string * list message :=
  (fs, processed_files, []).

(** The observer's thread: the events reach the handler one after the
    other; before each of them other programs have changed the directory
    ([env]), if only by creating the file the event is about. *)
Fixpoint dispatch
    (events : list ((gmap string node → gmap string node) * fs_event))
    (fs : gmap string node) (processed_files : gset string)
  : gmap string node * gset string * list message :=
  match events with
  | [] => (fs, processed_files, [])
  | (env, ev) :: later =>
      let '(fs1, p1, out) :=
        match ev with
        | Created is_directory src =>
            Watch.on_created is_directory src (env fs) processed_files
        | Modified src => on_modified src (env fs) processed_files
        end in
      let '(fs2, p2, out') := dispatch later fs1 p1 in
      (fs2, p2, out ++ out')
  end.

(** The paths of the creation events that are not about a directory. *)
Definition created_files
    (events : list ((gmap string node → gmap string node) * fs_event))
  : list string :=
  omap (λ e, match e.2 with
             | Created false src => Some src
             | _ => None
             end) events.

End Events.

(** The folders the web pass makes sure of: one per category, and
    [Others]. *)
Definition app_folder_names : list string :=
  Registry.APP_FILE_EXTENSION_MAP.*1 ++ ["Others"].

(** The last character of a string, if any. *)
Fixpoint last_char (s : string) : option ascii :=
  match s with
  | "" => None
  | String c r =>
      match last_char r with
      | Some l => Some l
      | None => Some c
      end
  end.

(** The counter in parentheses, as one string. *)
Definition counter_tag (k : nat) : string := "(" +:+ pretty k +:+ ")".

(** ** The routes of the web variant ([app.py]) *)

(** What a route returns: [redirect(url_for(endpoint))],
    [render_template(template, error=error, success=success)], or
    [send_file] of an archive, given by the names of its members. *)
Inductive response :=
| Redirect (endpoint : string)
| Render_template (template : string) (error success : option string)
| Send_file (names : list (list string)).

(** *** The protected folder *)

Module Vault.

(** A path below the watched directory, one or two levels deep: the
    paths the dashboard shows and posts back. *)
Inductive path :=
| At_root (name : string)
| In_folder (d name : string).

Global Instance path_eq_dec : EqDecision path.
Proof. solve_decision. Defined.

(** [os.path.basename(filepath)] *)
Definition basename (p : path) : string :=
  match p with
  | At_root name => name
  | In_folder _ name => name
  end.

(** What is at a path: [None] when [os.path.exists] is false. *)
Definition lookup_path (fs : gmap string node) (p : path) : option entry :=
  match p with
  | At_root name =>
      match fs !! name with
      | Some (NFile f) => Some (File f)
      | Some (NDir _) => Some Subdir
      | None => None
      end
  | In_folder d name =>
      match fs !! d with
      | Some (NDir ch) => ch !! name
      | _ => None
      end
  end.

(** The directory without what is at the path. *)
Definition remove_path (fs : gmap string node) (p : path) : gmap string node :=
  match p with
  | At_root name => delete name fs
  | In_folder d name =>
      match fs !! d with
      | Some (NDir ch) => <[d := NDir (delete name ch)]> fs
      | _ => fs
      end
  end.

(** [shutil.move(filepath, watch_dir/d/name)] for a regular file at
    [filepath]; [None] when it raises. As for [move]: a file that is
    [locked] or a destination folder that is not a directory make it
    raise; a regular file at the destination is replaced; into a
    directory at the destination the file disappears from what is
    tracked. *)
Definition move_file_into (fs : gmap string node) (p : path) (d name : string)
  : option (gmap string node) :=
  match lookup_path fs p with
  | Some (File f) =>
      if locked f then None
      else
        let fs1 := remove_path fs p in
        match fs1 !! d with
        | Some (NDir ch) =>
            match ch !! name with
            | Some Subdir => Some fs1
            | _ => Some (<[d := NDir (<[name := File f]> ch)]> fs1)
            end
        | _ => None
        end
  | _ => None
  end.

(** [shutil.move(filepath, watch_dir/name)] for a regular file at
    [filepath]. A directory at the destination receives the file under
    its base name, and the move raises when that name is taken there. *)
Definition move_file_to_root (fs : gmap string node) (p : path) (name : string)
  : option (gmap string node) :=
  match lookup_path fs p with
  | Some (File f) =>
      if locked f then None
      else
        let fs1 := remove_path fs p in
        match fs1 !! name with
        | Some (NDir ch) =>
            match ch !! basename p with
            | Some _ => None
            | None => Some (<[name := NDir (<[basename p := File f]> ch)]> fs1)
            end
        | _ => Some (<[name := NFile f]> fs1)
        end
  | _ => None
  end.

(** [generate_unique_filename(watch_dir, filename)]: the same function,
    probing the root of the watched directory. *)
Definition generate_unique_filename_root (fs : gmap string node) (filename : string)
  : string :=
  if negb (exists_ fs filename) then filename
  else
    let name := PyStr.stem filename in
    let extension := PyStr.suffix filename in
    match Namer.probe (exists_ fs) name extension (S (size fs)) 1 with
    | Some new_filename => new_filename
    | None => filename
    end.

Inductive notice := Error_protecting | Error_unprotecting.

(** [protect_file()], for a posted [filepath] that is empty ([None]) or
    a path below the watched directory. The result is [None] when the
    path names a directory: the model follows the moves of regular files
    only, which are what the dashboard offers to protect. *)
Definition protect_file (authenticated : bool) (filepath : option path)
    (fs : gmap string node)
  : option (gmap string node * response * list notice) :=
  if negb authenticated then Some (fs, Redirect "login", [])
  else
    match filepath with
    | None => Some (fs, Redirect "dashboard", [])
    | Some p =>
        match lookup_path fs p with
        | None => Some (fs, Redirect "dashboard", [])
        | Some Subdir => None
        | Some (File _) =>
            let fs1 :=
              if negb (exists_ fs App.PROTECTED_DIR)
              then makedirs fs App.PROTECTED_DIR else fs in
            let filename := basename p in
            let unique_filename :=
              Namer.generate_unique_filename fs1 App.PROTECTED_DIR filename in
            match move_file_into fs1 p App.PROTECTED_DIR unique_filename with
            | Some fs2 => Some (fs2, Redirect "dashboard", [])
            | None => Some (fs1, Redirect "dashboard", [Error_protecting])
            end
        end
    end.

(** [unprotect_file()], with the same convention. *)
Definition unprotect_file (authenticated : bool) (filepath : option path)
    (fs : gmap string node)
  : option (gmap string node * response * list notice) :=
  if negb authenticated then Some (fs, Redirect "login", [])
  else
    match filepath with
    | None => Some (fs, Redirect "dashboard", [])
    | Some p =>
        match lookup_path fs p with
        | None => Some (fs, Redirect "dashboard", [])
        | Some Subdir => None
        | Some (File _) =>
            let filename := basename p in
            let filename' :=
              if exists_ fs filename
              then generate_unique_filename_root fs filename else filename in
            match move_file_to_root fs p filename' with
            | Some fs2 => Some (fs2, Redirect "dashboard", [])
            | None => Some (fs, Redirect "dashboard", [Error_unprotecting])
            end
        end
    end.

(** An item of the list [get_protected_files] returns. *)
Record file_info := { info_name : string; info_size : nat; info_path : path }.

Inductive files_result :=
| Not_authenticated
| Files (files : list file_info)
| Raised_NotADirectoryError.

(** The loop of [get_protected_files] over the listing of the
    protected folder: the regular files, with their sizes. *)
Fixpoint protected_infos (ch : gmap string entry) (listing : list string)
  : list file_info :=
  match listing with
  | [] => []
  | f :: rest =>
      match ch !! f with
      | Some (File g) =>
          {| info_name := f; info_size := String.length (data g);
             info_path := In_folder App.PROTECTED_DIR f |}
          :: protected_infos ch rest
      | _ => protected_infos ch rest
      end
  end.

(** [get_protected_files()]; [listing] is what [os.listdir] returns for
    the protected folder. *)
Definition get_protected_files (authenticated : bool) (fs : gmap string node)
    (listing : list string) : files_result :=
  if negb authenticated then Not_authenticated
  else
    match fs !! App.PROTECTED_DIR with
    | None => Files []
    | Some (NFile _) => Raised_NotADirectoryError
    | Some (NDir ch) => Files (protected_infos ch listing)
    end.

End Vault.

(** The list [l] is what [os.listdir] returns for the folder [d] of
    the watched directory, when it is one. *)
Definition lists_folder (fs : gmap string node) (d : string) (l : list string) : Prop :=
  ∀ ch, fs !! d = Some (NDir ch) → NoDup l ∧ list_to_set l =@{gset string} dom ch.

(** *** The password *)

Module Account.

(** A request as the routes see it: its method, and for a POST the
    form. *)
Inductive method :=
| GET
| POST (form : gmap string string).

(** [request.form.get(key, '')] *)
Definition form_get (form : gmap string string) (key : string) : string :=
  default "" (form !! key).

(** The Flask session of one client: whether the key [authenticated] is
    set, and the values under [password] and [watch_dir]. *)
Record session := {
  authenticated : bool;
  password : option string;
  watch_dir : option string
}.

(** A session without keys, as a new client has it and as
    [session.clear()] leaves it. *)
Definition empty_session : session :=
  {| authenticated := false; password := None; watch_dir := None |}.

(** The module's global and the sessions of the clients. *)
Record server := {
  DEFAULT_PASSWORD : string;
  sessions : gmap nat session
}.

(** The server when it starts. *)
Definition start : server :=
  {| DEFAULT_PASSWORD := "Irfan@786"; sessions := ∅ |}.

Definition session_of (st : server) (client : nat) : session :=
  default empty_session (sessions st !! client).

Inductive request :=
| Login (m : method)
| Logout
| Change_password (m : method).

Section hashing.

(** [hash_password]: the SHA-256 digest in hexadecimal, which the model
    leaves open. *)
Variable hash_password : string → string.

(** [login()] *)
Definition login (m : method) (default_password : string) (s : session)
  : session * response :=
  match m with
  | POST form =>
      let password := form_get form "password" in
      if bool_decide (hash_password password = hash_password default_password)
      then ({| authenticated := true;
               password := Some (hash_password password);
               watch_dir := watch_dir s |},
            Redirect "dashboard")
      else (s, Render_template "login.html" (Some "Invalid password! Try again.") None)
  | GET => (s, Render_template "login.html" None None)
  end.

(** [logout()] *)
Definition logout (s : session) : session * response :=
  (empty_session, Redirect "login").

(** [change_password()]: the new value of [DEFAULT_PASSWORD] and the
    response. *)
Definition change_password (m : method) (default_password : string) (s : session)
  : string * response :=
  if negb (authenticated s) then (default_password, Redirect "login")
  else
    match m with
    | POST form =>
        let current_password := form_get form "current_password" in
        let new_password := form_get form "new_password" in
        let confirm_password := form_get form "confirm_password" in
        if negb (bool_decide (hash_password current_password
                              = hash_password default_password))
        then (default_password,
              Render_template "change_password.html"
                (Some "Current password is incorrect!") None)
        else if negb (bool_decide (new_password = confirm_password))
        then (default_password,
              Render_template "change_password.html"
                (Some "New passwords do not match!") None)
        else if String.length new_password <? 4
        then (default_password,
              Render_template "change_password.html"
                (Some "Password must be at least 4 characters!") None)
        else (new_password,
              Render_template "change_password.html"
                None (Some "Password changed successfully!"))
    | GET => (default_password, Render_template "change_password.html" None None)
    end.

(** The server handling one request of one client. *)
Definition handle (client : nat) (req : request) (st : server) : server * response :=
  let s := session_of st client in
  match req with
  | Login m =>
      let '(s', resp) := login m (DEFAULT_PASSWORD st) s in
      ({| DEFAULT_PASSWORD := DEFAULT_PASSWORD st;
          sessions := <[client := s']> (sessions st) |}, resp)
  | Logout =>
      let '(s', resp) := logout s in
      ({| DEFAULT_PASSWORD := DEFAULT_PASSWORD st;
          sessions := <[client := s']> (sessions st) |}, resp)
  | Change_password m =>
      let '(p', resp) := change_password m (DEFAULT_PASSWORD st) s in
      ({| DEFAULT_PASSWORD := p'; sessions := sessions st |}, resp)
  end.

(** The requests of the clients, handled one after the other. *)
Fixpoint run (reqs : list (nat * request)) (st : server) : server * list response :=
  match reqs with
  | [] => (st, [])
  | (client, req) :: later =>
      let '(st1, resp) := handle client req st in
      let '(st2, resps) := run later st1 in
      (st2, resp :: resps)
  end.

End hashing.

End Account.

(** *** The dashboard *)

Module Dashboard.

(** An item of the lists of [get_directory_structure]. *)
Record file_item := {
  item_name : string;
  item_size : nat;
  item_path : Vault.path;
  item_category : string
}.

(** The dict [structure]; [categories] keeps the order in which its
    keys were set. *)
Record structure := {
  root : string;
  categories : list (string * list file_item);
  others : list file_item;
  total_files : nat;
  root_files : list file_item
}.

(** The loop over [os.listdir] of the folder [d], collecting its
    regular files. *)
Fixpoint folder_files (d category : string) (ch : gmap string entry)
    (listing : list string) : list file_item :=
  match listing with
  | [] => []
  | f :: rest =>
      match ch !! f with
      | Some (File g) =>
          {| item_name := f; item_size := String.length (data g);
             item_path := Vault.In_folder d f; item_category := category |}
          :: folder_files d category ch rest
      | _ => folder_files d category ch rest
      end
  end.

(** The loop over [os.listdir(watch_dir)]. *)
Fixpoint root_items (fs : gmap string node) (listing : list string) : list file_item :=
  match listing with
  | [] => []
  | f :: rest =>
      match fs !! f with
      | Some (NFile g) =>
          {| item_name := f; item_size := String.length (data g);
             item_path := Vault.At_root f;
             item_category := Registry.app_get_category_for_file f |}
          :: root_items fs rest
      | _ => root_items fs rest
      end
  end.

(** The loop over the keys of [FILE_EXTENSION_MAP]; [None] when
    [os.listdir] raises because a regular file bears the name of a
    category. *)
Fixpoint scan_categories (fs : gmap string node) (listdir : string → list string)
    (names : list string) (categories : list (string * list file_item))
    (total_files : nat) : option (list (string * list file_item) * nat) :=
  match names with
  | [] => Some (categories, total_files)
  | category :: rest =>
      match fs !! category with
      | None => scan_categories fs listdir rest categories total_files
      | Some (NFile _) => None
      | Some (NDir ch) =>
          let files := folder_files category category ch (listdir category) in
          scan_categories fs listdir rest (categories ++ [(category, files)])
            (total_files + length files)
      end
  end.

(** [get_directory_structure(watch_dir)] on a watched directory that
    exists; [listing] is what [os.listdir] returns for it and [listdir]
    what it returns for its folders. [None] when it raises. *)
Definition get_directory_structure (watch_dir : string) (fs : gmap string node)
    (listing : list string) (listdir : string → list string) : option structure :=
  match scan_categories fs listdir Registry.APP_FILE_EXTENSION_MAP.*1 [] 0 with
  | None => None
  | Some (categories, total) =>
      let others_scan :=
        match fs !! "Others" with
        | None => Some ([], total)
        | Some (NFile _) => None
        | Some (NDir ch) =>
            let others := folder_files "Others" "Others" ch (listdir "Others") in
            Some (others, total + length others)
        end in
      match others_scan with
      | None => None
      | Some (others, total') =>
          let root_files := root_items fs listing in
          Some {| root := watch_dir; categories := categories; others := others;
                  total_files := total' + length root_files;
                  root_files := root_files |}
      end
  end.

(** Every item the dashboard is given. *)
Definition shown (s : structure) : list file_item :=
  concat (categories s).*2 ++ others s ++ root_files s.

End Dashboard.

(** *** The download of the project *)

Module Archive.

(** A directory of the project: its files, each with whether it can be
    read, and its subdirectories, in the order [os.walk] reports them. A
    subdirectory that cannot be listed is walked as an empty one, as
    [os.walk] does. *)
#[warnings="-register-all"] Inductive tree :=
| Node (files : list (string * bool)) (dirs : list (string * tree)).

Definition SKIPPED_DIRS : list string :=
  ["__pycache__"; ".git"; ".vscode"; "protected_files"; ".pytest_cache"; "instance"].

Definition SKIPPED_ENDINGS : list string :=
  [".pyc"; ".pyo"; ".db"; ".log"; ".exe"].

(** [s.endswith(suffix)] *)
Definition endswith (s suffix : string) : bool :=
  (String.length suffix <=? String.length s)
  && bool_decide (PyStr.drop (String.length s - String.length suffix) s = suffix).

(** [s.endswith(suffixes)] for a tuple. *)
Definition endswith_any (s : string) (suffixes : list string) : bool :=
  existsb (endswith s) suffixes.

(** The loop over [os.walk(project_root)], from the directory whose
    path is [root]: the files written to the archive, each with its
    [arcname] as the list of its components and whether it can be read.
    The files of a directory come first; then the walk enters the
    subdirectories that [dirs[:]] keeps. *)
Fixpoint walk (root : list string) (t : tree) : list (list string * bool) :=
  match t with
  | Node files dirs =>
      ((λ file : string * bool, (root ++ [file.1], file.2))
         <$> List.filter (λ file : string * bool,
                            negb (endswith_any file.1 SKIPPED_ENDINGS)) files)
      ++ (fix walk_dirs (ds : list (string * tree)) : list (list string * bool) :=
            match ds with
            | [] => []
            | (d, sub) :: rest =>
                (if bool_decide (d ∈ SKIPPED_DIRS) then [] else walk (root ++ [d]) sub)
                ++ walk_dirs rest
            end) dirs
  end.

(** [download_zip()]; [project] is the name of the project's root
    directory, with which every [arcname] starts. A file that cannot be
    read makes [zip_file.write] raise. *)
Definition download_zip (project : string) (t : tree) : response :=
  let written := walk [project] t in
  if forallb snd written then Send_file written.*1 else Redirect "index".

(** Every file of a directory and below, with its path from [root]. *)
Fixpoint all_files (root : list string) (t : tree) : list (list string * bool) :=
  match t with
  | Node files dirs =>
      ((λ file : string * bool, (root ++ [file.1], file.2)) <$> files)
      ++ (fix all_dirs (ds : list (string * tree)) : list (list string * bool) :=
            match ds with
            | [] => []
            | (d, sub) :: rest => all_files (root ++ [d]) sub ++ all_dirs rest
            end) dirs
  end.

(** A path that, below its first [depth] components, goes through no
    skipped directory and ends in no skipped ending. *)
Definition selected (depth : nat) (path : list string) : bool :=
  forallb (λ d, negb (bool_decide (d ∈ SKIPPED_DIRS))) (removelast (drop depth path))
  && negb (endswith_any (default "" (last path)) SKIPPED_ENDINGS).

End Archive.

(** * Properties *)

Example category_pdf : Registry.get_category_for_file "Report.PDF" = "Documents".
Proof. vm_compute. reflexivity. Qed.

Example category_dotfile : Registry.get_category_for_file ".pdf" = "Others".
Proof. vm_compute. reflexivity. Qed.

Example category_exe_app : Registry.app_get_category_for_file "setup.exe" = "Others".
Proof. vm_compute. reflexivity. Qed.

Example suffix_tar_gz : PyStr.suffix "a.tar.gz" = ".gz" /\ PyStr.stem "a.tar.gz" = "a.tar".
Proof. vm_compute. split; reflexivity. Qed.

(** ** Strings: append, [rfind], suffix and stem *)

Section string_facts.

Import PyStr.

Lemma str_app_cons c s t : String c s +:+ t = String c (s +:+ t).
Proof. reflexivity. Qed.

Lemma str_app_empty_l t : "" +:+ t = t.
Proof. reflexivity. Qed.

Lemma str_length_app s t : String.length (s +:+ t) = String.length s + String.length t.
Proof. induction s as [|c s IH]; [done|]. rewrite str_app_cons. simpl. by rewrite IH. Qed.

(** Cancellation on the right: the two prefixes have the same length. *)
Lemma str_app_inv_tail s1 s2 t : s1 +:+ t = s2 +:+ t → s1 = s2.
Proof.
  revert s2. induction s1 as [|c s1 IH]; intros [|c2 s2] H.
  - done.
  - apply (f_equal String.length) in H. rewrite !str_length_app in H. simpl in H. lia.
  - apply (f_equal String.length) in H. rewrite !str_length_app in H. simpl in H. lia.
  - rewrite !str_app_cons in H. injection H as -> H. f_equal. by apply IH.
Qed.

Lemma has_slash_app s t : has_slash (s +:+ t) = has_slash s || has_slash t.
Proof.
  induction s as [|c s IH]; [done|]. rewrite str_app_cons. simpl.
  rewrite IH. by rewrite orb_assoc.
Qed.

Lemma split_slash_plain s : has_slash s = false → split_slash s = [s].
Proof.
  induction s as [|c s IH]; [done|]. simpl. intros H.
  apply orb_false_iff in H as [-> Hs]. by rewrite (IH Hs).
Qed.

(** A base name is its own [Path(...).name]. *)
Lemma path_name_plain s :
  has_slash s = false → s ≠ "" → s ≠ "." → path_name s = s.
Proof.
  intros Hs H1 H2. unfold path_name. rewrite (split_slash_plain _ Hs). simpl.
  rewrite !bool_decide_eq_false_2 by done. done.
Qed.

Lemma rfind_dot_none s : has_dot s = false → rfind_dot s = None.
Proof.
  induction s as [|c s IH]; [done|]. simpl. intros H.
  apply orb_false_iff in H as [-> Hs]. by rewrite (IH Hs).
Qed.

Lemma rfind_dot_app s r :
  has_dot r = false → rfind_dot (s +:+ String "." r) = Some (String.length s).
Proof.
  intros Hr. induction s as [|c s IH].
  - rewrite str_app_empty_l. simpl. by rewrite (rfind_dot_none _ Hr).
  - rewrite str_app_cons. simpl. by rewrite IH.
Qed.

Lemma str_drop_app s t : drop (String.length s) (s +:+ t) = t.
Proof. induction s as [|c s IH]; [by destruct t|]. by rewrite str_app_cons. Qed.

Lemma str_take_app s t : take (String.length s) (s +:+ t) = s.
Proof.
  induction s as [|c s IH]; [by destruct t|]. rewrite str_app_cons. simpl. by rewrite IH.
Qed.

Lemma str_take_drop i s : take i s +:+ drop i s = s.
Proof.
  revert i. induction s as [|c s IH]; intros [|i]; try done.
  simpl. rewrite str_app_cons. by rewrite IH.
Qed.

Lemma inner_dot_app s r :
  s ≠ "" → r ≠ "" → has_dot r = false →
  inner_dot (s +:+ String "." r) = Some (String.length s).
Proof.
  intros Hs Hr Hd. unfold inner_dot. rewrite (rfind_dot_app _ _ Hd).
  rewrite str_length_app. simpl.
  destruct s as [|c s]; [done|]. destruct r as [|c' r]; [done|]. simpl.
  replace (String.length s + S (S (String.length r)) - 0)
    with (S (S (String.length s + String.length r))) by lia.
  by rewrite (proj2 (Nat.ltb_lt _ _)) by lia.
Qed.

Lemma plain_ext_inv e :
  plain_ext e = true →
  ∃ r, e = String "." r ∧ has_dot r = false ∧ has_slash r = false ∧ r ≠ "".
Proof.
  destruct e as [|c r]; [done|]. simpl. intros H.
  apply andb_prop in H as [H H4]. apply andb_prop in H as [H H3].
  apply andb_prop in H as [H1 H2].
  apply bool_decide_eq_true in H1 as ->.
  apply negb_true_iff in H2, H3, H4. apply bool_decide_eq_false in H4. eauto.
Qed.

Lemma name_with_ext s e :
  s ≠ "" → has_slash s = false → plain_ext e = true →
  path_name (s +:+ e) = s +:+ e ∧ inner_dot (s +:+ e) = Some (String.length s).
Proof.
  intros Hs Hsl (r & -> & Hd & Hrs & Hr)%plain_ext_inv. split.
  - apply path_name_plain.
    + rewrite has_slash_app, Hsl. simpl. by rewrite Hrs.
    + by destruct s.
    + destruct s as [|c [|c' s]]; try done; by destruct r.
  - by apply inner_dot_app.
Qed.

(** The suffix of [stem + ext] is [ext], and its stem is [stem]. *)
Lemma suffix_app s e :
  s ≠ "" → has_slash s = false → plain_ext e = true → suffix (s +:+ e) = e.
Proof.
  intros Hs Hsl He. destruct (name_with_ext s e Hs Hsl He) as [Hn Hi].
  unfold suffix. rewrite Hn, Hi. apply str_drop_app.
Qed.

Lemma stem_app s e :
  s ≠ "" → has_slash s = false → plain_ext e = true → stem (s +:+ e) = s.
Proof.
  intros Hs Hsl He. destruct (name_with_ext s e Hs Hsl He) as [Hn Hi].
  unfold stem. rewrite Hn, Hi. apply str_take_app.
Qed.

(** For every name, stem and suffix put together give [Path(...).name]. *)
Lemma stem_suffix filename : stem filename +:+ suffix filename = path_name filename.
Proof.
  unfold stem, suffix. destruct (inner_dot (path_name filename)).
  - apply str_take_drop.
  - generalize (path_name filename). intros s. induction s as [|c s IH]; [done|].
    rewrite str_app_cons. by rewrite IH.
Qed.






End string_facts.

(** ** Category registry: the shipped table *)

Section registry_facts.

Import PyStr Registry.








End registry_facts.



(** ** Unique namer *)

Section namer_facts.

Import Namer.

Lemma candidate_inj name extension : Inj (=) (=) (candidate name extension).
Proof.
  intros k1 k2 H. unfold candidate in H.
  apply (inj (String.app name)) in H. apply (inj (String.app "(")) in H.
  apply str_app_inv_tail in H. by apply (inj pretty) in H.
Qed.

(** What the loop returns is the first candidate that is not there. *)
Lemma probe_some present name extension fuel counter r :
  probe present name extension fuel counter = Some r →
  ∃ k, counter ≤ k < counter + fuel ∧ r = candidate name extension k ∧
       present r = false ∧
       ∀ j, counter ≤ j < k → present (candidate name extension j) = true.
Proof.
  revert counter. induction fuel as [|fuel IH]; intros counter H; [done|].
  simpl in H. destruct (present (candidate name extension counter)) eqn:E; simpl in H.
  - apply IH in H as (k & Hk & -> & Hfree & Hbusy). exists k.
    split; [lia|]. split; [done|]. split; [done|].
    intros j Hj. destruct (decide (j = counter)) as [->|]; [done|]. apply Hbusy. lia.
  - injection H as <-. exists counter. split; [lia|]. split; [done|].
    split; [done|]. intros j Hj. lia.
Qed.

(** The loop uses up its fuel only on candidates that are all there. *)
Lemma probe_none present name extension fuel counter :
  probe present name extension fuel counter = None →
  ∀ j, counter ≤ j < counter + fuel → present (candidate name extension j) = true.
Proof.
  revert counter. induction fuel as [|fuel IH]; intros counter H j Hj; [lia|].
  simpl in H. destruct (present (candidate name extension counter)) eqn:E; [|done].
  simpl in H. destruct (decide (j = counter)) as [->|]; [done|].
  apply (IH _ H). lia.
Qed.


(** The candidates are pairwise distinct, so a directory of [n] entries
    cannot hold [n + 1] of them: the loop stops. *)
Lemma probe_enough_fuel fs d name extension :
  is_Some (probe (exists_in fs d) name extension (S (entries_in fs d)) 1).
Proof.
  destruct (probe _ _ _ _ _) as [r|] eqn:E; [by eexists|]. exfalso.
  pose proof (probe_none _ _ _ _ _ E) as Hall.
  unfold exists_in, entries_in in *.
  destruct (fs !! d) as [[f|ch]|] eqn:Hd;
    try (specialize (Hall 1 ltac:(lia)); done).
  set (cands := candidate name extension <$> seq 1 (S (size ch))).
  assert (NoDup cands) as Hnd.
  { apply (NoDup_fmap_2 _ (Inj0 := candidate_inj name extension)). apply NoDup_seq. }
  assert (list_to_set cands ⊆ dom ch) as Hsub.
  { intros x Hx. apply elem_of_list_to_set in Hx.
    apply list_elem_of_fmap in Hx as (j & -> & Hj). apply elem_of_seq in Hj.
    apply elem_of_dom. specialize (Hall j ltac:(lia)).
    by apply bool_decide_eq_true in Hall. }
  apply subseteq_size in Hsub.
  rewrite size_list_to_set in Hsub by done. rewrite size_dom in Hsub.
  unfold cands in Hsub. rewrite length_fmap, length_seq in Hsub. lia.
Qed.

End namer_facts.

Example unique_report :
  Namer.candidate (PyStr.stem "report.pdf") (PyStr.suffix "report.pdf") 1 = "report(1).pdf".
Proof. vm_compute. reflexivity. Qed.



(** ** The directory under [makedirs] and [move] *)

Section fs_facts.

Implicit Types fs : gmap string node.

Lemma exists_false fs d : exists_ fs d = false ↔ fs !! d = None.
Proof.
  unfold exists_. rewrite bool_decide_eq_false, <- eq_None_not_Some. done.
Qed.

Lemma keeps_refl fs x : keeps fs fs x.
Proof. unfold keeps. destruct (fs !! x) as [[f|ch]|]; eauto. Qed.

Lemma keeps_trans fs1 fs2 fs3 x : keeps fs1 fs2 x → keeps fs2 fs3 x → keeps fs1 fs3 x.
Proof.
  unfold keeps. destruct (fs1 !! x) as [[f|ch]|]; [| |done].
  - by intros ->.
  - intros (ch2 & -> & Hsub) (ch3 & -> & Hsub'). exists ch3. split; [done|].
    by trans ch2.
Qed.

Lemma no_new_files_refl fs : no_new_files fs fs.
Proof. by intros x f. Qed.

Lemma no_new_files_trans fs1 fs2 fs3 :
  no_new_files fs1 fs2 → no_new_files fs2 fs3 → no_new_files fs1 fs3.
Proof. intros H1 H2 x f H. by apply H1, H2. Qed.

Lemma makedirs_keeps fs d x : fs !! d = None → keeps fs (makedirs fs d) x.
Proof.
  intros Hd. unfold keeps, makedirs. destruct (decide (x = d)) as [->|Hne].
  - by rewrite Hd.
  - rewrite lookup_insert_ne by done. destruct (fs !! x) as [[f|ch]|]; eauto.
Qed.

Lemma makedirs_no_new_files fs d : no_new_files fs (makedirs fs d).
Proof.
  intros x f. unfold makedirs. destruct (decide (x = d)) as [->|Hne].
  - by rewrite lookup_insert_eq.
  - by rewrite lookup_insert_ne.
Qed.

(** A move that succeeds: the source was a regular file that could be
    moved and the destination folder a directory. *)
Lemma move_some fs src d name fs' :
  move fs src d name = Some fs' →
  ∃ f ch, fs !! src = Some (NFile f) ∧ locked f = false ∧ fs !! d = Some (NDir ch) ∧
    ((ch !! name = Some Subdir ∧ fs' = delete src fs) ∨
     (ch !! name ≠ Some Subdir ∧
      fs' = delete src (<[d := NDir (<[name := File f]> ch)]> fs))).
Proof.
  unfold move. destruct (fs !! src) as [[f|?]|]; [|done..].
  destruct (locked f) eqn:Hl; [done|].
  destruct (fs !! d) as [[?|ch]|]; [done| |done].
  intros H. exists f, ch. split; [done|]. split; [done|]. split; [done|].
  destruct (ch !! name) as [[g|]|] eqn:E; injection H as <-; naive_solver.
Qed.

(** Towards a free name, a move takes the file from the root to the
    folder and touches nothing else. *)
Lemma move_fresh fs src d name fs' :
  move fs src d name = Some fs' → exists_in fs d name = false →
  ∃ f ch, fs !! src = Some (NFile f) ∧ locked f = false ∧ fs !! d = Some (NDir ch) ∧
    ch !! name = None ∧ src ≠ d ∧
    fs' = delete src (<[d := NDir (<[name := File f]> ch)]> fs).
Proof.
  intros (f & ch & Hsrc & Hl & Hd & Hcase)%move_some Hfree.
  unfold exists_in in Hfree. rewrite Hd in Hfree.
  apply bool_decide_eq_false in Hfree. rewrite <- eq_None_not_Some in Hfree.
  exists f, ch. repeat (split; [done|]). split; [congruence|].
  destruct Hcase as [[? _]|[_ ->]]; [congruence|done].
Qed.

Lemma move_keeps fs src d name fs' x :
  move fs src d name = Some fs' → exists_in fs d name = false → x ≠ src →
  keeps fs fs' x.
Proof.
  intros Hm Hfr Hx.
  destruct (move_fresh _ _ _ _ _ Hm Hfr) as (f & ch & Hsrc & Hl & Hd & Hfree & Hne & ->).
  unfold keeps. rewrite lookup_delete_ne by done.
  destruct (decide (x = d)) as [->|Hxd].
  - rewrite Hd, lookup_insert_eq. eexists. split; [done|]. by apply insert_subseteq.
  - rewrite lookup_insert_ne by done. destruct (fs !! x) as [[g|ch']|]; eauto.
Qed.

Lemma move_no_new_files fs src d name fs' :
  move fs src d name = Some fs' → no_new_files fs fs'.
Proof.
  intros (f & ch & Hsrc & Hl & Hd & Hcase)%move_some x g.
  destruct Hcase as [[_ ->]|[_ ->]].
  - destruct (decide (x = src)) as [->|Hne];
      [by rewrite lookup_delete_eq|by rewrite lookup_delete_ne].
  - destruct (decide (x = src)) as [->|Hne]; [by rewrite lookup_delete_eq|].
    rewrite lookup_delete_ne by done. destruct (decide (x = d)) as [->|Hxd].
    + by rewrite lookup_insert_eq.
    + by rewrite lookup_insert_ne.
Qed.

(** The name returned by the unique namer is free in the destination. *)
Lemma generate_unique_filename_fresh fs d filename :
  exists_in fs d (Namer.generate_unique_filename fs d filename) = false.
Proof.
  unfold Namer.generate_unique_filename.
  destruct (exists_in fs d filename) eqn:E; [|done]. cbn [negb].
  destruct (probe_enough_fuel fs d (PyStr.stem filename) (PyStr.suffix filename))
    as [r Hr].
  rewrite Hr. by destruct (probe_some _ _ _ _ _ _ Hr) as (k & _ & _ & Hfree & _).
Qed.

Lemma prepared_keeps fs d fs1 out1 x : prepared fs d fs1 out1 → keeps fs fs1 x.
Proof.
  intros [(_ & -> & _)|(Hd & -> & _)]; [apply keeps_refl|by apply makedirs_keeps].
Qed.

Lemma prepared_no_new_files fs d fs1 out1 : prepared fs d fs1 out1 → no_new_files fs fs1.
Proof.
  intros [(_ & -> & _)|(Hd & -> & _)];
    [apply no_new_files_refl|apply makedirs_no_new_files].
Qed.

End fs_facts.

(** ** One call of [organize_file] *)

Section organize_file_facts.

Import Organizer.
Implicit Types fs : gmap string node.

Lemma destination_is_category (category : string) :
  (if bool_decide (category = "Others") then "Others" else category) = category.
Proof. by case_bool_decide. Qed.

(** The three ways through [organize_file]: the two skips, and the move
    after the destination folder was prepared. *)
Lemma organize_file_inv entry dry_run fs fs' ok out :
  organize_file entry dry_run fs = (fs', ok, out) →
  (entry = script_name ∧ fs' = fs ∧ ok = false ∧ out = [Skipping_script entry]) ∨
  (entry ≠ script_name ∧ isdir fs entry = true ∧ fs' = fs ∧ ok = false ∧ out = []) ∨
  (entry ≠ script_name ∧ isdir fs entry = false ∧
   ∃ fs1 out1,
     let category := Registry.get_category_for_file entry in
     let unique := Namer.generate_unique_filename fs1 category entry in
     prepared fs category fs1 out1 ∧
     ((dry_run = true ∧ fs' = fs1 ∧ ok = true ∧
       out = out1 ++ [Would_move entry category unique]) ∨
      (dry_run = false ∧ move fs1 entry category unique = Some fs' ∧ ok = true ∧
       out = out1 ++ [Moved entry category unique]) ∨
      (dry_run = false ∧ move fs1 entry category unique = None ∧ fs' = fs1 ∧
       ok = false ∧ out = out1 ++ [Error_moving entry]))).
Proof.
  unfold organize_file, is_script_file. case_bool_decide as Hs.
  { intros [= <- <- <-]. by left. }
  destruct (isdir fs entry) eqn:Hdir.
  { intros [= <- <- <-]. right; left. done. }
  rewrite destination_is_category. intros H. right; right.
  split; [done|]. split; [done|].
  set (category := Registry.get_category_for_file entry) in *.
  destruct (exists_ fs category) eqn:Hex; cbn [negb] in H.
  - exists fs, []. split; [by left|]. destruct dry_run.
    + injection H as <- <- <-. by left.
    + destruct (move fs entry category _) as [fs2|] eqn:Hm;
        injection H as <- <- <-; [right; left|right; right]; done.
  - apply exists_false in Hex. exists (makedirs fs category), [Created_folder category].
    split; [by right|]. destruct dry_run.
    + injection H as <- <- <-. by left.
    + destruct (move (makedirs fs category) entry category _) as [fs2|] eqn:Hm;
        injection H as <- <- <-; [right; left|right; right]; done.
Qed.

(** Whatever the outcome, no other entry of the root is lost. *)
Lemma organize_file_keeps entry dry_run fs fs' ok out x :
  organize_file entry dry_run fs = (fs', ok, out) → x ≠ entry → keeps fs fs' x.
Proof.
  intros H Hx. apply organize_file_inv in H
    as [(_ & -> & _)|[(_ & _ & -> & _)|(_ & _ & fs1 & out1 & Hprep & Hcase)]];
    [apply keeps_refl..|].
  pose proof (prepared_keeps _ _ _ _ x Hprep) as Hk.
  destruct Hcase as [(_ & -> & _)|[(_ & Hm & _)|(_ & _ & -> & _)]]; [done| |done].
  apply (keeps_trans _ fs1); [done|].
  apply (move_keeps _ _ _ _ _ _ Hm); [apply generate_unique_filename_fresh|done].
Qed.

Lemma organize_file_no_new_files entry dry_run fs fs' ok out :
  organize_file entry dry_run fs = (fs', ok, out) → no_new_files fs fs'.
Proof.
  intros H. apply organize_file_inv in H
    as [(_ & -> & _)|[(_ & _ & -> & _)|(_ & _ & fs1 & out1 & Hprep & Hcase)]];
    [apply no_new_files_refl..|].
  pose proof (prepared_no_new_files _ _ _ _ Hprep) as Hk.
  destruct Hcase as [(_ & -> & _)|[(_ & Hm & _)|(_ & _ & -> & _)]]; [done| |done].
  apply (no_new_files_trans _ fs1); [done|]. by apply (move_no_new_files _ _ _ _ _ Hm).
Qed.

(** A directory given to [organize_file] is left as it is. *)
Lemma organize_file_dir entry dry_run fs :
  isdir fs entry = true → (organize_file entry dry_run fs).1.1 = fs.
Proof.
  intros Hdir. unfold organize_file. destruct (is_script_file _ _); [done|].
  by rewrite Hdir.
Qed.

(** A call that prints no error and is not a dry run leaves no regular
    file of that name at the root, the script apart. *)
Lemma organize_file_clears entry fs fs' ok out :
  organize_file entry false fs = (fs', ok, out) →
  count_message is_error out = 0 → entry ≠ script_name → isfile fs' entry = false.
Proof.
  intros H Herr Hs. apply organize_file_inv in H
    as [(? & _)|[(_ & Hdir & -> & _)|(_ & _ & fs1 & out1 & Hprep & Hcase)]]; [done| |].
  - unfold isdir in Hdir. unfold isfile. by destruct (fs !! entry) as [[]|].
  - destruct Hcase as [(? & _)|[(_ & Hm & _)|(_ & _ & _ & _ & ->)]]; [done| |].
    + apply move_some in Hm as (f & ch & _ & _ & _ & [[_ ->]|[_ ->]]);
        unfold isfile; by rewrite lookup_delete_eq.
    + unfold count_message in Herr. rewrite List.filter_app, length_app in Herr.
      simpl in Herr. lia.
Qed.

(** What a successful move does: the file has left the root for the
    category folder, under the unique name. *)
Lemma organize_file_moved entry fs fs' out :
  organize_file entry false fs = (fs', true, out) →
  ∃ f ch unique,
    fs !! entry = Some (NFile f) ∧ fs' !! entry = None ∧
    fs' !! Registry.get_category_for_file entry = Some (NDir ch) ∧
    ch !! unique = Some (File f) ∧
    Moved entry (Registry.get_category_for_file entry) unique ∈ out.
Proof.
  intros H. apply organize_file_inv in H
    as [(_ & _ & ? & _)|[(_ & _ & _ & ? & _)|(_ & _ & fs1 & out1 & Hprep & Hcase)]];
    [done..|].
  destruct Hcase as [(? & _)|[(_ & Hm & _ & ->)|(_ & _ & _ & ? & _)]]; [done| |done].
  destruct (move_fresh _ _ _ _ _ Hm (generate_unique_filename_fresh _ _ _))
    as (f & ch & Hsrc & Hl & Hd & Hfree & Hne & ->).
  exists f, (<[Namer.generate_unique_filename fs1 (Registry.get_category_for_file entry) entry
               := File f]> ch),
    (Namer.generate_unique_filename fs1 (Registry.get_category_for_file entry) entry).
  split; [|split; [apply lookup_delete_eq|split; [|split]]].
  - pose proof (prepared_no_new_files _ _ _ _ Hprep) as Hn. by apply Hn.
  - rewrite lookup_delete_ne by done. apply lookup_insert_eq.
  - apply lookup_insert_eq.
  - apply elem_of_app. right. by apply list_elem_of_singleton.
Qed.

End organize_file_facts.

(** ** The loop of [organize_directory] *)

Section organize_entries_facts.

Import Organizer.
Implicit Types fs : gmap string node.

Lemma organize_entries_cons entry rest dry_run fs n :
  organize_entries (entry :: rest) dry_run fs n =
  let '(fs1, ok, out) := organize_file entry dry_run fs in
  let '(fs2, m, out') :=
    organize_entries rest dry_run fs1 (if ok then S n else n) in
  (fs2, m, out ++ out').
Proof. reflexivity. Qed.

Lemma organize_entries_no_new_files entries dry_run fs n fs' m out :
  organize_entries entries dry_run fs n = (fs', m, out) → no_new_files fs fs'.
Proof.
  revert fs n fs' m out. induction entries as [|entry rest IH]; intros fs n fs' m out H.
  - injection H as <- _ _. apply no_new_files_refl.
  - rewrite organize_entries_cons in H.
    destruct (organize_file entry dry_run fs) as [[fs1 ok] out1] eqn:E1.
    destruct (organize_entries rest dry_run fs1 _) as [[fs2 m2] out2] eqn:E2.
    injection H as <- _ _.
    apply (no_new_files_trans _ fs1);
      [by apply organize_file_no_new_files in E1|by apply IH in E2].
Qed.


Lemma isfile_no_new fs fs' x : no_new_files fs fs' → isfile fs x = false → isfile fs' x = false.
Proof.
  intros Hn. unfold isfile. destruct (fs' !! x) as [[f|ch]|] eqn:E; [|done..].
  by rewrite (Hn _ _ E).
Qed.

(** After a pass without a move error, none of the listed names is a
    regular file of the root any more, the script apart. *)
Lemma organize_entries_clears entries fs n fs' m out x :
  organize_entries entries false fs n = (fs', m, out) →
  count_message is_error out = 0 → x ∈ entries → x ≠ script_name →
  isfile fs' x = false.
Proof.
  revert fs n fs' m out.
  induction entries as [|entry rest IH]; intros fs n fs' m out H Herr Hx Hs.
  - by apply elem_of_nil in Hx.
  - rewrite organize_entries_cons in H.
    destruct (organize_file entry false fs) as [[fs1 ok] out1] eqn:E1.
    destruct (organize_entries rest false fs1 _) as [[fs2 m2] out2] eqn:E2.
    injection H as <- _ <-.
    unfold count_message in Herr. rewrite List.filter_app, length_app in Herr.
    destruct (decide (x ∈ rest)) as [Hin|Hout].
    + apply (IH _ _ _ _ _ E2); [unfold count_message; lia|done..].
    + apply elem_of_cons in Hx as [->|?]; [|done].
      apply (isfile_no_new fs1); [by apply organize_entries_no_new_files in E2|].
      apply (organize_file_clears _ _ _ _ _ E1); [unfold count_message; lia|done].
Qed.

(** A pass over names that are all directories or the script changes
    nothing, counts nothing and moves nothing. *)
Lemma organize_entries_skips entries dry_run fs n :
  (∀ x, x ∈ entries → x = script_name ∨ isdir fs x = true) →
  ∃ out, organize_entries entries dry_run fs n = (fs, n, out) ∧
         count_message is_moved out = 0 ∧ count_message is_error out = 0.
Proof.
  induction entries as [|entry rest IH]; intros Hall.
  - by exists [].
  - destruct IH as (out & Hrest & Hm & He).
    { intros x Hx. apply Hall. by right. }
    rewrite organize_entries_cons. unfold organize_file, is_script_file.
    case_bool_decide as Hs.
    + rewrite Hrest. by eexists.
    + destruct (Hall entry) as [?|Hdir]; [by left|done|].
      rewrite Hdir, Hrest. by eexists.
Qed.


End organize_entries_facts.

(** C9, as the code has it. When the first full pass prints no move
    error, only directories and a file bearing the script's own name
    remain at the root, and a second pass over the directory moves
    nothing: it returns 0 and leaves the directory as it is. *)
Theorem organize_directory_idempotent
    (w w1 : world) (entries entries' : list string) (n1 : nat)
    (out1 : list Organizer.message) :
  listing_of w entries →
  Organizer.organize_directory w entries false = (w1, n1, out1) →
  count_message is_error out1 = 0 →
  listing_of w1 entries' →
  (∀ fs1 x, w1 = Present fs1 → isfile fs1 x = true → x = Organizer.script_name) ∧
  ∃ out2, Organizer.organize_directory w1 entries' false = (w1, 0, out2) ∧
          count_message is_moved out2 = 0.
Proof.
  intros Hl H Herr Hl'. destruct w as [|fs|fs]; simpl in H.
  - injection H as <- _ _. split; [done|]. by eexists.
  - injection H as <- _ _. split; [done|]. by eexists.
  - destruct (Organizer.organize_entries entries false fs 0) as [[fs1 m] out] eqn:E.
    injection H as <- _ <-. simpl in Hl, Hl'.
    unfold count_message in Herr. rewrite List.filter_app, length_app in Herr.
    assert (∀ x, isfile fs1 x = true → x = Organizer.script_name) as Hfiles.
    { intros x Hx. destruct (decide (x = Organizer.script_name)) as [|Hs]; [done|].
      assert (x ∈ entries) as Hin.
      { destruct Hl as [_ Hdom]. apply (elem_of_list_to_set (C := gset string)).
        rewrite Hdom. apply elem_of_dom. unfold isfile in Hx.
        destruct (fs1 !! x) as [[f|]|] eqn:Ex; [|done..].
        apply organize_entries_no_new_files in E. rewrite (E _ _ Ex). by eexists. }
      rewrite (organize_entries_clears _ _ _ _ _ _ x E) in Hx;
        [done|unfold count_message; lia|done..]. }
    split; [by intros ? x [= <-]; apply Hfiles|].
    destruct (organize_entries_skips entries' false fs1 0) as (out2 & E2 & Hm & _).
    { intros x Hx. destruct (decide (x = Organizer.script_name)) as [|Hs]; [by left|].
      right. destruct Hl' as [_ Hdom].
      apply (elem_of_list_to_set (C := gset string)) in Hx. rewrite Hdom in Hx.
      apply elem_of_dom in Hx as [nd Hnd]. specialize (Hfiles x).
      unfold isfile, isdir in *. rewrite Hnd in *. destruct nd; [|done].
      by specialize (Hfiles eq_refl). }
    simpl. rewrite E2. eexists. split; [done|].
    unfold count_message in *. rewrite List.filter_app, length_app, Hm. done.
Qed.

Lemma organize_directory_idempotent_witness :
  ∃ out2,
    Organizer.organize_directory
      (Present {[ "Documents" := NDir {[ "notes.txt" := File (plain_file "n") ]} ]})
      ["Documents"] false
    = (Present {[ "Documents" := NDir {[ "notes.txt" := File (plain_file "n") ]} ]},
       0, out2) ∧
    count_message is_moved out2 = 0.
Proof.
  apply (organize_directory_idempotent (Present fs_notes) _ ["notes.txt"] ["Documents"]
           1 [Organizer.Created_folder "Documents";
              Organizer.Moved "notes.txt" "Documents" "notes.txt";
              Organizer.Complete 1]).
  - apply (bool_decide_unpack _). vm_compute. exact I.
  - vm_compute. reflexivity.
  - vm_compute. reflexivity.
  - apply (bool_decide_unpack _). vm_compute. exact I.
Defined.

(** C9, as stated, fails: the move of [a.pdf] fails in the first pass,
    for [Documents] is then a regular file, and succeeds in the second,
    once that file has gone to [Others]. *)
Lemma organize_directory_second_pass_moves :
  is_listing fs_clash ["a.pdf"; "Documents"] ∧
  ∃ fs1 out1 fs2 out2,
    Organizer.organize_directory (Present fs_clash) ["a.pdf"; "Documents"] false
    = (Present fs1, 1, out1) ∧
    is_listing fs1 ["a.pdf"; "Others"] ∧
    Organizer.organize_directory (Present fs1) ["a.pdf"; "Others"] false
    = (Present fs2, 1, out2) ∧
    Organizer.Moved "a.pdf" "Documents" "a.pdf" ∈ out2.
Proof.
  split; [apply (bool_decide_unpack _); vm_compute; exact I|].
  eexists _, _, _, _. split; [vm_compute; reflexivity|].
  split; [apply (bool_decide_unpack _); vm_compute; exact I|].
  split; [vm_compute; reflexivity|].
  apply (bool_decide_unpack _). vm_compute. exact I.
Qed.

(** In a dry run every entry of the root stays as it is; what is new is
    an empty folder. *)
Lemma organize_entries_dry_run entries fs n fs' m out x :
  Organizer.organize_entries entries true fs n = (fs', m, out) →
  fs' !! x = fs !! x ∨ (fs !! x = None ∧ fs' !! x = Some (NDir ∅)).
Proof.
  revert fs n fs' m out. induction entries as [|entry rest IH]; intros fs n fs' m out H.
  - injection H as <- _ _. by left.
  - rewrite organize_entries_cons in H.
    destruct (Organizer.organize_file entry true fs) as [[fs1 ok] out1] eqn:E1.
    destruct (Organizer.organize_entries rest true fs1 _) as [[fs2 m2] out2] eqn:E2.
    injection H as <- _ _. apply IH in E2.
    assert (fs1 !! x = fs !! x ∨ (fs !! x = None ∧ fs1 !! x = Some (NDir ∅))) as Hstep.
    { apply organize_file_inv in E1
        as [(_ & -> & _)|[(_ & _ & -> & _)|(_ & _ & fs0 & out0 & Hprep & Hcase)]];
        [by left..|].
      destruct Hcase as [(_ & -> & _)|[(? & _)|(? & _)]]; [|done..].
      destruct Hprep as [(_ & -> & _)|(Hd & -> & _)]; [by left|].
      unfold makedirs. destruct (decide (x = Registry.get_category_for_file entry)) as [->|Hne].
      - right. by rewrite lookup_insert_eq.
      - left. by rewrite lookup_insert_ne. }
    destruct Hstep as [Hs|[Hs1 Hs2]], E2 as [He|[He1 He2]].
    + left. congruence.
    + right. split; congruence.
    + right. split; congruence.
    + congruence.
Qed.

(** C2, at a failing input: a dry run over a directory that holds one
    text file and no [Documents] folder creates that folder. The file
    itself is not moved. *)
Theorem dry_run_creates_folder :
  fs_notes !! "Documents" = None ∧
  Organizer.organize_directory (Present fs_notes) ["notes.txt"] true
  = (Present (<["Documents" := NDir ∅]> fs_notes), 1,
     [Organizer.Created_folder "Documents";
      Organizer.Would_move "notes.txt" "Documents" "notes.txt";
      Organizer.Complete 1]) ∧
  <["Documents" := NDir ∅]> fs_notes ≠ fs_notes.
Proof.
  split; [done|]. split; [vm_compute; reflexivity|].
  intros H. apply (f_equal (λ m : gmap string node, m !! "Documents")) in H.
  by rewrite lookup_insert_eq in H.
Qed.

(** C4, as the code has it. [organize_file] tests first whether the base
    name is the script's own name, and only then whether the path is a
    directory; either skip returns [False] and changes nothing, the first
    one printing a line. The web pass skips, and counts as skipped, a
    directory or a dot name first, and then the name of the protected
    folder; it changes nothing then. *)
Theorem skip_rules (entry : string) (fs : gmap string node) :
  (∀ dry_run, entry = Organizer.script_name →
     Organizer.organize_file entry dry_run fs
     = (fs, false, [Organizer.Skipping_script entry])) ∧
  (∀ dry_run, entry ≠ Organizer.script_name → isdir fs entry = true →
     Organizer.organize_file entry dry_run fs = (fs, false, [])) ∧
  (∀ r, isdir fs entry = true ∨ PyStr.startswith_dot entry = true ∨
        entry = App.PROTECTED_DIR →
     App.organize_one entry fs r
     = (fs, {| App.organized := App.organized r; App.errors := App.errors r;
               App.skipped := S (App.skipped r) |}, [])).
Proof.
  split; [|split].
  - intros dry_run ->. done.
  - intros dry_run Hs Hdir. unfold Organizer.organize_file, Organizer.is_script_file.
    rewrite bool_decide_eq_false_2 by done. by rewrite Hdir.
  - intros r H. unfold App.organize_one.
    destruct (isdir fs entry || PyStr.startswith_dot entry) eqn:E; [done|].
    apply orb_false_iff in E as [E1 E2].
    destruct H as [H|[H| ->]]; [congruence..|done].
Qed.

Lemma skip_rules_witness :
  Organizer.organize_file "Documents" false {[ "Documents" := NDir ∅ ]}
  = ({[ "Documents" := NDir ∅ ]}, false, []).
Proof.
  apply (proj1 (proj2 (skip_rules "Documents" {[ "Documents" := NDir ∅ ]})) false).
  - vm_compute. discriminate.
  - vm_compute. reflexivity.
Defined.

(** C4, as stated, fails twice: [organize_file] has no rule for the
    name of the protected folder, and moves a regular file of that name
    to [Others]; and on a directory that bears the script's name it is
    the script rule that fires, before the directory rule. *)
Lemma organize_file_no_protected_rule :
  (Organizer.organize_file App.PROTECTED_DIR false fs_protected_name).1.2 = true ∧
  (Organizer.organize_file App.PROTECTED_DIR false fs_protected_name).1.1
    !! App.PROTECTED_DIR = None ∧
  exists_in (Organizer.organize_file App.PROTECTED_DIR false fs_protected_name).1.1
    "Others" App.PROTECTED_DIR = true ∧
  isdir fs_script_dir Organizer.script_name = true ∧
  Organizer.organize_file Organizer.script_name false fs_script_dir
  = (fs_script_dir, false, [Organizer.Skipping_script Organizer.script_name]).
Proof. repeat split; vm_compute; reflexivity. Qed.

(** ** The web pass *)

Section app_facts.

Import Organizer App.
Implicit Types fs : gmap string node.

(** The three ways through one turn of the web loop. *)
Lemma organize_one_inv f fs r fs' r' out :
  organize_one f fs r = (fs', r', out) →
  let category := Registry.app_get_category_for_file f in
  let unique := Namer.generate_unique_filename fs category f in
  (app_skips fs f = true ∧ fs' = fs ∧ r' = add_skipped 1 r ∧ out = []) ∨
  (app_skips fs f = false ∧ move fs f category unique = Some fs' ∧
   r' = {| organized := S (organized r); errors := errors r; skipped := skipped r |} ∧
   out = []) ∨
  (app_skips fs f = false ∧ move fs f category unique = None ∧ fs' = fs ∧
   r' = {| organized := organized r; errors := S (errors r); skipped := skipped r |} ∧
   out = [Error_moving f]).
Proof.
  unfold organize_one, app_skips.
  destruct (isdir fs f || PyStr.startswith_dot f) eqn:E1.
  { intros [= <- <- <-]. by left. }
  case_bool_decide as E2.
  { intros [= <- <- <-]. by left. }
  rewrite destination_is_category. simpl.
  destruct (move fs f _ _) as [fs2|] eqn:Hm; intros [= <- <- <-].
  - right; left. done.
  - right; right. done.
Qed.

(** A turn changes the root at two names at most: the file it moves
    and the folder that receives it. *)
Lemma organize_one_frame f fs r fs' r' out x :
  organize_one f fs r = (fs', r', out) →
  x ≠ f → x ≠ Registry.app_get_category_for_file f → fs' !! x = fs !! x.
Proof.
  intros H Hf Hc. apply organize_one_inv in H
    as [(_ & -> & _)|[(_ & Hm & _)|(_ & _ & -> & _)]]; [done| |done].
  apply move_some in Hm as (g & ch & _ & _ & _ & [[_ ->]|[_ ->]]).
  - by rewrite lookup_delete_ne.
  - rewrite lookup_delete_ne by done. by rewrite lookup_insert_ne.
Qed.

Lemma organize_one_isdir f fs r fs' r' out x :
  organize_one f fs r = (fs', r', out) → x ≠ f → isdir fs' x = isdir fs x.
Proof.
  intros H Hf. apply organize_one_inv in H
    as [(_ & -> & _)|[(_ & Hm & _)|(_ & _ & -> & _)]]; [done| |done].
  apply move_some in Hm as (g & ch & _ & _ & Hd & [[_ ->]|[_ ->]]); unfold isdir.
  - by rewrite lookup_delete_ne.
  - rewrite lookup_delete_ne by done.
    destruct (decide (x = Registry.app_get_category_for_file f)) as [->|Hne].
    + by rewrite lookup_insert_eq, Hd.
    + by rewrite lookup_insert_ne.
Qed.

(** A directory of the root stays one, whatever the turn. *)
Lemma organize_one_isdir_mono f fs r fs' r' out x :
  organize_one f fs r = (fs', r', out) → isdir fs x = true → isdir fs' x = true.
Proof.
  intros H Hdir. destruct (decide (x = f)) as [->|Hne].
  - unfold organize_one in H. rewrite Hdir in H. simpl in H. by injection H as <- _ _.
  - by rewrite (organize_one_isdir _ _ _ _ _ _ _ H).
Qed.

Lemma organize_root_cons f rest fs r :
  organize_root (f :: rest) fs r =
  let '(fs1, r1, out) := organize_one f fs r in
  let '(fs2, r2, out') := organize_root rest fs1 r1 in
  (fs2, r2, out ++ out').
Proof. reflexivity. Qed.

(** The category of the web variant is never a dot name. *)
Lemma app_category_not_hidden f :
  PyStr.startswith_dot (Registry.app_get_category_for_file f) = false.
Proof.
  unfold Registry.app_get_category_for_file, Registry.category_in.
  destruct (Registry.APP_EXTENSION_TO_CATEGORY !! _) as [c|] eqn:E; [|done].
  assert (map_Forall (λ _ c, PyStr.startswith_dot c = false)
            Registry.APP_EXTENSION_TO_CATEGORY) as Hall.
  { apply (bool_decide_unpack _). vm_compute. exact I. }
  by apply (Hall _ _ E).
Qed.

(** A dot name is left alone by the whole loop. *)
Lemma organize_root_hidden entries fs r fs' r' out x :
  organize_root entries fs r = (fs', r', out) →
  PyStr.startswith_dot x = true → fs' !! x = fs !! x.
Proof.
  revert fs r fs' r' out. induction entries as [|f rest IH]; intros fs r fs' r' out H Hx.
  - by injection H as <- _ _.
  - rewrite organize_root_cons in H.
    destruct (organize_one f fs r) as [[fs1 r1] out1] eqn:E1.
    destruct (organize_root rest fs1 r1) as [[fs2 r2] out2] eqn:E2.
    injection H as <- _ _. rewrite (IH _ _ _ _ _ E2 Hx).
    destruct (decide (x = f)) as [->|Hne].
    + unfold organize_one in E1. rewrite Hx, orb_true_r in E1. by injection E1 as <- _ _.
    + apply (organize_one_frame _ _ _ _ _ _ _ E1 Hne).
      intros ->. by rewrite app_category_not_hidden in Hx.
Qed.

(** The count of skipped entries, told from the directory as the loop
    finds it. *)
Lemma organize_root_skipped entries fs0 fs r fs' r' out :
  NoDup entries → (∀ x, x ∈ entries → isdir fs x = isdir fs0 x) →
  organize_root entries fs r = (fs', r', out) →
  skipped r' = skipped r + length (List.filter (app_skips fs0) entries).
Proof.
  revert fs r fs' r' out.
  induction entries as [|f rest IH]; intros fs r fs' r' out Hnd Hdirs H.
  - injection H as _ <- _. simpl. lia.
  - rewrite organize_root_cons in H.
    destruct (organize_one f fs r) as [[fs1 r1] out1] eqn:E1.
    destruct (organize_root rest fs1 r1) as [[fs2 r2] out2] eqn:E2.
    injection H as _ <- _. apply NoDup_cons in Hnd as [Hf Hnd].
    assert (∀ x, x ∈ rest → isdir fs1 x = isdir fs0 x) as Hdirs1.
    { intros x Hx. rewrite (organize_one_isdir _ _ _ _ _ _ _ E1).
      - apply Hdirs. by right.
      - by intros ->. }
    rewrite (IH _ _ _ _ _ Hnd Hdirs1 E2).
    assert (app_skips fs f = app_skips fs0 f) as Hsk.
    { unfold app_skips. rewrite Hdirs; [done|by left]. }
    simpl. rewrite <- Hsk.
    apply organize_one_inv in E1
      as [(-> & _ & -> & _)|[(-> & _ & -> & _)|(-> & _ & _ & -> & _)]]; simpl; lia.
Qed.

(** Every entry is counted once, and the error count is the number of
    error lines. *)
Lemma organize_root_accounts entries fs r fs' r' out :
  organize_root entries fs r = (fs', r', out) →
  organized r' + errors r' + skipped r' =
    organized r + errors r + skipped r + length entries ∧
  errors r' = errors r + count_message is_error out.
Proof.
  revert fs r fs' r' out. induction entries as [|f rest IH]; intros fs r fs' r' out H.
  - injection H as _ <- <-. unfold count_message. simpl. lia.
  - rewrite organize_root_cons in H.
    destruct (organize_one f fs r) as [[fs1 r1] out1] eqn:E1.
    destruct (organize_root rest fs1 r1) as [[fs2 r2] out2] eqn:E2.
    injection H as _ <- <-. apply IH in E2 as [E2 E3]. rewrite E3.
    unfold count_message in *. rewrite List.filter_app, length_app.
    apply organize_one_inv in E1
      as [(_ & _ & -> & ->)|[(_ & _ & -> & ->)|(_ & _ & _ & -> & ->)]];
      simpl in *; lia.
Qed.

Lemma ensure_folder_lookup fs d x : x ≠ d → ensure_folder fs d !! x = fs !! x.
Proof.
  intros Hne. unfold ensure_folder, makedirs.
  destruct (negb (exists_ fs d)); [by rewrite lookup_insert_ne|done].
Qed.

Lemma ensure_folders_hidden fs x :
  PyStr.startswith_dot x = true → ensure_folders fs !! x = fs !! x.
Proof.
  intros Hx. unfold ensure_folders.
  rewrite ensure_folder_lookup by (by intros ->).
  assert (Forall (λ d, PyStr.startswith_dot d = false)
            Registry.APP_FILE_EXTENSION_MAP.*1) as Hnames.
  { apply (bool_decide_unpack _). vm_compute. exact I. }
  revert fs. induction Hnames as [|d ds Hd Hds IH]; intros fs; [done|].
  simpl. rewrite IH. apply ensure_folder_lookup. intros ->. congruence.
Qed.

(** The dot names are among the skipped entries. *)
Lemma hidden_among_skipped fs entries :
  length (List.filter PyStr.startswith_dot entries)
  ≤ length (List.filter (app_skips fs) entries).
Proof.
  induction entries as [|f rest IH]; [done|]. cbn [List.filter].
  unfold app_skips at 1. destruct (PyStr.startswith_dot f) eqn:Hf.
  - rewrite orb_true_r. cbn [orb length]. lia.
  - destruct (isdir fs f || false || bool_decide (f = PROTECTED_DIR));
      cbn [length]; lia.
Qed.

End app_facts.

(** C10. In the web pass a dot name is never moved: whatever the
    directory and the order of the listing, the entry of that name is
    after the pass what it was before. Every listed dot name is counted
    in [skipped], which is the number of listed directories, dot names
    and entries named as the protected folder. *)
Theorem hidden_entries_skipped
    (w w' : world) (entries : list string) (r : App.results)
    (out : list Organizer.message) :
  is_listing (App.ensure_folders (root_of w)) entries →
  App.organize_all_files w entries = (w', App.Returned r, out) →
  (∀ f, PyStr.startswith_dot f = true → root_of w' !! f = root_of w !! f) ∧
  App.skipped r
  = length (List.filter (app_skips (App.ensure_folders (root_of w))) entries) ∧
  length (List.filter PyStr.startswith_dot entries) ≤ App.skipped r.
Proof.
  intros [Hnd _] H.
  assert (∃ fs', w' = Present fs' ∧
    App.organize_root entries (App.ensure_folders (root_of w))
      {| App.organized := 0; App.errors := 0; App.skipped := 0 |} = (fs', r, out))
    as (fs' & -> & E).
  { unfold App.organize_all_files in H. destruct w as [|fs|fs]; simpl; [|done|].
    - destruct (App.organize_root _ _ _) as [[fs' r0] out0].
      injection H as <- <- <-. by eexists.
    - destruct (App.organize_root _ _ _) as [[fs' r0] out0].
      injection H as <- <- <-. by eexists. }
  assert (App.skipped r
    = length (List.filter (app_skips (App.ensure_folders (root_of w))) entries)) as Hsk.
  { by rewrite (organize_root_skipped _ _ _ _ _ _ _ Hnd (λ _ _, eq_refl) E). }
  split; [|split; [done|]].
  - intros f Hf. simpl. rewrite (organize_root_hidden _ _ _ _ _ _ _ E Hf).
    by apply ensure_folders_hidden.
  - rewrite Hsk. apply hidden_among_skipped.
Qed.

Lemma hidden_entries_skipped_witness :
  ∃ w' r,
    App.organize_all_files (Present fs_hidden)
      [".env"; "a.txt"; "Images"; "Documents"; "Audio"; "Videos"; "Archives";
       "Code"; "Others"] = (w', App.Returned r, []) ∧
    (∀ f, PyStr.startswith_dot f = true → root_of w' !! f = fs_hidden !! f) ∧
    App.skipped r = 8.
Proof.
  eexists _, _. split; [vm_compute; reflexivity|].
  refine (let H := hidden_entries_skipped (Present fs_hidden) _
                     [".env"; "a.txt"; "Images"; "Documents"; "Audio"; "Videos";
                      "Archives"; "Code"; "Others"] _ [] _ _ in
          conj (proj1 H) (proj1 (proj2 H))).
  - apply (bool_decide_unpack _). vm_compute. exact I.
  - vm_compute. reflexivity.
Defined.

(** ** The scenario of the specification *)

Section scenario_facts.

Import Organizer App.
Implicit Types fs : gmap string node.

(** Two listings of the same directory are permutations of each other. *)
Lemma is_listing_permutation fs (l k : list string) :
  is_listing fs l → is_listing fs k → l ≡ₚ k.
Proof.
  intros [Hl Hdl] [Hk Hdk]. apply NoDup_Permutation; [done..|].
  intros x. rewrite <- !(elem_of_list_to_set (C := gset string)). by rewrite Hdl, Hdk.
Qed.

Lemma is_listing_length fs (l : list string) : is_listing fs l → length l = size fs.
Proof.
  intros [Hl Hdl]. rewrite <- size_dom, <- Hdl. by rewrite size_list_to_set.
Qed.

Lemma organize_one_shift f fs r k :
  organize_one f fs (add_skipped k r) =
  let '(fs', r', out) := organize_one f fs r in (fs', add_skipped k r', out).
Proof.
  unfold organize_one, add_skipped.
  destruct (isdir fs f || PyStr.startswith_dot f); cbn [organized errors skipped].
  { by rewrite Nat.add_succ_r. }
  destruct (bool_decide (f = PROTECTED_DIR)); cbn [organized errors skipped].
  { by rewrite Nat.add_succ_r. }
  by destruct (move fs f _ _).
Qed.

(** The counter of skipped entries passes through the loop. *)
Lemma organize_root_shift entries fs r k :
  organize_root entries fs (add_skipped k r) =
  let '(fs', r', out) := organize_root entries fs r in (fs', add_skipped k r', out).
Proof.
  revert fs r. induction entries as [|f rest IH]; intros fs r; [done|].
  rewrite !organize_root_cons, organize_one_shift.
  destruct (organize_one f fs r) as [[fs1 r1] out1]. rewrite IH.
  by destruct (organize_root rest fs1 r1) as [[fs2 r2] out2].
Qed.

(** The directories of a listing only add to the count of skipped
    entries: the loop may as well run over the other names alone. *)
Lemma organize_root_skip_dirs (files entries : list string) fs r :
  (∀ x, x ∈ entries → x ∉ files → isdir fs x = true) →
  organize_root entries fs r =
  let '(fs', r', out) := organize_root (filter (.∈ files) entries) fs r in
  (fs', add_skipped (length entries - length (filter (.∈ files) entries)) r', out).
Proof.
  revert fs r. induction entries as [|f rest IH]; intros fs r Hdirs.
  - simpl. by destruct r.
  - destruct (decide (f ∈ files)) as [Hin|Hout].
    + rewrite filter_cons_True by done. rewrite !organize_root_cons.
      destruct (organize_one f fs r) as [[fs1 r1] out1] eqn:E1.
      rewrite IH.
      2:{ intros x Hx Hxf. apply (organize_one_isdir_mono _ _ _ _ _ _ _ E1).
          apply Hdirs; [by right|done]. }
      by destruct (organize_root (filter (.∈ files) rest) fs1 r1) as [[fs2 r2] out2].
    + rewrite filter_cons_False by done. rewrite organize_root_cons.
      assert (organize_one f fs r = (fs, add_skipped 1 r, [])) as ->.
      { unfold organize_one. rewrite Hdirs; [done|by left|done]. }
      rewrite organize_root_shift, IH.
      2:{ intros x Hx Hxf. apply Hdirs; [by right|done]. }
      destruct (organize_root (filter (.∈ files) rest) fs r) as [[fs2 r2] out2].
      pose proof (length_filter (.∈ files) rest) as Hlen.
      unfold add_skipped. cbn [organized errors skipped length app]. do 3 f_equal. lia.
Qed.

End scenario_facts.

(** C5, as the code has it. On the scenario directory, in whatever order
    the entries are listed, the command line pass returns 3 and the web
    pass returns [{organized: 3, errors: 0, skipped: 7}]: the relocated
    [report.pdf] counts as organized like the two other files, and the
    web pass counts as skipped the seven folders it has made sure of
    before it lists the root. After either pass [photo.jpg] is in
    [Images], [script.py] in [Code], and the new [report.pdf] in
    [Documents] under the name [report(1).pdf]. *)
Theorem scenario_pass (entries : list string) :
  (is_listing fs_scenario entries →
   (Organizer.organize_directory (Present fs_scenario) entries false).1
   = (Present fs_scenario_organized, 3)) ∧
  (is_listing (App.ensure_folders fs_scenario) entries →
   App.organize_all_files (Present fs_scenario) entries
   = (Present fs_scenario_organized_web,
      App.Returned {| App.organized := 3; App.errors := 0; App.skipped := 7 |}, [])).
Proof.
  split.
  - intros Hl.
    assert (is_listing fs_scenario ("Documents" :: scenario_files)) as Hbase.
    { apply (bool_decide_unpack _). vm_compute. exact I. }
    pose proof (is_listing_permutation _ _ _ Hbase Hl) as Hp.
    apply permutations_Permutation in Hp. revert entries Hp Hl.
    apply (Forall_forall (λ l, is_listing fs_scenario l →
             (Organizer.organize_directory (Present fs_scenario) l false).1
             = (Present fs_scenario_organized, 3))).
    apply (Forall_impl (λ l,
             (Organizer.organize_directory (Present fs_scenario) l false).1
             = (Present fs_scenario_organized, 3))); [|by intros].
    apply (bool_decide_unpack _). vm_compute. exact I.
  - intros Hl. unfold App.organize_all_files.
    set (fs0 := App.ensure_folders fs_scenario) in *.
    set (start := {| App.organized := 0; App.errors := 0; App.skipped := 0 |}).
    rewrite (organize_root_skip_dirs scenario_files).
    2:{ intros x Hx Hxf. destruct Hl as [_ Hdom].
        apply (elem_of_list_to_set (C := gset string)) in Hx. rewrite Hdom in Hx.
        apply elem_of_dom in Hx as [nd Hnd].
        assert (map_Forall (λ x _, x ∈ scenario_files ∨ isdir fs0 x = true) fs0) as Hall.
        { apply (bool_decide_unpack _). vm_compute. exact I. }
        by destruct (Hall _ _ Hnd) as [?|Hd]. }
    assert (filter (.∈ scenario_files) entries ∈ permutations scenario_files) as Hp.
    { apply permutations_Permutation. apply NoDup_Permutation.
      - apply (bool_decide_unpack _). vm_compute. exact I.
      - apply NoDup_filter, Hl.
      - intros x. rewrite list_elem_of_filter. split; [|tauto]. intros Hx.
        split; [done|]. destruct Hl as [_ Hdom].
        apply (elem_of_list_to_set (C := gset string)). rewrite Hdom.
        revert x Hx. apply (Forall_forall (λ x, x ∈ dom fs0)).
        apply (bool_decide_unpack _). vm_compute. exact I. }
    assert (length (filter (.∈ scenario_files) entries) = 3) as Hlen3.
    { apply permutations_Permutation in Hp. by rewrite <- Hp. }
    assert (length entries = 10) as Hlen10.
    { rewrite (is_listing_length _ _ Hl). vm_compute. reflexivity. }
    rewrite Hlen3, Hlen10.
    assert (Forall (λ l, App.organize_root l fs0 start
                         = (fs_scenario_organized_web,
                            {| App.organized := 3; App.errors := 0; App.skipped := 0 |}, []))
                   (permutations scenario_files)) as Hall.
    { apply (bool_decide_unpack _). vm_compute. exact I. }
    rewrite Forall_forall in Hall. by rewrite (Hall _ Hp).
Qed.

Lemma scenario_pass_witness :
  (Organizer.organize_directory (Present fs_scenario)
     ["photo.jpg"; "Documents"; "script.py"; "report.pdf"] false).1
  = (Present fs_scenario_organized, 3).
Proof.
  apply (proj1 (scenario_pass ["photo.jpg"; "Documents"; "script.py"; "report.pdf"])).
  apply (bool_decide_unpack _). vm_compute. exact I.
Defined.

(** C5, as stated, fails: the pass does not return
    [{organized: 2, errors: 0, skipped: 0}] on the scenario. *)
Lemma scenario_counts :
  is_listing (App.ensure_folders fs_scenario)
    ["report.pdf"; "photo.jpg"; "script.py"; "Documents"; "Images"; "Audio";
     "Videos"; "Archives"; "Code"; "Others"] ∧
  (App.organize_all_files (Present fs_scenario)
     ["report.pdf"; "photo.jpg"; "script.py"; "Documents"; "Images"; "Audio";
      "Videos"; "Archives"; "Code"; "Others"]).1.2
  = App.Returned {| App.organized := 3; App.errors := 0; App.skipped := 7 |} ∧
  (App.organize_all_files (Present fs_scenario)
     ["report.pdf"; "photo.jpg"; "script.py"; "Documents"; "Images"; "Audio";
      "Videos"; "Archives"; "Code"; "Others"]).1.2
  ≠ App.Returned {| App.organized := 2; App.errors := 0; App.skipped := 0 |} ∧
  is_listing fs_scenario ["report.pdf"; "photo.jpg"; "script.py"; "Documents"] ∧
  (Organizer.organize_directory (Present fs_scenario)
     ["report.pdf"; "photo.jpg"; "script.py"; "Documents"] false).1.2 = 3.
Proof.
  split; [apply (bool_decide_unpack _); vm_compute; exact I|].
  split; [vm_compute; reflexivity|].
  split; [vm_compute; discriminate|].
  split; [apply (bool_decide_unpack _); vm_compute; exact I|].
  vm_compute. reflexivity.
Qed.

(** ** Failures during a pass *)

Section failure_facts.

Import Organizer.
Implicit Types fs : gmap string node.

Lemma move_succeeds fs src d name f :
  fs !! src = Some (NFile f) → locked f = false → isdir fs d = true →
  is_Some (move fs src d name).
Proof.
  intros Hsrc Hl Hd. unfold move, isdir in *. rewrite Hsrc, Hl.
  destruct (fs !! d) as [[g|ch]|]; [done| |done].
  destruct (ch !! name) as [[g|]|]; by eexists.
Qed.



(** A folder of the root stays, and keeps its entries, through a call
    of [organize_file] on any entry. *)
Lemma organize_file_keeps_dir entry dry_run fs fs' ok out x ch :
  organize_file entry dry_run fs = (fs', ok, out) → fs !! x = Some (NDir ch) →
  ∃ ch', fs' !! x = Some (NDir ch') ∧ ch ⊆ ch'.
Proof.
  intros H Hx. destruct (decide (x = entry)) as [->|Hne].
  - assert (isdir fs entry = true) as Hdir by (unfold isdir; by rewrite Hx).
    pose proof (organize_file_dir entry dry_run fs Hdir) as Hfs.
    rewrite H in Hfs. simpl in Hfs. subst fs'. by exists ch.
  - pose proof (organize_file_keeps _ _ _ _ _ _ x H Hne) as Hk.
    unfold keeps in Hk. by rewrite Hx in Hk.
Qed.

Lemma organize_entries_keeps_dir entries dry_run fs n fs' m out x ch :
  organize_entries entries dry_run fs n = (fs', m, out) → fs !! x = Some (NDir ch) →
  ∃ ch', fs' !! x = Some (NDir ch') ∧ ch ⊆ ch'.
Proof.
  revert fs n fs' m out ch.
  induction entries as [|entry rest IH]; intros fs n fs' m out ch H Hx.
  - injection H as <- _ _. by exists ch.
  - rewrite organize_entries_cons in H.
    destruct (organize_file entry dry_run fs) as [[fs1 ok] out1] eqn:E1.
    destruct (organize_entries rest dry_run fs1 _) as [[fs2 m2] out2] eqn:E2.
    injection H as <- _ _.
    destruct (organize_file_keeps_dir _ _ _ _ _ _ _ _ E1 Hx) as (ch1 & Hx1 & Hsub1).
    destruct (IH _ _ _ _ _ _ E2 Hx1) as (ch2 & Hx2 & Hsub2).
    exists ch2. split; [done|]. by trans ch1.
Qed.





End failure_facts.




(** ** The polling loop *)

Section watch_facts.

Import Organizer Watch.
Implicit Types fs : gmap string node.
Implicit Types p : gset string.

Lemma poll_entries_cons entry rest fs p :
  poll_entries (entry :: rest) fs p =
  if isfile fs entry && negb (bool_decide (entry ∈ p))
  then
    let '(fs1, ok, out) := organize_file entry false fs in
    let '(fs2, p2, out') :=
      poll_entries rest fs1 (if ok then {[entry]} ∪ p else p) in
    (fs2, p2, New_file_detected entry :: out ++ out')
  else poll_entries rest fs p.
Proof. reflexivity. Qed.

(** The lines printed by [organize_file] itself: no detection line, and
    a move line only for its own entry, when it returns [True]. *)
Lemma organize_file_output entry dry_run fs fs' ok out :
  organize_file entry dry_run fs = (fs', ok, out) →
  (∀ x, New_file_detected x ∉ out) ∧
  (∀ x c u, Moved x c u ∈ out → x = entry ∧ ok = true).
Proof.
  intros H. apply organize_file_inv in H
    as [(_ & _ & _ & ->)|[(_ & _ & _ & _ & ->)|(_ & _ & fs1 & out1 & Hprep & Hcase)]].
  - split; [intros x|intros x c u]; rewrite list_elem_of_singleton;
      intros ?; simplify_eq.
  - split; [intros x|intros x c u]; rewrite elem_of_nil; intros [].
  - assert (∀ m, m ∈ out1 → m = Created_folder (Registry.get_category_for_file entry))
      as Hout1.
    { intros m. destruct Hprep as [(_ & _ & ->)|(_ & _ & ->)].
      - by rewrite elem_of_nil.
      - by rewrite list_elem_of_singleton. }
    destruct Hcase as [(_ & _ & -> & ->)|[(_ & _ & -> & ->)|(_ & _ & _ & -> & ->)]];
      (split; [intros x|intros x c u]; rewrite elem_of_app, list_elem_of_singleton;
       (intros [Hin|Heq];
        [apply Hout1 in Hin; discriminate
        |first [injection Heq as -> _ _; split; reflexivity|discriminate]])).
Qed.

Lemma elem_of_mark (ok : bool) (entry x : string) p :
  x ∈ (if ok then {[entry]} ∪ p else p) ↔ (ok = true ∧ x = entry) ∨ x ∈ p.
Proof.
  destruct ok.
  - rewrite elem_of_union, elem_of_singleton. intuition congruence.
  - intuition congruence.
Qed.

(** One pass: [processed_files] grows by the entries moved in the pass
    and by nothing else, and no entry that was in it is given to
    [organize_file]. *)
Lemma poll_entries_marks entries fs p fs' p' out :
  poll_entries entries fs p = (fs', p', out) →
  p ⊆ p' ∧
  (∀ x, x ∈ p' ↔ x ∈ p ∨ ∃ c u, Moved x c u ∈ out) ∧
  (∀ x, x ∈ p → New_file_detected x ∉ out).
Proof.
  revert fs p fs' p' out. induction entries as [|entry rest IH]; intros fs p fs' p' out H.
  - injection H as _ <- <-. split; [done|]. split.
    + intros x. split; [by left|]. intros [?|(c & u & Hin)]; [done|].
      by apply elem_of_nil in Hin.
    + intros x _. apply not_elem_of_nil.
  - rewrite poll_entries_cons in H.
    destruct (isfile fs entry && negb (bool_decide (entry ∈ p))) eqn:Hcall;
      [|by apply IH in H].
    apply andb_prop in Hcall as [_ Hnew]. apply negb_true_iff in Hnew.
    apply bool_decide_eq_false in Hnew.
    destruct (organize_file entry false fs) as [[fs1 ok] out1] eqn:E1.
    destruct (poll_entries rest fs1 _) as [[fs2 p2] out2] eqn:E2.
    injection H as <- <- <-. apply IH in E2 as (Hsub & Hiff & Hnot).
    destruct (organize_file_output _ _ _ _ _ _ E1) as [Hnodet Hmoved].
    assert (ok = true → ∃ c u, Moved entry c u ∈ out1) as Hok.
    { intros ->. destruct (organize_file_moved _ _ _ _ E1)
        as (f & ch & unique & _ & _ & _ & _ & Hm). eauto. }
    split; [|split].
    + etrans; [|exact Hsub]. intros x Hx. apply elem_of_mark. by right.
    + intros x. rewrite Hiff, elem_of_mark. split.
      * intros [[[-> ->]|Hx]|(c & u & Hin)].
        -- right. destruct (Hok eq_refl) as (c & u & Hin). exists c, u.
           right. apply elem_of_app. by left.
        -- by left.
        -- right. exists c, u. right. apply elem_of_app. by right.
      * intros [Hx|(c & u & Hin)].
        -- left. by right.
        -- apply elem_of_cons in Hin as [?|Hin]; [done|].
           apply elem_of_app in Hin as [Hin|Hin]; [|right; eauto].
           destruct (Hmoved _ _ _ Hin) as [-> ->]. left. by left.
    + intros x Hx Hin. apply elem_of_cons in Hin as [[= ->]|Hin]; [done|].
      apply elem_of_app in Hin as [Hin|Hin]; [by apply Hnodet in Hin|].
      apply (Hnot x); [apply elem_of_mark; by right|done].
Qed.



(** The whole session: the same three facts as for one pass. *)
Lemma poll_session_marks ticks fs p fs' p' out :
  poll_session ticks fs p = (fs', p', out) →
  p ⊆ p' ∧
  (∀ x, x ∈ p' ↔ x ∈ p ∨ ∃ c u, Moved x c u ∈ out) ∧
  (∀ x, x ∈ p → New_file_detected x ∉ out).
Proof.
  revert fs p fs' p' out.
  induction ticks as [|[env entries] later IH]; intros fs p fs' p' out H.
  - injection H as _ <- <-. split; [done|]. split.
    + intros x. split; [by left|]. intros [?|(c & u & Hin)]; [done|].
      by apply elem_of_nil in Hin.
    + intros x _. apply not_elem_of_nil.
  - simpl in H.
    destruct (poll_entries entries (env fs) p) as [[fs1 p1] out1] eqn:E1.
    destruct (poll_session later fs1 p1) as [[fs2 p2] out2] eqn:E2.
    injection H as <- <- <-.
    apply poll_entries_marks in E1 as (Hsub1 & Hiff1 & Hnot1).
    apply IH in E2 as (Hsub2 & Hiff2 & Hnot2).
    split; [by trans p1|]. split.
    + intros x. rewrite Hiff2, Hiff1. split.
      * intros [[Hx|(c & u & Hin)]|(c & u & Hin)]; [by left|right..];
          exists c, u; apply elem_of_app; [by left|by right].
      * intros [Hx|(c & u & Hin)]; [by left; left|].
        apply elem_of_app in Hin as [Hin|Hin]; [left; right|right]; eauto.
    + intros x Hx Hin. apply elem_of_app in Hin as [Hin|Hin].
      * by apply (Hnot1 x).
      * apply (Hnot2 x); [by apply Hsub1|done].
Qed.

End watch_facts.

(** The event handler, for comparison, marks the path whatever
    [organize_file] returns. *)
Lemma on_created_marks src (fs fs' : gmap string node) (p p' : gset string) out :
  Watch.on_created false src fs p = (fs', p', out) → src ∈ p'.
Proof.
  unfold Watch.on_created. case_bool_decide as Hin.
  - by intros [= _ <- _].
  - destruct (Organizer.organize_file src false fs) as [[fs1 ok] out1].
    intros [= _ <- _]. apply elem_of_union. left. by apply elem_of_singleton.
Qed.




(** ** The start of a watch session *)

Lemma mark_existing_spec entries (fs : gmap string node) (p : gset string) x :
  x ∈ Watch.mark_existing entries fs p ↔ x ∈ p ∨ (x ∈ entries ∧ isfile fs x = true).
Proof.
  revert p. induction entries as [|entry rest IH]; intros p; simpl.
  - split; [by left|]. intros [?|[Hin _]]; [done|]. by apply elem_of_nil in Hin.
  - rewrite IH, elem_of_cons. destruct (isfile fs entry) eqn:E.
    + rewrite elem_of_union, elem_of_singleton. split.
      * intros [[->|?]|[? ?]]; [right|left|right]; auto.
      * intros [?|[[->|?] ?]]; [left; by right|left; by left|right]; auto.
    + split.
      * intros [?|[? ?]]; [left|right]; auto.
      * intros [?|[[->|?] ?]]; [by left|congruence|right]; auto.
Qed.

(** C3, as the code has it. The event-driven session first runs one full
    pass over the watched directory and starts with an empty
    [processed_files], whatever remains at the root. The polling session
    starts with [processed_files] holding the regular files found at the
    root, and no other entry. *)
Theorem watch_start (w : world) (entries : list string) :
  (∀ w' n out,
     w ≠ Absent →
     Organizer.organize_directory w entries false = (w', n, out) →
     Watch.watch_directory true w entries = (w', Some ∅, out)) ∧
  (∀ fs, w = Present fs → is_listing fs entries →
     ∃ p, (Watch.watch_directory_loop_start w entries).2 = App.Returned p ∧
          ∀ x, x ∈ p ↔ isfile fs x = true).
Proof.
  split.
  - intros w' n out Hw H. unfold Watch.watch_directory. cbn [negb].
    destruct w as [|fs|fs]; [done|by rewrite H..].
  - intros fs -> [_ Hdom]. eexists. split; [done|]. intros x.
    rewrite mark_existing_spec. split.
    + by intros [?|[_ ?]].
    + intros Hx. right. split; [|done].
      apply (elem_of_list_to_set (C := gset string)). rewrite Hdom.
      apply elem_of_dom. unfold isfile in Hx. destruct (fs !! x); [by eexists|done].
Qed.

Lemma watch_start_witness :
  Watch.watch_directory true (Present fs_notes) ["notes.txt"]
  = (Present (<["Documents" := NDir {[ "notes.txt" := File (plain_file "n") ]}]> ∅),
     Some ∅,
     [Organizer.Created_folder "Documents";
      Organizer.Moved "notes.txt" "Documents" "notes.txt"; Organizer.Complete 1]).
Proof.
  apply (proj1 (watch_start (Present fs_notes) ["notes.txt"]) _ 1).
  - discriminate.
  - vm_compute. reflexivity.
Defined.

(** C3, as stated, fails in both modes. The polling session runs no
    pass before it seeds [processed_files]: the text file is still at the
    root, where a pass would have moved it. The event-driven session
    seeds nothing: [processed_files] is empty although an entry remains
    at the root. *)
Lemma watch_start_counterexample :
  Watch.watch_directory_loop_start (Present fs_notes) ["notes.txt"]
  = (Present fs_notes, App.Returned {["notes.txt"]}) ∧
  isfile fs_notes "notes.txt" = true ∧
  (Organizer.organize_directory (Present fs_notes) ["notes.txt"] false).1.1
  ≠ Present fs_notes ∧
  Watch.watch_directory true (Present fs_script_dir) [Organizer.script_name]
  = (Present fs_script_dir, Some ∅,
     [Organizer.Skipping_script Organizer.script_name; Organizer.Complete 0]) ∧
  exists_ fs_script_dir Organizer.script_name = true.
Proof.
  split; [vm_compute; reflexivity|]. split; [vm_compute; reflexivity|].
  split; [vm_compute; discriminate|]. split; vm_compute; reflexivity.
Qed.

(** * Further properties of the engine *)

(** ** A pass keeps every file *)

Section preservation.

Import Organizer.
Implicit Types fs : gmap string node.

(** A root file is, after a call, where it was or in its category
    folder, with the same content. *)
Lemma organize_file_preserves entry dry_run fs fs' ok out x f :
  organize_file entry dry_run fs = (fs', ok, out) → fs !! x = Some (NFile f) →
  fs' !! x = Some (NFile f) ∨
  ∃ ch unique, fs' !! Registry.get_category_for_file x = Some (NDir ch) ∧
               ch !! unique = Some (File f).
Proof.
  intros H Hx. destruct (decide (x = entry)) as [->|Hne].
  - pose proof H as Hinv. apply organize_file_inv in Hinv
      as [(_ & -> & _)|[(_ & _ & -> & _)|(_ & _ & fs1 & out1 & Hprep & Hcase)]];
      [by left..|].
    pose proof (prepared_keeps _ _ _ _ entry Hprep) as Hk.
    unfold keeps in Hk. rewrite Hx in Hk.
    destruct Hcase as [(_ & -> & _)|[(-> & _ & -> & _)|(_ & _ & -> & _)]];
      [by left| |by left].
    destruct (organize_file_moved _ _ _ _ H) as (f' & ch & unique & Hx' & _ & Hd & Hch & _).
    right. exists ch, unique. split; [done|]. congruence.
  - left. pose proof (organize_file_keeps _ _ _ _ _ _ x H Hne) as Hk.
    unfold keeps in Hk. by rewrite Hx in Hk.
Qed.

Lemma organize_entries_preserves entries dry_run fs n fs' m out x f :
  organize_entries entries dry_run fs n = (fs', m, out) → fs !! x = Some (NFile f) →
  fs' !! x = Some (NFile f) ∨
  ∃ ch unique, fs' !! Registry.get_category_for_file x = Some (NDir ch) ∧
               ch !! unique = Some (File f).
Proof.
  revert fs n fs' m out. induction entries as [|entry rest IH]; intros fs n fs' m out H Hx.
  - injection H as <- _ _. by left.
  - rewrite organize_entries_cons in H.
    destruct (organize_file entry dry_run fs) as [[fs1 ok] out1] eqn:E1.
    destruct (organize_entries rest dry_run fs1 _) as [[fs2 m2] out2] eqn:E2.
    injection H as <- _ _.
    destruct (organize_file_preserves _ _ _ _ _ _ _ _ E1 Hx)
      as [Hx1|(ch & unique & Hd & Hch)].
    + by apply (IH _ _ _ _ _ E2).
    + right. destruct (organize_entries_keeps_dir _ _ _ _ _ _ _ _ _ E2 Hd)
        as (ch' & Hd' & Hsub).
      exists ch', unique. split; [done|]. by apply (lookup_weaken _ _ _ _ Hch).
Qed.

End preservation.

(** X1. A pass of the command line engine, dry run or not, loses no
    file and overwrites none: a regular file of the root is afterwards
    still at the root or in the folder of its category, with the same
    content, and a folder of the root still has every entry it had. *)
Theorem organize_directory_keeps_files
    (w w' : world) (entries : list string) (dry_run : bool) (n : nat)
    (out : list Organizer.message) :
  Organizer.organize_directory w entries dry_run = (w', n, out) →
  (∀ x f, root_of w !! x = Some (NFile f) →
     root_of w' !! x = Some (NFile f) ∨
     ∃ ch unique,
       root_of w' !! Registry.get_category_for_file x = Some (NDir ch) ∧
       ch !! unique = Some (File f)) ∧
  (∀ d ch, root_of w !! d = Some (NDir ch) →
     ∃ ch', root_of w' !! d = Some (NDir ch') ∧ ch ⊆ ch').
Proof.
  intros H. destruct w as [|fs|fs]; simpl in H.
  - injection H as <- _ _. split; [by left|]. intros d ch Hd. by exists ch.
  - injection H as <- _ _. split; [by left|]. intros d ch Hd. by exists ch.
  - destruct (Organizer.organize_entries entries dry_run fs 0) as [[fs' m] out'] eqn:E.
    injection H as <- _ _. cbn [root_of]. split.
    + intros x f Hx. by apply (organize_entries_preserves _ _ _ _ _ _ _ _ _ E).
    + intros d ch Hd. by apply (organize_entries_keeps_dir _ _ _ _ _ _ _ _ _ E).
Qed.

Lemma organize_directory_keeps_files_witness :
  root_of (Present fs_scenario_organized) !! "photo.jpg" = Some (NFile (plain_file "photo")) ∨
  ∃ ch unique,
    root_of (Present fs_scenario_organized) !! Registry.get_category_for_file "photo.jpg"
    = Some (NDir ch) ∧
    ch !! unique = Some (File (plain_file "photo")).
Proof.
  assert (Organizer.organize_directory (Present fs_scenario)
            ["report.pdf"; "photo.jpg"; "script.py"; "Documents"] false
          = (Present fs_scenario_organized, 3,
             [Organizer.Moved "report.pdf" "Documents" "report(1).pdf";
              Organizer.Created_folder "Images";
              Organizer.Moved "photo.jpg" "Images" "photo.jpg";
              Organizer.Created_folder "Code";
              Organizer.Moved "script.py" "Code" "script.py";
              Organizer.Complete 3])) as H.
  { vm_compute. reflexivity. }
  refine (proj1 (organize_directory_keeps_files _ _ _ _ _ _ H) "photo.jpg" _ _).
  vm_compute. reflexivity.
Defined.

(** ** What a pass counts *)

Section accounting.

Import Organizer.
Implicit Types fs : gmap string node.

Lemma count_message_app P (out out' : list message) :
  count_message P (out ++ out') = count_message P out + count_message P out'.
Proof. unfold count_message. by rewrite List.filter_app, length_app. Qed.

(** One call: it counts, or reports an error, exactly when the entry is
    not skipped; in a dry run it reports no error. *)
Lemma organize_file_accounts entry dry_run fs fs' ok out :
  organize_file entry dry_run fs = (fs', ok, out) →
  (if ok then 1 else 0) + count_message is_error out
  = (if negb (is_script_file entry script_name) && negb (isdir fs entry) then 1 else 0) ∧
  (dry_run = true → count_message is_error out = 0).
Proof.
  intros H. apply organize_file_inv in H
    as [(-> & _ & -> & ->)|[(Hs & Hd & _ & -> & ->)|(Hs & Hd & fs1 & out1 & Hprep & Hcase)]].
  - done.
  - rewrite Hd. by rewrite andb_false_r.
  - unfold is_script_file. rewrite bool_decide_eq_false_2 by done. rewrite Hd.
    assert (count_message is_error out1 = 0) as Hpre.
    { by destruct Hprep as [(_ & _ & ->)|(_ & _ & ->)]. }
    destruct Hcase as [(-> & _ & -> & ->)|[(-> & _ & -> & ->)|(-> & _ & _ & -> & ->)]];
      rewrite count_message_app, Hpre; done.
Qed.

Lemma keeps_isdir fs0 fs e :
  is_Some (fs0 !! e) → keeps fs0 fs e → isdir fs e = negb (isfile fs0 e).
Proof.
  unfold keeps, isdir, isfile. intros [nd Hnd]. rewrite Hnd.
  destruct nd as [f|ch]; [by intros ->|by intros (ch' & -> & _)].
Qed.

(** The whole loop over a listing: every listed regular file that does
    not bear the script's name is counted or reported, once. *)
Lemma organize_entries_accounts entries dry_run fs0 fs n fs' m out :
  NoDup entries →
  (∀ e, e ∈ entries → is_Some (fs0 !! e) ∧ keeps fs0 fs e) →
  organize_entries entries dry_run fs n = (fs', m, out) →
  m + count_message is_error out = n + length (List.filter (organizable fs0) entries) ∧
  (dry_run = true → count_message is_error out = 0).
Proof.
  revert fs n fs' m out.
  induction entries as [|entry rest IH]; intros fs n fs' m out Hnd Hall H.
  - injection H as _ <- <-. unfold count_message. simpl. split; [lia|done].
  - rewrite organize_entries_cons in H.
    destruct (organize_file entry dry_run fs) as [[fs1 ok] out1] eqn:E1.
    destruct (organize_entries rest dry_run fs1 _) as [[fs2 m2] out2] eqn:E2.
    injection H as _ <- <-. apply NoDup_cons in Hnd as [Hfresh Hnd].
    destruct (organize_file_accounts _ _ _ _ _ _ E1) as [Hone Hdry1].
    destruct (Hall entry) as [Hin Hk]; [by left|].
    rewrite (keeps_isdir _ _ _ Hin Hk), negb_involutive in Hone.
    assert (∀ e, e ∈ rest → is_Some (fs0 !! e) ∧ keeps fs0 fs1 e) as Hall1.
    { intros e He. destruct (Hall e) as [? Hke]; [by right|]. split; [done|].
      apply (keeps_trans _ fs); [done|].
      apply (organize_file_keeps _ _ _ _ _ _ e E1). by intros ->. }
    destruct (IH _ _ _ _ _ Hnd Hall1 E2) as [Hrest Hdry2].
    rewrite !count_message_app. cbn [List.filter]. unfold organizable at 1.
    split.
    + destruct (negb (is_script_file entry script_name) && isfile fs0 entry);
        destruct ok; cbn [length] in *; lia.
    + intros Hd. rewrite (Hdry1 Hd), (Hdry2 Hd). done.
Qed.

End accounting.

(** X2. The number returned by a pass of the command line engine and
    the number of error lines it prints add up to the number of listed
    regular files that do not bear the script's name: each of them is
    moved or reported, once. A dry run prints no error and returns that
    number itself. *)
Theorem organize_directory_accounts
    (fs : gmap string node) (w' : world) (entries : list string) (dry_run : bool)
    (n : nat) (out : list Organizer.message) :
  is_listing fs entries →
  Organizer.organize_directory (Present fs) entries dry_run = (w', n, out) →
  n + count_message is_error out = length (List.filter (organizable fs) entries) ∧
  (dry_run = true → n = length (List.filter (organizable fs) entries)).
Proof.
  intros [Hnd Hdom] H. cbn [Organizer.organize_directory] in H.
  destruct (Organizer.organize_entries entries dry_run fs 0) as [[fs' m] out'] eqn:E.
  injection H as _ <- <-.
  destruct (organize_entries_accounts entries dry_run fs fs 0 fs' m out' Hnd) as [Hsum Hdry];
    [|done|].
  { intros e He. split; [|apply keeps_refl].
    apply elem_of_dom. rewrite <- Hdom. by apply elem_of_list_to_set. }
  rewrite count_message_app. change (count_message is_error [Organizer.Complete m]) with 0.
  split; [lia|]. intros Hd. specialize (Hdry Hd). lia.
Qed.

Lemma organize_directory_accounts_witness :
  1 + count_message is_error
        [Organizer.Created_folder "Documents"; Organizer.Error_moving "a.txt";
         Organizer.Moved "b.pdf" "Documents" "b.pdf"; Organizer.Complete 1]
  = length (List.filter (organizable fs_locked) ["a.txt"; "b.pdf"]).
Proof.
  assert (Organizer.organize_directory (Present fs_locked) ["a.txt"; "b.pdf"] false
          = (Present (<["Documents" := NDir {[ "b.pdf" := File (plain_file "b") ]}]>
                        (delete "b.pdf" fs_locked)), 1,
             [Organizer.Created_folder "Documents"; Organizer.Error_moving "a.txt";
              Organizer.Moved "b.pdf" "Documents" "b.pdf"; Organizer.Complete 1])) as H.
  { vm_compute. reflexivity. }
  refine (proj1 (organize_directory_accounts fs_locked _ _ false _ _ _ H)).
  apply (bool_decide_unpack _). vm_compute. exact I.
Defined.

(** X3. A dry run changes no entry of the watched directory and removes
    none: whatever is there after it and was not there before is an
    empty folder. *)
Theorem dry_run_only_adds_folders
    (w w' : world) (entries : list string) (n : nat) (out : list Organizer.message) :
  Organizer.organize_directory w entries true = (w', n, out) →
  ∀ x, root_of w' !! x = root_of w !! x ∨
       (root_of w !! x = None ∧ root_of w' !! x = Some (NDir ∅)).
Proof.
  intros H x. destruct w as [|fs|fs]; cbn [Organizer.organize_directory] in H.
  - injection H as <- _ _. by left.
  - injection H as <- _ _. by left.
  - destruct (Organizer.organize_entries entries true fs 0) as [[fs' m] out'] eqn:E.
    injection H as <- _ _. cbn [root_of].
    by apply (organize_entries_dry_run _ _ _ _ _ _ _ E).
Qed.

Lemma dry_run_only_adds_folders_witness :
  root_of (Present (<["Documents" := NDir ∅]> fs_notes)) !! "notes.txt"
  = root_of (Present fs_notes) !! "notes.txt" ∨
  (root_of (Present fs_notes) !! "notes.txt" = None ∧
   root_of (Present (<["Documents" := NDir ∅]> fs_notes)) !! "notes.txt"
   = Some (NDir ∅)).
Proof.
  assert (Organizer.organize_directory (Present fs_notes) ["notes.txt"] true
          = (Present (<["Documents" := NDir ∅]> fs_notes), 1,
             [Organizer.Created_folder "Documents";
              Organizer.Would_move "notes.txt" "Documents" "notes.txt";
              Organizer.Complete 1])) as H.
  { vm_compute. reflexivity. }
  exact (dry_run_only_adds_folders _ _ _ _ _ H "notes.txt").
Defined.

(** ** The two registries *)

(** The index of the web variant is the index of the command line
    engine without the extensions of [Executables]. *)
Lemma app_index_lookup ext :
  Registry.APP_EXTENSION_TO_CATEGORY !! ext
  = match Registry.EXTENSION_TO_CATEGORY !! ext with
    | Some category =>
        if bool_decide (category = "Executables") then None else Some category
    | None => None
    end.
Proof.
  assert (Registry.APP_EXTENSION_TO_CATEGORY
          = omap (λ category, if bool_decide (category = "Executables")
                              then None else Some category)
                 Registry.EXTENSION_TO_CATEGORY) as ->.
  { apply (bool_decide_unpack _). vm_compute. exact I. }
  rewrite lookup_omap. by destruct (Registry.EXTENSION_TO_CATEGORY !! ext).
Qed.

(** X4. The web variant classifies every file name as the command line
    engine does, except that what the engine calls [Executables] is
    [Others] for the web variant. *)
Theorem app_category_agrees (filename : string) :
  Registry.app_get_category_for_file filename
  = if bool_decide (Registry.get_category_for_file filename = "Executables")
    then "Others" else Registry.get_category_for_file filename.
Proof.
  unfold Registry.app_get_category_for_file, Registry.get_category_for_file,
    Registry.category_in.
  rewrite app_index_lookup.
  destruct (Registry.EXTENSION_TO_CATEGORY !! _) as [category|]; [|done].
  change (default "Others" (Some category)) with category.
  by destruct (bool_decide (category = "Executables")).
Qed.

(** ** The event-driven session *)

Section events.

Import Organizer Watch Events.
Implicit Types fs : gmap string node.
Implicit Types p : gset string.

Lemma count_detected_cons x m (out : list message) :
  count_message (is_detected x) (m :: out)
  = (if bool_decide (m = New_file_detected x) then 1 else 0)
    + count_message (is_detected x) out.
Proof.
  unfold count_message. cbn [List.filter]. unfold is_detected at 1.
  by destruct (bool_decide (m = New_file_detected x)).
Qed.

(** Lines that are not there count for nothing. *)
Lemma count_detected_zero x (out : list message) :
  New_file_detected x ∉ out → count_message (is_detected x) out = 0.
Proof.
  induction out as [|m out IH]; [done|]. intros Hnot.
  apply not_elem_of_cons in Hnot as [Hne Hnot]. rewrite count_detected_cons, IH by done.
  by rewrite bool_decide_eq_false_2.
Qed.

Lemma count_detected_pos x (out : list message) :
  New_file_detected x ∈ out → 0 < count_message (is_detected x) out.
Proof.
  induction out as [|m out IH]; [by intros ?%elem_of_nil|].
  rewrite count_detected_cons. intros [<-|Hin]%elem_of_cons.
  - rewrite bool_decide_eq_true_2 by done. lia.
  - specialize (IH Hin). lia.
Qed.

(** One creation event: nothing happens for a directory or a path
    already processed; otherwise the path is announced once and marked,
    whatever becomes of the move. *)
Lemma on_created_spec is_directory src fs p fs' p' out x :
  on_created is_directory src fs p = (fs', p', out) →
  (is_directory = true ∨ src ∈ p → fs' = fs ∧ p' = p ∧ out = []) ∧
  (is_directory = false → src ∉ p →
   p' = {[src]} ∪ p ∧
   count_message (is_detected x) out = if bool_decide (x = src) then 1 else 0).
Proof.
  unfold on_created. intros H. split.
  - intros [->|Hin]; [by injection H as <- <- <-|].
    destruct is_directory; [by injection H as <- <- <-|].
    rewrite bool_decide_eq_true_2 in H by done. by injection H as <- <- <-.
  - intros -> Hnot. rewrite bool_decide_eq_false_2 in H by done.
    destruct (organize_file src false fs) as [[fs1 ok] out1] eqn:E.
    injection H as <- <- <-. split; [done|].
    rewrite count_detected_cons.
    rewrite (count_detected_zero x out1)
      by apply (proj1 (organize_file_output _ _ _ _ _ _ E)).
    rewrite Nat.add_0_r. apply (f_equal (λ b : bool, if b then 1 else 0)).
    apply bool_decide_ext. split; [by intros [= ->]|by intros ->].
Qed.

Lemma created_files_cons env ev later :
  created_files ((env, ev) :: later)
  = match ev with
    | Created false src => src :: created_files later
    | _ => created_files later
    end.
Proof. unfold created_files. cbn [omap list_omap]. by destruct ev as [[] ?|?]. Qed.

Lemma dispatch_spec events fs p fs' p' out x :
  dispatch events fs p = (fs', p', out) →
  p' = list_to_set (created_files events) ∪ p ∧
  count_message (is_detected x) out
  = if bool_decide (x ∈ created_files events ∧ x ∉ p) then 1 else 0.
Proof.
  revert fs p fs' p' out.
  induction events as [|[env ev] later IH]; intros fs p fs' p' out H.
  - injection H as _ <- <-. change (created_files []) with (@nil string).
    split; [by rewrite list_to_set_nil, (left_id_L ∅ (∪))|].
    rewrite bool_decide_eq_false_2; [done|]. by intros [?%elem_of_nil _].
  - cbn [dispatch] in H. rewrite created_files_cons.
    destruct ev as [is_directory src|src].
    + destruct (on_created is_directory src (env fs) p) as [[fs1 p1] out1] eqn:E1.
      destruct (dispatch later fs1 p1) as [[fs2 p2] out2] eqn:E2.
      injection H as <- <- <-.
      destruct (IH _ _ _ _ _ E2) as [-> Hcount].
      destruct (on_created_spec _ _ _ _ _ _ _ x E1) as [Hskip Hcall].
      rewrite count_message_app, Hcount.
      destruct is_directory.
      { destruct Hskip as (_ & -> & ->); [by left|]. done. }
      destruct (decide (src ∈ p)) as [Hin|Hnot].
      { destruct Hskip as (_ & -> & ->); [by right|]. split.
        - rewrite list_to_set_cons. apply set_eq. intros y.
          rewrite !elem_of_union, elem_of_singleton.
          split; [tauto|]. intros [[->|?]|?]; tauto.
        - change (count_message (is_detected x) []) with 0. cbn [Nat.add].
          apply (f_equal (λ b : bool, if b then 1 else 0)), bool_decide_ext.
          rewrite elem_of_cons. split; [tauto|]. intros [[->|?] ?]; [done|tauto]. }
      destruct (Hcall eq_refl Hnot) as [-> ->]. split.
      * rewrite list_to_set_cons. apply set_eq. intros y.
        rewrite !elem_of_union, elem_of_singleton. tauto.
      * destruct (decide (x = src)) as [->|Hne].
        -- rewrite (bool_decide_eq_true_2 (src = src)) by done.
           rewrite (bool_decide_eq_false_2 (_ ∧ _)).
           2:{ intros [_ Hno]. apply Hno. apply elem_of_union. left.
               by apply elem_of_singleton. }
           rewrite bool_decide_eq_true_2; [done|]. split; [by left|done].
        -- rewrite (bool_decide_eq_false_2 (x = src)) by done.
           cbn [Nat.add]. apply (f_equal (λ b : bool, if b then 1 else 0)), bool_decide_ext.
           rewrite elem_of_cons, not_elem_of_union, not_elem_of_singleton. tauto.
    + unfold on_modified in H.
      destruct (dispatch later (env fs) p) as [[fs2 p2] out2] eqn:E2.
      injection H as <- <- <-. by apply (IH _ _ _ _ _ E2).
Qed.

End events.

(** X5. In the event-driven session every path of a creation event
    that is not about a directory ends in [processed_files], whatever
    became of its move, and it is given to [organize_file] exactly once
    in the session, however often it is created again, unless it was in
    [processed_files] from the start; creations of directories and
    modifications are given to nothing. *)
Theorem dispatch_at_most_once
    (events : list ((gmap string node → gmap string node) * Events.fs_event))
    (fs fs' : gmap string node) (p p' : gset string)
    (out : list Organizer.message) :
  Events.dispatch events fs p = (fs', p', out) →
  p' = list_to_set (Events.created_files events) ∪ p ∧
  ∀ x, count_message (is_detected x) out
       = if bool_decide (x ∈ Events.created_files events ∧ x ∉ p) then 1 else 0.
Proof.
  intros H. split; [by apply (dispatch_spec _ _ _ _ _ _ "" H)|].
  intros x. by apply (dispatch_spec _ _ _ _ _ _ x H).
Qed.

Lemma dispatch_at_most_once_witness :
  ({["a.txt"]} : gset string)
  = list_to_set (Events.created_files
                   [(create_locked, Events.Created false "a.txt");
                    (quiet, Events.Modified "a.txt");
                    (quiet, Events.Created false "a.txt")]) ∪ ∅.
Proof.
  assert (Events.dispatch
            [(create_locked, Events.Created false "a.txt");
             (quiet, Events.Modified "a.txt");
             (quiet, Events.Created false "a.txt")] ∅ ∅
          = (<["Documents" := NDir ∅]> (create_locked ∅), {["a.txt"]},
             [Organizer.New_file_detected "a.txt"; Organizer.Created_folder "Documents";
              Organizer.Error_moving "a.txt"])) as H.
  { vm_compute. reflexivity. }
  exact (proj1 (dispatch_at_most_once _ _ _ _ _ _ H)).
Defined.

(** ** The polling session, from its start *)

Section polling.

Import Organizer Watch.
Implicit Types fs : gmap string node.
Implicit Types p : gset string.

(** A move line of a pass comes after the detection line of the same
    entry. *)
Lemma poll_entries_moved_detected entries fs p fs' p' out x c u :
  poll_entries entries fs p = (fs', p', out) →
  Moved x c u ∈ out → New_file_detected x ∈ out.
Proof.
  revert fs p fs' p' out. induction entries as [|entry rest IH]; intros fs p fs' p' out H Hm.
  - injection H as _ _ <-. by apply elem_of_nil in Hm.
  - rewrite poll_entries_cons in H.
    destruct (isfile fs entry && negb (bool_decide (entry ∈ p)));
      [|by apply (IH _ _ _ _ _ H)].
    destruct (organize_file entry false fs) as [[fs1 ok] out1] eqn:E1.
    destruct (poll_entries rest fs1 _) as [[fs2 p2] out2] eqn:E2.
    injection H as <- <- <-. apply elem_of_cons in Hm as [?|Hm]; [done|].
    apply elem_of_app in Hm as [Hm|Hm].
    + destruct (proj2 (organize_file_output _ _ _ _ _ _ E1) _ _ _ Hm) as [-> _]. by left.
    + right. apply elem_of_app. right. by apply (IH _ _ _ _ _ E2).
Qed.

Lemma poll_session_moved_detected ticks fs p fs' p' out x c u :
  poll_session ticks fs p = (fs', p', out) →
  Moved x c u ∈ out → New_file_detected x ∈ out.
Proof.
  revert fs p fs' p' out.
  induction ticks as [|[env entries] later IH]; intros fs p fs' p' out H Hm.
  - injection H as _ _ <-. by apply elem_of_nil in Hm.
  - cbn [poll_session] in H.
    destruct (poll_entries entries (env fs) p) as [[fs1 p1] out1] eqn:E1.
    destruct (poll_session later fs1 p1) as [[fs2 p2] out2] eqn:E2.
    injection H as <- <- <-. apply elem_of_app. apply elem_of_app in Hm as [Hm|Hm].
    + left. by apply (poll_entries_moved_detected _ _ _ _ _ _ _ _ _ E1 Hm).
    + right. by apply (IH _ _ _ _ _ E2).
Qed.




End polling.

(** X6. The polling watcher leaves alone what it finds when it starts:
    a regular file that is at the root then is never given to
    [organize_file] and never moved by the session, whatever happens to
    the directory in between. *)
Theorem poll_leaves_existing_files
    (fs fs' : gmap string node) (w1 : world) (entries : list string)
    (ticks : list ((gmap string node → gmap string node) * list string))
    (p p' : gset string) (out : list Organizer.message) :
  is_listing fs entries →
  Watch.watch_directory_loop_start (Present fs) entries = (w1, App.Returned p) →
  Watch.poll_session ticks (root_of w1) p = (fs', p', out) →
  ∀ x, isfile fs x = true →
       (Organizer.New_file_detected x ∉ out) ∧ ∀ c u, Organizer.Moved x c u ∉ out.
Proof.
  intros [_ Hdom] Hstart H x Hx. injection Hstart as <- <-.
  assert (x ∈ Watch.mark_existing entries fs ∅) as Hseed.
  { apply mark_existing_spec. right. split; [|done].
    apply (elem_of_list_to_set (C := gset string)). rewrite Hdom.
    apply elem_of_dom. unfold isfile in Hx. destruct (fs !! x); [by eexists|done]. }
  destruct (poll_session_marks _ _ _ _ _ _ H) as (_ & _ & Hnot).
  split; [by apply Hnot|]. intros c u Hm.
  apply (Hnot x Hseed). by apply (poll_session_moved_detected _ _ _ _ _ _ _ _ _ H Hm).
Qed.

Lemma poll_leaves_existing_files_witness :
  (Organizer.New_file_detected "notes.txt" ∉ ([] : list Organizer.message)) ∧
  ∀ c u, Organizer.Moved "notes.txt" c u ∉ ([] : list Organizer.message).
Proof.
  assert (is_listing fs_notes ["notes.txt"]) as Hl.
  { apply (bool_decide_unpack _). vm_compute. exact I. }
  assert (Watch.watch_directory_loop_start (Present fs_notes) ["notes.txt"]
          = (Present fs_notes, App.Returned {["notes.txt"]})) as Hs.
  { vm_compute. reflexivity. }
  assert (Watch.poll_session [(quiet, ["notes.txt"])] (root_of (Present fs_notes))
            {["notes.txt"]} = (fs_notes, {["notes.txt"]}, [])) as H.
  { vm_compute. reflexivity. }
  refine (poll_leaves_existing_files _ _ _ _ _ _ _ _ Hl Hs H "notes.txt" _).
  vm_compute. reflexivity.
Defined.



(** ** The web pass keeps every file, and when it leaves none behind *)

Section app_preservation.

Import Organizer App.
Implicit Types fs : gmap string node.

Lemma organize_one_keeps f fs r fs' r' out x :
  organize_one f fs r = (fs', r', out) → x ≠ f → keeps fs fs' x.
Proof.
  intros H Hx. apply organize_one_inv in H
    as [(_ & -> & _)|[(_ & Hm & _)|(_ & _ & -> & _)]]; [apply keeps_refl| |apply keeps_refl].
  apply (move_keeps _ _ _ _ _ _ Hm); [apply generate_unique_filename_fresh|done].
Qed.

Lemma organize_one_no_new_files f fs r fs' r' out :
  organize_one f fs r = (fs', r', out) → no_new_files fs fs'.
Proof.
  intros H. apply organize_one_inv in H
    as [(_ & -> & _)|[(_ & Hm & _)|(_ & _ & -> & _)]];
    [apply no_new_files_refl| |apply no_new_files_refl].
  by apply (move_no_new_files _ _ _ _ _ Hm).
Qed.

Lemma organize_one_keeps_dir f fs r fs' r' out x ch :
  organize_one f fs r = (fs', r', out) → fs !! x = Some (NDir ch) →
  ∃ ch', fs' !! x = Some (NDir ch') ∧ ch ⊆ ch'.
Proof.
  intros H Hx. destruct (decide (x = f)) as [->|Hne].
  - unfold organize_one in H. unfold isdir in H at 1. rewrite Hx in H.
    cbn [orb] in H. injection H as <- _ _. by exists ch.
  - pose proof (organize_one_keeps _ _ _ _ _ _ x H Hne) as Hk.
    unfold keeps in Hk. by rewrite Hx in Hk.
Qed.

(** What a turn that moves does. *)
Lemma organize_one_moved f fs r fs' r' out :
  organize_one f fs r = (fs', r', out) → app_skips fs f = false → out = [] →
  ∃ g ch unique,
    fs !! f = Some (NFile g) ∧ fs' !! f = None ∧
    fs' !! Registry.app_get_category_for_file f = Some (NDir ch) ∧
    ch !! unique = Some (File g).
Proof.
  intros H Hskip Hout. apply organize_one_inv in H
    as [(? & _)|[(_ & Hm & _)|(_ & _ & _ & _ & ->)]]; [congruence| |done].
  destruct (move_fresh _ _ _ _ _ Hm (generate_unique_filename_fresh _ _ _))
    as (g & ch & Hsrc & Hl & Hd & Hfree & Hne & ->).
  exists g, (<[Namer.generate_unique_filename fs (Registry.app_get_category_for_file f) f
               := File g]> ch),
    (Namer.generate_unique_filename fs (Registry.app_get_category_for_file f) f).
  split; [done|]. split; [apply lookup_delete_eq|]. split.
  - rewrite lookup_delete_ne by done. apply lookup_insert_eq.
  - apply lookup_insert_eq.
Qed.

Lemma organize_one_preserves f fs r fs' r' out x g :
  organize_one f fs r = (fs', r', out) → fs !! x = Some (NFile g) →
  fs' !! x = Some (NFile g) ∨
  ∃ ch unique, fs' !! Registry.app_get_category_for_file x = Some (NDir ch) ∧
               ch !! unique = Some (File g).
Proof.
  intros H Hx. destruct (decide (x = f)) as [->|Hne].
  - pose proof H as Hinv. apply organize_one_inv in Hinv
      as [(_ & -> & _)|[(Hskip & _ & _ & ->)|(_ & _ & -> & _)]]; [by left| |by left].
    destruct (organize_one_moved _ _ _ _ _ _ H Hskip eq_refl)
      as (g' & ch & unique & Hx' & _ & Hd & Hch).
    right. exists ch, unique. split; [done|]. congruence.
  - left. pose proof (organize_one_keeps _ _ _ _ _ _ x H Hne) as Hk.
    unfold keeps in Hk. by rewrite Hx in Hk.
Qed.

Lemma organize_root_no_new_files entries fs r fs' r' out :
  organize_root entries fs r = (fs', r', out) → no_new_files fs fs'.
Proof.
  revert fs r fs' r' out. induction entries as [|f rest IH]; intros fs r fs' r' out H.
  - injection H as <- _ _. apply no_new_files_refl.
  - rewrite organize_root_cons in H.
    destruct (organize_one f fs r) as [[fs1 r1] out1] eqn:E1.
    destruct (organize_root rest fs1 r1) as [[fs2 r2] out2] eqn:E2.
    injection H as <- _ _.
    apply (no_new_files_trans _ fs1);
      [by apply organize_one_no_new_files in E1|by apply IH in E2].
Qed.

Lemma organize_root_keeps_dir entries fs r fs' r' out x ch :
  organize_root entries fs r = (fs', r', out) → fs !! x = Some (NDir ch) →
  ∃ ch', fs' !! x = Some (NDir ch') ∧ ch ⊆ ch'.
Proof.
  revert fs r fs' r' out ch.
  induction entries as [|f rest IH]; intros fs r fs' r' out ch H Hx.
  - injection H as <- _ _. by exists ch.
  - rewrite organize_root_cons in H.
    destruct (organize_one f fs r) as [[fs1 r1] out1] eqn:E1.
    destruct (organize_root rest fs1 r1) as [[fs2 r2] out2] eqn:E2.
    injection H as <- _ _.
    destruct (organize_one_keeps_dir _ _ _ _ _ _ _ _ E1 Hx) as (ch1 & Hx1 & Hsub1).
    destruct (IH _ _ _ _ _ _ E2 Hx1) as (ch2 & Hx2 & Hsub2).
    exists ch2. split; [done|]. by trans ch1.
Qed.

Lemma organize_root_preserves entries fs r fs' r' out x g :
  organize_root entries fs r = (fs', r', out) → fs !! x = Some (NFile g) →
  fs' !! x = Some (NFile g) ∨
  ∃ ch unique, fs' !! Registry.app_get_category_for_file x = Some (NDir ch) ∧
               ch !! unique = Some (File g).
Proof.
  revert fs r fs' r' out. induction entries as [|f rest IH]; intros fs r fs' r' out H Hx.
  - injection H as <- _ _. by left.
  - rewrite organize_root_cons in H.
    destruct (organize_one f fs r) as [[fs1 r1] out1] eqn:E1.
    destruct (organize_root rest fs1 r1) as [[fs2 r2] out2] eqn:E2.
    injection H as <- _ _.
    destruct (organize_one_preserves _ _ _ _ _ _ _ _ E1 Hx)
      as [Hx1|(ch & unique & Hd & Hch)].
    + by apply (IH _ _ _ _ _ E2).
    + right. destruct (organize_root_keeps_dir _ _ _ _ _ _ _ _ E2 Hd)
        as (ch' & Hd' & Hsub).
      exists ch', unique. split; [done|]. by apply (lookup_weaken _ _ _ _ Hch).
Qed.

(** Making sure of a folder changes nothing that exists. *)
Lemma ensure_folder_subseteq fs d : fs ⊆ ensure_folder fs d.
Proof.
  unfold ensure_folder. destruct (exists_ fs d) eqn:E; cbn [negb]; [done|].
  apply exists_false in E. by apply insert_subseteq.
Qed.

Lemma ensure_folders_subseteq fs : fs ⊆ ensure_folders fs.
Proof.
  unfold ensure_folders. etrans; [|apply ensure_folder_subseteq].
  generalize Registry.APP_FILE_EXTENSION_MAP.*1. intros names. revert fs.
  induction names as [|d ds IH]; intros fs; [done|].
  cbn [foldl]. etrans; [apply (ensure_folder_subseteq fs d)|apply IH].
Qed.

End app_preservation.

(** X8. The web pass loses no file and overwrites none: a regular file
    of the root is afterwards still at the root or in the folder of its
    category, with the same content, and a folder of the root still has
    every entry it had. *)
Theorem organize_all_files_keeps_files
    (w w' : world) (entries : list string) (r : App.results)
    (out : list Organizer.message) :
  App.organize_all_files w entries = (w', App.Returned r, out) →
  (∀ x f, root_of w !! x = Some (NFile f) →
     root_of w' !! x = Some (NFile f) ∨
     ∃ ch unique,
       root_of w' !! Registry.app_get_category_for_file x = Some (NDir ch) ∧
       ch !! unique = Some (File f)) ∧
  (∀ d ch, root_of w !! d = Some (NDir ch) →
     ∃ ch', root_of w' !! d = Some (NDir ch') ∧ ch ⊆ ch').
Proof.
  intros H.
  assert (∃ fs', w' = Present fs' ∧
    App.organize_root entries (App.ensure_folders (root_of w))
      {| App.organized := 0; App.errors := 0; App.skipped := 0 |} = (fs', r, out))
    as (fs' & -> & E).
  { unfold App.organize_all_files in H. destruct w as [|fs|fs]; cbn [root_of]; [|done|].
    - destruct (App.organize_root _ _ _) as [[fs' r0] out0].
      injection H as <- <- <-. by eexists.
    - destruct (App.organize_root _ _ _) as [[fs' r0] out0].
      injection H as <- <- <-. by eexists. }
  cbn [root_of]. split.
  - intros x f Hx. apply (organize_root_preserves _ _ _ _ _ _ _ _ E).
    by apply (lookup_weaken _ _ _ _ Hx), ensure_folders_subseteq.
  - intros d ch Hd. apply (organize_root_keeps_dir _ _ _ _ _ _ _ _ E).
    by apply (lookup_weaken _ _ _ _ Hd), ensure_folders_subseteq.
Qed.

Lemma organize_all_files_keeps_files_witness :
  root_of (Present fs_scenario_organized_web) !! "script.py"
  = Some (NFile (plain_file "script")) ∨
  ∃ ch unique,
    root_of (Present fs_scenario_organized_web)
      !! Registry.app_get_category_for_file "script.py" = Some (NDir ch) ∧
    ch !! unique = Some (File (plain_file "script")).
Proof.
  assert (App.organize_all_files (Present fs_scenario)
            ["report.pdf"; "photo.jpg"; "script.py"; "Documents"; "Images"; "Audio";
             "Videos"; "Archives"; "Code"; "Others"]
          = (Present fs_scenario_organized_web,
             App.Returned {| App.organized := 3; App.errors := 0; App.skipped := 7 |},
             [])) as H.
  { vm_compute. reflexivity. }
  refine (proj1 (organize_all_files_keeps_files _ _ _ _ _ H) "script.py" _ _).
  vm_compute. reflexivity.
Defined.

Section app_success.

Import Organizer App.
Implicit Types fs : gmap string node.

Lemma app_category_is_folder f :
  Registry.app_get_category_for_file f ∈ app_folder_names.
Proof.
  unfold Registry.app_get_category_for_file, Registry.category_in.
  destruct (Registry.APP_EXTENSION_TO_CATEGORY !! _) as [c|] eqn:E.
  - assert (map_Forall (λ _ c, c ∈ app_folder_names)
              Registry.APP_EXTENSION_TO_CATEGORY) as Hall.
    { apply (bool_decide_unpack _). vm_compute. exact I. }
    by apply (Hall _ _ E).
  - apply (bool_decide_unpack _). vm_compute. exact I.
Qed.

Lemma ensure_folder_isfile fs d x : isfile (ensure_folder fs d) x = isfile fs x.
Proof.
  unfold ensure_folder, makedirs, isfile. destruct (exists_ fs d) eqn:E; cbn [negb]; [done|].
  apply exists_false in E. destruct (decide (x = d)) as [->|Hne].
  - by rewrite lookup_insert_eq, E.
  - by rewrite lookup_insert_ne.
Qed.

Lemma ensure_folder_isdir fs d : isfile fs d = false → isdir (ensure_folder fs d) d = true.
Proof.
  unfold ensure_folder, makedirs, isfile, isdir, exists_.
  case_bool_decide as E; cbn [negb].
  - destruct E as [nd ->]. by destruct nd.
  - by rewrite lookup_insert_eq.
Qed.

Lemma subseteq_isdir fs fs' x : fs ⊆ fs' → isdir fs x = true → isdir fs' x = true.
Proof.
  unfold isdir. intros Hsub Hx. destruct (fs !! x) as [[g|ch]|] eqn:E; [done| |done].
  by rewrite (lookup_weaken _ _ _ _ E Hsub).
Qed.

Lemma foldl_ensure_subseteq names fs : fs ⊆ foldl ensure_folder fs names.
Proof.
  revert fs. induction names as [|d ds IH]; intros fs; [done|].
  cbn [foldl]. etrans; [apply (ensure_folder_subseteq fs d)|apply IH].
Qed.

Lemma foldl_ensure_isdir names fs c :
  c ∈ names → isfile fs c = false → isdir (foldl ensure_folder fs names) c = true.
Proof.
  revert fs. induction names as [|d ds IH]; intros fs Hin Hc.
  - by apply elem_of_nil in Hin.
  - cbn [foldl]. destruct (decide (c = d)) as [->|Hne].
    + apply (subseteq_isdir (ensure_folder fs d)); [apply foldl_ensure_subseteq|].
      by apply ensure_folder_isdir.
    + apply elem_of_cons in Hin as [?|Hin]; [done|].
      apply IH; [done|]. by rewrite ensure_folder_isfile.
Qed.

(** Every folder the pass needs is there, unless a regular file bears
    its name. *)
Lemma ensure_folders_isdir fs c :
  c ∈ app_folder_names → isfile fs c = false → isdir (ensure_folders fs) c = true.
Proof.
  intros Hin Hc. unfold ensure_folders.
  change (ensure_folder (foldl ensure_folder fs Registry.APP_FILE_EXTENSION_MAP.*1) "Others")
    with (foldl ensure_folder (foldl ensure_folder fs Registry.APP_FILE_EXTENSION_MAP.*1)
            ["Others"]).
  rewrite <- foldl_app. by apply foldl_ensure_isdir.
Qed.

Lemma ensure_folders_isfile fs x : isfile (ensure_folders fs) x = isfile fs x.
Proof.
  unfold ensure_folders. rewrite ensure_folder_isfile.
  generalize Registry.APP_FILE_EXTENSION_MAP.*1. intros names. revert fs.
  induction names as [|d ds IH]; intros fs; [done|].
  cbn [foldl]. by rewrite IH, ensure_folder_isfile.
Qed.

(** With every folder in place and no file that refuses to move, no
    move of the loop fails. *)
Lemma organize_root_no_errors entries fs r fs' r' out :
  NoDup entries →
  (∀ x, x ∈ entries → is_Some (fs !! x)) →
  (∀ c, c ∈ app_folder_names → isdir fs c = true) →
  (∀ x g, fs !! x = Some (NFile g) → locked g = false) →
  organize_root entries fs r = (fs', r', out) →
  count_message is_error out = 0.
Proof.
  revert fs r fs' r' out.
  induction entries as [|f rest IH]; intros fs r fs' r' out Hnd Hin Hdirs Hfree H.
  - by injection H as _ _ <-.
  - rewrite organize_root_cons in H.
    destruct (organize_one f fs r) as [[fs1 r1] out1] eqn:E1.
    destruct (organize_root rest fs1 r1) as [[fs2 r2] out2] eqn:E2.
    injection H as _ _ <-. apply NoDup_cons in Hnd as [Hfresh Hnd].
    rewrite count_message_app.
    assert (count_message is_error out2 = 0) as ->.
    { apply (IH _ _ _ _ _ Hnd) with (4 := E2).
      - intros x Hx. destruct (Hin x) as [nd Hnd']; [by right|].
        pose proof (organize_one_keeps _ _ _ _ _ _ x E1) as Hk.
        unfold keeps in Hk. rewrite Hnd' in Hk.
        destruct nd as [g|ch]; [rewrite Hk; [by eexists|by intros ->]|].
        destruct Hk as (ch' & -> & _); [by intros ->|by eexists].
      - intros c Hc. apply (organize_one_isdir_mono _ _ _ _ _ _ _ E1). by apply Hdirs.
      - intros x g Hx. apply (Hfree x g).
        by apply (organize_one_no_new_files _ _ _ _ _ _ E1). }
    rewrite Nat.add_0_r. apply organize_one_inv in E1
      as [(_ & _ & _ & ->)|[(_ & _ & _ & ->)|(Hskip & Hm & _)]]; [done..|].
    exfalso. unfold app_skips in Hskip.
    apply orb_false_iff in Hskip as [Hskip _]. apply orb_false_iff in Hskip as [Hdir _].
    destruct (Hin f) as [nd Hf]; [by left|].
    destruct nd as [g|ch]; [|unfold isdir in Hdir; by rewrite Hf in Hdir].
    destruct (move_succeeds fs f (Registry.app_get_category_for_file f)
                (Namer.generate_unique_filename fs
                   (Registry.app_get_category_for_file f) f) g Hf (Hfree _ _ Hf))
      as [fs2' Hfs2]; [apply Hdirs, app_category_is_folder|congruence].
Qed.

(** After a loop without a failed move, a listed name that is neither a
    dot name nor the name of the protected folder is no regular file of
    the root any more. *)
Lemma organize_root_clears entries fs r fs' r' out x :
  organize_root entries fs r = (fs', r', out) →
  count_message is_error out = 0 → x ∈ entries →
  PyStr.startswith_dot x = false → x ≠ PROTECTED_DIR →
  isfile fs' x = false.
Proof.
  revert fs r fs' r' out.
  induction entries as [|f rest IH]; intros fs r fs' r' out H Herr Hx Hdot Hprot.
  - by apply elem_of_nil in Hx.
  - rewrite organize_root_cons in H.
    destruct (organize_one f fs r) as [[fs1 r1] out1] eqn:E1.
    destruct (organize_root rest fs1 r1) as [[fs2 r2] out2] eqn:E2.
    injection H as <- _ <-. rewrite count_message_app in Herr.
    destruct (decide (x ∈ rest)) as [Hin|Hout].
    + apply (IH _ _ _ _ _ E2); [lia|done..].
    + apply elem_of_cons in Hx as [->|?]; [|done].
      apply (isfile_no_new fs1); [by apply organize_root_no_new_files in E2|].
      pose proof E1 as Hinv. apply organize_one_inv in Hinv
        as [(Hskip & -> & _)|[(Hskip & _ & _ & ->)|(_ & _ & _ & _ & ->)]].
      * unfold app_skips in Hskip. rewrite Hdot, orb_false_r in Hskip.
        rewrite bool_decide_eq_false_2, orb_false_r in Hskip by done.
        unfold isdir in Hskip. unfold isfile. by destruct (fs !! f) as [[]|].
      * destruct (organize_one_moved _ _ _ _ _ _ E1 Hskip eq_refl)
          as (g & ch & unique & _ & Hgone & _).
        unfold isfile. by rewrite Hgone.
      * unfold count_message in Herr. cbn in Herr. lia.
Qed.

Lemma filter_negb_length {A} (P : A → bool) (l : list A) :
  length (List.filter P l) + length (List.filter (λ x, negb (P x)) l) = length l.
Proof.
  induction l as [|a l IH]; [done|]. cbn [List.filter].
  destruct (P a); cbn [negb length]; lia.
Qed.

(** The pass when nothing can fail: its loop, the folders and what is
    left at the root. *)
Lemma organize_all_files_clean w w' entries r out :
  is_listing (ensure_folders (root_of w)) entries →
  (∀ x g, root_of w !! x = Some (NFile g) → locked g = false ∧ x ∉ app_folder_names) →
  organize_all_files w entries = (w', Returned r, out) →
  ∃ fs', w' = Present fs' ∧
    organize_root entries (ensure_folders (root_of w))
      {| organized := 0; errors := 0; skipped := 0 |} = (fs', r, out) ∧
    count_message is_error out = 0 ∧
    (∀ c, c ∈ app_folder_names → isdir fs' c = true) ∧
    ∀ x, isfile fs' x = true → PyStr.startswith_dot x = true ∨ x = PROTECTED_DIR.
Proof.
  intros [Hnd Hdom] Hfiles H.
  assert (∃ fs', w' = Present fs' ∧
    organize_root entries (ensure_folders (root_of w))
      {| organized := 0; errors := 0; skipped := 0 |} = (fs', r, out))
    as (fs' & -> & E).
  { unfold organize_all_files in H. destruct w as [|fs|fs]; cbn [root_of]; [|done|].
    - destruct (organize_root _ _ _) as [[fs' r0] out0].
      injection H as <- <- <-. by eexists.
    - destruct (organize_root _ _ _) as [[fs' r0] out0].
      injection H as <- <- <-. by eexists. }
  set (fs0 := ensure_folders (root_of w)) in *.
  assert (∀ x, x ∈ entries ↔ is_Some (fs0 !! x)) as Hlist.
  { intros x. rewrite <- elem_of_dom, <- Hdom. by rewrite elem_of_list_to_set. }
  assert (∀ c, c ∈ app_folder_names → isdir fs0 c = true) as Hdirs.
  { intros c Hc. apply ensure_folders_isdir; [done|].
    unfold isfile. destruct (root_of w !! c) as [[g|ch]|] eqn:Ec; [|done..].
    by destruct (Hfiles _ _ Ec). }
  assert (count_message is_error out = 0) as Herr.
  { apply (organize_root_no_errors _ _ _ _ _ _ Hnd) with (4 := E).
    - intros x Hx. by apply Hlist.
    - done.
    - intros x g Hx. apply (Hfiles x g).
      pose proof (ensure_folders_isfile (root_of w) x) as Hf.
      fold fs0 in Hf. unfold isfile in Hf. rewrite Hx in Hf.
      pose proof (ensure_folders_subseteq (root_of w)) as Hsub.
      destruct (root_of w !! x) as [[g'|ch]|] eqn:Ex; [|done..].
      apply (lookup_weaken _ _ _ _ Ex) in Hsub. fold fs0 in Hsub. congruence. }
  exists fs'. split; [done|]. split; [done|]. split; [done|]. split.
  - intros c Hc. specialize (Hdirs c Hc). unfold isdir in Hdirs.
    destruct (fs0 !! c) as [[g|ch]|] eqn:Ec; [done| |done].
    destruct (organize_root_keeps_dir _ _ _ _ _ _ _ _ E Ec) as (ch' & Hc' & _).
    unfold isdir. by rewrite Hc'.
  - intros x Hx.
    destruct (PyStr.startswith_dot x) eqn:Hdot; [by left|]. right.
    destruct (decide (x = PROTECTED_DIR)) as [|Hprot]; [done|]. exfalso.
    assert (x ∈ entries) as Hin.
    { apply Hlist. unfold isfile in Hx.
      destruct (fs' !! x) as [[g|]|] eqn:Ex; [|done..].
      apply organize_root_no_new_files in E. rewrite (E _ _ Ex). by eexists. }
    by rewrite (organize_root_clears _ _ _ _ _ _ x E Herr Hin Hdot Hprot) in Hx.
Qed.

End app_success.

(** X9. When no regular file of the root refuses to move and none bears
    the name of a category folder or of [Others], the web pass fails on
    nothing: it returns no error, it has organized every listed entry
    that is not a directory, a dot name or named as the protected folder,
    and the regular files left at the root are dot names or bear the name
    of the protected folder. *)
Theorem organize_all_files_succeeds
    (w w' : world) (entries : list string) (r : App.results)
    (out : list Organizer.message) :
  is_listing (App.ensure_folders (root_of w)) entries →
  (∀ x g, root_of w !! x = Some (NFile g) → locked g = false ∧ x ∉ app_folder_names) →
  App.organize_all_files w entries = (w', App.Returned r, out) →
  App.errors r = 0 ∧
  App.organized r
  = length (List.filter (app_organizable (App.ensure_folders (root_of w))) entries) ∧
  ∀ x, isfile (root_of w') x = true →
       PyStr.startswith_dot x = true ∨ x = App.PROTECTED_DIR.
Proof.
  intros Hl Hfiles H.
  destruct (organize_all_files_clean _ _ _ _ _ Hl Hfiles H)
    as (fs' & -> & E & Herr & _ & Hleft).
  destruct Hl as [Hnd _].
  set (fs0 := App.ensure_folders (root_of w)) in *.
  destruct (organize_root_accounts _ _ _ _ _ _ E) as [Hsum Herrs].
  pose proof (organize_root_skipped _ fs0 _ _ _ _ _ Hnd (λ _ _, eq_refl) E) as Hskip.
  cbn [App.organized App.errors App.skipped] in *.
  split; [lia|]. split; [|exact Hleft].
  pose proof (filter_negb_length (app_skips fs0) entries) as Hlen.
  unfold app_organizable. lia.
Qed.

Lemma organize_all_files_succeeds_witness :
  App.errors {| App.organized := 1; App.errors := 0; App.skipped := 8 |} = 0.
Proof.
  assert (App.organize_all_files (Present fs_hidden)
            [".env"; "a.txt"; "Images"; "Documents"; "Audio"; "Videos"; "Archives";
             "Code"; "Others"]
          = (Present (delete "a.txt"
                        (<["Documents" := NDir {[ "a.txt" := File (plain_file "a") ]}]>
                           (App.ensure_folders fs_hidden))),
             App.Returned {| App.organized := 1; App.errors := 0; App.skipped := 8 |},
             [])) as H.
  { vm_compute. reflexivity. }
  refine (proj1 (organize_all_files_succeeds (Present fs_hidden) _ _ _ _ _ _ H)).
  - apply (bool_decide_unpack _). vm_compute. exact I.
  - intros x g Hx. cbn [root_of] in Hx. unfold fs_hidden in Hx.
    apply lookup_insert_Some in Hx as [[<- [= <-]]|[_ Hx]].
    { split; [reflexivity|]. apply (bool_decide_unpack _). vm_compute. exact I. }
    apply lookup_singleton_Some in Hx as [<- [= <-]].
    split; [reflexivity|]. apply (bool_decide_unpack _). vm_compute. exact I.
Defined.

(** ** A unique name keeps the category *)

Section unique_category.

Import PyStr.

Lemma str_app_assoc s t u : (s +:+ t) +:+ u = s +:+ t +:+ u.
Proof. induction s as [|c s IH]; [done|]. rewrite !str_app_cons. by rewrite IH. Qed.

Lemma str_app_empty_r s : s +:+ "" = s.
Proof. induction s as [|c s IH]; [done|]. rewrite str_app_cons. by rewrite IH. Qed.

Lemma has_dot_app s t : has_dot (s +:+ t) = has_dot s || has_dot t.
Proof.
  induction s as [|c s IH]; [done|]. rewrite str_app_cons. cbn [has_dot].
  rewrite IH. by rewrite orb_assoc.
Qed.

Lemma rfind_dot_absent s : rfind_dot s = None → has_dot s = false.
Proof.
  induction s as [|c s IH]; [done|]. cbn [rfind_dot has_dot].
  destruct (rfind_dot s); [done|]. destruct (is_dot c); [done|]. intros _. by apply IH.
Qed.

(** The index [rfind] returns is that of a dot, and no dot follows. *)
Lemma rfind_dot_split s i :
  rfind_dot s = Some i →
  ∃ pre r, s = pre +:+ String "." r ∧ String.length pre = i ∧ has_dot r = false.
Proof.
  revert i. induction s as [|c s IH]; intros i; [done|]. cbn [rfind_dot].
  destruct (rfind_dot s) as [j|] eqn:E.
  - intros [= <-]. destruct (IH j eq_refl) as (pre & r & -> & Hlen & Hr).
    exists (String c pre), r. rewrite str_app_cons. cbn [String.length]. by rewrite Hlen.
  - unfold is_dot. case_bool_decide as Hc; [|done]. intros [= <-]. subst c.
    exists "", s. split; [done|]. split; [done|]. by apply rfind_dot_absent.
Qed.

(** The digits of a number: no dot, no slash. *)
Lemma pretty_N_go_plain x s :
  has_slash s = false → has_dot s = false →
  has_slash (pretty_N_go x s) = false ∧ has_dot (pretty_N_go x s) = false.
Proof.
  revert s. induction (N.lt_wf_0 x) as [x _ IH]; intros s Hs Hd.
  assert (x = 0 ∨ 0 < x)%N as [->|?] by lia.
  - by rewrite pretty_N_go_0.
  - rewrite pretty_N_go_step by done. apply IH.
    + by apply N.div_lt.
    + cbn [has_slash]. rewrite Hs. unfold pretty_N_char. by repeat case_match.
    + cbn [has_dot]. rewrite Hd. unfold pretty_N_char. by repeat case_match.
Qed.

Lemma pretty_nat_plain (k : nat) :
  has_slash (pretty k) = false ∧ has_dot (pretty k) = false.
Proof.
  unfold pretty, pretty_nat, pretty, pretty_N. case_decide; [done|].
  by apply pretty_N_go_plain.
Qed.

Lemma candidate_tag name extension k :
  Namer.candidate name extension k = (name +:+ counter_tag k) +:+ extension.
Proof. unfold Namer.candidate, counter_tag. by rewrite !str_app_assoc. Qed.

Lemma counter_tag_plain k :
  has_slash (counter_tag k) = false ∧ has_dot (counter_tag k) = false ∧
  counter_tag k ≠ "" ∧ last_char (counter_tag k) = Some ")"%char.
Proof.
  destruct (pretty_nat_plain k) as [Hs Hd]. unfold counter_tag.
  rewrite !has_slash_app, !has_dot_app, Hs, Hd. repeat split; [done|].
  change ("(" +:+ pretty k +:+ ")") with (String "(" (pretty k +:+ ")")).
  cbn [last_char]. generalize (pretty k). intros s.
  assert (last_char (s +:+ ")") = Some ")"%char) as ->; [|done].
  induction s as [|c s IH]; [done|]. rewrite str_app_cons. cbn [last_char]. by rewrite IH.
Qed.

Lemma last_char_app s t : t ≠ "" → last_char (s +:+ t) = last_char t.
Proof.
  intros Ht. induction s as [|c s IH]; [done|]. rewrite str_app_cons. cbn [last_char].
  rewrite IH. destruct t as [|c' t]; [done|]. cbn [last_char].
  by destruct (last_char t).
Qed.

Lemma last_char_lower s : last_char (lower s) = lower_char <$> last_char s.
Proof.
  induction s as [|c s IH]; [done|]. cbn [lower last_char]. rewrite IH.
  by destruct (last_char s).
Qed.

(** A base name is either without suffix, and is then its own stem, or
    a non-empty stem followed by a suffix in the shape of an
    extension. *)
Lemma base_name_shape s :
  has_slash s = false → s ≠ "" → s ≠ "." →
  (suffix s = "" ∧ stem s = s) ∨
  (stem s ≠ "" ∧ has_slash (stem s) = false ∧ plain_ext (suffix s) = true ∧
   s = stem s +:+ suffix s).
Proof.
  intros Hs H1 H2. unfold suffix, stem. rewrite (path_name_plain s) by done.
  unfold inner_dot. destruct (rfind_dot s) as [i|] eqn:E; [|by left].
  destruct (rfind_dot_split s i E) as (pre & r & -> & Hlen & Hr).
  rewrite str_length_app. cbn [String.length].
  destruct ((0 <? i)%nat && (i <? String.length pre + S (String.length r) - 1)%nat) eqn:Hi;
    [|by left].
  right. apply andb_prop in Hi as [Hi1 Hi2].
  apply Nat.ltb_lt in Hi1, Hi2. subst i.
  rewrite str_take_app, str_drop_app. rewrite has_slash_app in Hs.
  apply orb_false_iff in Hs as [Hpre Hr']. cbn [has_slash] in Hr'.
  apply orb_false_iff in Hr' as [_ Hr'].
  split; [intros ->; cbn [String.length] in Hi1; lia|]. split; [done|]. split; [|done].
  cbn [plain_ext]. rewrite Hr, Hr'. unfold is_dot.
  rewrite bool_decide_eq_true_2 by done.
  rewrite bool_decide_eq_false_2; [done|]. intros ->. cbn [String.length] in Hi2. lia.
Qed.

(** The candidates for a base name fall in the same category as the
    name, for an index that knows neither the empty extension nor one
    that ends with a closing parenthesis. *)
Lemma candidate_category (idx : gmap string string) s k :
  idx !! "" = None →
  map_Forall (λ ext _, last_char ext ≠ Some ")"%char) idx →
  has_slash s = false → s ≠ "" → s ≠ "." →
  Registry.category_in idx (Namer.candidate (stem s) (suffix s) k)
  = Registry.category_in idx s.
Proof.
  intros Hempty Hkeys Hs H1 H2. unfold Registry.category_in.
  destruct (counter_tag_plain k) as (Hts & Htd & Htn & Htl).
  rewrite candidate_tag.
  destruct (base_name_shape s Hs H1 H2) as [[Hsuf Hstem]|(Hne & Hps & Hext & Heq)].
  - rewrite Hsuf, Hstem, str_app_empty_r. cbn [lower]. rewrite Hempty.
    destruct (idx !! lower (suffix (s +:+ counter_tag k))) as [c|] eqn:E; [|done].
    exfalso. apply (Hkeys _ _ E). rewrite last_char_lower.
    assert (path_name (s +:+ counter_tag k) = s +:+ counter_tag k) as Hpn.
    { apply path_name_plain.
      - by rewrite has_slash_app, Hs, Hts.
      - by destruct s.
      - intros Heq. apply (f_equal String.length) in Heq.
        rewrite str_length_app in Heq. cbn [String.length] in Heq.
        destruct s; [done|]. destruct (counter_tag k); [done|].
        cbn [String.length] in Heq. lia. }
    pose proof (stem_suffix (s +:+ counter_tag k)) as Hsplit. rewrite Hpn in Hsplit.
    destruct (decide (suffix (s +:+ counter_tag k) = "")) as [He|Hne].
    { rewrite He in E. cbn [lower] in E. congruence. }
    rewrite <- (last_char_app (stem (s +:+ counter_tag k))) by done.
    rewrite Hsplit, (last_char_app s) by done. by rewrite Htl.
  - rewrite suffix_app; [done| |by rewrite has_slash_app, Hps, Hts|done].
    by destruct (stem s).
Qed.

End unique_category.

(** X10. A unique name falls in the same category as the name it
    replaces, in the command line engine and in the web variant: a file
    renamed on a conflict stays in the folder of its category. *)
Theorem generate_unique_filename_keeps_category
    (fs : gmap string node) (destination_dir filename : string) :
  PyStr.has_slash filename = false → filename ≠ "" → filename ≠ "." →
  Registry.get_category_for_file
    (Namer.generate_unique_filename fs destination_dir filename)
  = Registry.get_category_for_file filename ∧
  Registry.app_get_category_for_file
    (Namer.generate_unique_filename fs destination_dir filename)
  = Registry.app_get_category_for_file filename.
Proof.
  intros Hs H1 H2.
  assert (Namer.generate_unique_filename fs destination_dir filename = filename ∨
          ∃ k, Namer.generate_unique_filename fs destination_dir filename
               = Namer.candidate (PyStr.stem filename) (PyStr.suffix filename) k)
    as [->|[k ->]]; [|done|].
  { unfold Namer.generate_unique_filename.
    destruct (negb (exists_in fs destination_dir filename)); [by left|].
    destruct (Namer.probe _ _ _ _ _) as [r|] eqn:E; [|by left].
    apply probe_some in E as (k & _ & -> & _). right. by exists k. }
  split.
  - apply candidate_category; [|  |done..].
    + apply (bool_decide_unpack _). vm_compute. exact I.
    + apply (bool_decide_unpack _). vm_compute. exact I.
  - apply candidate_category; [|  |done..].
    + apply (bool_decide_unpack _). vm_compute. exact I.
    + apply (bool_decide_unpack _). vm_compute. exact I.
Qed.

Lemma generate_unique_filename_keeps_category_witness :
  Registry.get_category_for_file
    (Namer.generate_unique_filename fs_scenario "Documents" "report.pdf")
  = Registry.get_category_for_file "report.pdf".
Proof.
  refine (proj1 (generate_unique_filename_keeps_category fs_scenario "Documents"
                   "report.pdf" _ _ _)).
  - reflexivity.
  - discriminate.
  - discriminate.
Defined.

(** ** The index of extensions, for any table *)

Section index.

Import PyStr Registry.

Lemma add_row_snoc idx category exts ext :
  add_row idx (category, exts ++ [ext])
  = <[lower ext := category]> (add_row idx (category, exts)).
Proof. unfold add_row. cbn [fst snd]. by rewrite foldl_app. Qed.

(** One row: its extensions, lower-cased, get its category; the other
    keys keep theirs. *)
Lemma add_row_lookup idx (row : string * list string) e :
  add_row idx row !! e
  = if bool_decide (e ∈ lower <$> row.2) then Some row.1 else idx !! e.
Proof.
  destruct row as [category exts]. cbn [fst snd].
  induction exts as [|ext exts IH] using rev_ind.
  - rewrite bool_decide_eq_false_2; [done|]. by intros ?%elem_of_nil.
  - rewrite add_row_snoc, fmap_app. destruct (decide (e = lower ext)) as [->|Hne].
    + rewrite lookup_insert_eq. rewrite bool_decide_eq_true_2; [done|].
      apply elem_of_app. right. by left.
    + rewrite lookup_insert_ne by done. rewrite IH.
      apply (f_equal (λ b : bool, if b then _ else _)), bool_decide_ext.
      rewrite elem_of_app. cbn [fmap list_fmap]. rewrite list_elem_of_singleton. tauto.
Qed.

End index.

(** X11. For any table, the index built at start-up maps an extension
    to the category of the last row that lists it, letter case apart,
    and has no entry for an extension no row lists. *)
Theorem build_index_lookup (table : list (string * list string)) (e : string) :
  Registry.build_index table !! e
  = fst <$> last (filter (λ row : string * list string, e ∈ PyStr.lower <$> row.2) table).
Proof.
  unfold Registry.build_index. induction table as [|row table IH] using rev_ind.
  - done.
  - rewrite foldl_app. cbn [foldl]. rewrite add_row_lookup, IH, filter_app.
    case_bool_decide as Hin.
    + rewrite filter_cons_True, filter_nil by done. by rewrite last_snoc.
    + rewrite filter_cons_False, filter_nil by done. by rewrite (right_id_L [] (++)).
Qed.

(** ** The protected folder *)

Section vault.

Import Vault.
Implicit Types fs : gmap string node.

(** The loop of the unique namer stops on any finite set of names. *)
Lemma probe_stops (X : gset string) present name extension :
  (∀ n, present n = true → n ∈ X) →
  is_Some (Namer.probe present name extension (S (size X)) 1).
Proof.
  intros Hin. destruct (Namer.probe _ _ _ _ _) as [r|] eqn:E; [by eexists|]. exfalso.
  pose proof (probe_none _ _ _ _ _ E) as Hall.
  set (cands := Namer.candidate name extension <$> seq 1 (S (size X))).
  assert (NoDup cands) as Hnd.
  { apply (NoDup_fmap_2 _ (Inj0 := candidate_inj name extension)). apply NoDup_seq. }
  assert (list_to_set cands ⊆ X) as Hsub.
  { intros x Hx. apply elem_of_list_to_set in Hx.
    apply list_elem_of_fmap in Hx as (j & -> & Hj). apply elem_of_seq in Hj.
    apply Hin, Hall. lia. }
  apply subseteq_size in Hsub. rewrite size_list_to_set in Hsub by done.
  unfold cands in Hsub. rewrite length_fmap, length_seq in Hsub. lia.
Qed.

(** The name found at the root is free there. *)
Lemma generate_unique_filename_root_fresh fs filename :
  fs !! generate_unique_filename_root fs filename = None.
Proof.
  apply exists_false. unfold generate_unique_filename_root.
  destruct (exists_ fs filename) eqn:E; [|done]. cbn [negb].
  destruct (probe_stops (dom fs) (exists_ fs) (PyStr.stem filename)
              (PyStr.suffix filename)) as [r Hr].
  { intros n Hn. apply elem_of_dom. by apply bool_decide_eq_true in Hn. }
  rewrite size_dom in Hr. rewrite Hr.
  by destruct (probe_some _ _ _ _ _ _ Hr) as (k & _ & _ & Hfree & _).
Qed.

(** Taking a regular file away leaves every other path as it is. *)
Lemma lookup_remove_path fs p f q :
  lookup_path fs p = Some (File f) → q ≠ p →
  lookup_path (remove_path fs p) q = lookup_path fs q.
Proof.
  intros Hp Hq. destruct p as [n|d n]; cbn [lookup_path remove_path] in *.
  - destruct (fs !! n) as [[g|ch]|] eqn:En; [|done..].
    destruct q as [m|d' m]; cbn [lookup_path].
    + rewrite lookup_delete_ne; [done|congruence].
    + destruct (decide (d' = n)) as [->|Hne].
      * by rewrite lookup_delete_eq, En.
      * by rewrite lookup_delete_ne.
  - destruct (fs !! d) as [[g|ch]|] eqn:Ed; [done| |done].
    destruct q as [m|d' m]; cbn [lookup_path].
    + destruct (decide (m = d)) as [->|Hne].
      * by rewrite lookup_insert_eq, Ed.
      * by rewrite lookup_insert_ne.
    + destruct (decide (d' = d)) as [->|Hne].
      * rewrite lookup_insert_eq, Ed. rewrite lookup_delete_ne; [done|congruence].
      * by rewrite lookup_insert_ne.
Qed.

Lemma lookup_remove_path_eq fs p f :
  lookup_path fs p = Some (File f) → lookup_path (remove_path fs p) p = None.
Proof.
  intros Hp. destruct p as [n|d n]; cbn [lookup_path remove_path] in *.
  - by rewrite lookup_delete_eq.
  - destruct (fs !! d) as [[g|ch]|] eqn:Ed; [done| |done].
    by rewrite lookup_insert_eq, lookup_delete_eq.
Qed.

(** A file put in a folder under a free name shows at that path and
    changes no other. *)
Lemma lookup_add_to_folder fs d ch name f q :
  fs !! d = Some (NDir ch) → ch !! name = None →
  lookup_path (<[d := NDir (<[name := File f]> ch)]> fs) q
  = if decide (q = In_folder d name) then Some (File f) else lookup_path fs q.
Proof.
  intros Hd Hfree. destruct q as [m|d' m]; cbn [lookup_path].
  - rewrite decide_False by done. destruct (decide (m = d)) as [->|Hne].
    + by rewrite lookup_insert_eq, Hd.
    + by rewrite lookup_insert_ne.
  - destruct (decide (d' = d)) as [->|Hne].
    + rewrite lookup_insert_eq, Hd. destruct (decide (m = name)) as [->|Hm].
      * by rewrite decide_True, lookup_insert_eq.
      * rewrite decide_False by congruence. by rewrite lookup_insert_ne.
    + rewrite decide_False by congruence. by rewrite lookup_insert_ne.
Qed.

(** A file put at the root under a free name, likewise. *)
Lemma lookup_add_to_root fs name f q :
  fs !! name = None →
  lookup_path (<[name := NFile f]> fs) q
  = if decide (q = At_root name) then Some (File f) else lookup_path fs q.
Proof.
  intros Hfree. destruct q as [m|d' m]; cbn [lookup_path].
  - destruct (decide (m = name)) as [->|Hne].
    + by rewrite decide_True, lookup_insert_eq.
    + rewrite decide_False by congruence. by rewrite lookup_insert_ne.
  - rewrite decide_False by done. destruct (decide (d' = name)) as [->|Hne].
    + by rewrite lookup_insert_eq, Hfree.
    + by rewrite lookup_insert_ne.
Qed.

(** Removing a file keeps the folders of the root, but for the entry
    removed. *)
Lemma remove_path_folder fs p f d ch :
  lookup_path fs p = Some (File f) → fs !! d = Some (NDir ch) →
  ∃ ch', remove_path fs p !! d = Some (NDir ch') ∧
         ∀ name, In_folder d name ≠ p → ch' !! name = ch !! name.
Proof.
  intros Hp Hd. destruct p as [n|d' n]; cbn [lookup_path remove_path] in *.
  - exists ch. split; [|done]. rewrite lookup_delete_ne; [done|].
    intros ->. by rewrite Hd in Hp.
  - destruct (fs !! d') as [[g|ch0]|] eqn:Ed; [done| |done].
    destruct (decide (d = d')) as [->|Hne].
    + exists (delete n ch0). rewrite lookup_insert_eq. split; [done|].
      intros name Hname. assert (ch = ch0) as -> by congruence.
      rewrite lookup_delete_ne; [done|congruence].
    + exists ch. by rewrite lookup_insert_ne.
Qed.

Lemma remove_path_root_none fs p name :
  fs !! name = None → remove_path fs p !! name = None.
Proof.
  intros Hn. destruct p as [n|d n]; cbn [remove_path].
  - destruct (decide (name = n)) as [->|Hne];
      [by rewrite lookup_delete_eq|by rewrite lookup_delete_ne].
  - destruct (fs !! d) as [[g|ch]|] eqn:Ed; [done| |done].
    rewrite lookup_insert_ne; [done|]. intros ->. congruence.
Qed.

Lemma lookup_path_makedirs fs d q e :
  fs !! d = None → lookup_path fs q = Some e → lookup_path (makedirs fs d) q = Some e.
Proof.
  intros Hd Hq. unfold makedirs. destruct q as [m|d' m]; cbn [lookup_path] in *.
  - rewrite lookup_insert_ne; [done|]. intros ->. by rewrite Hd in Hq.
  - rewrite lookup_insert_ne; [done|]. intros ->. by rewrite Hd in Hq.
Qed.

End vault.

(** ** Protecting and unprotecting *)

(** What a successful [protect_file] makes of the directory. *)
Lemma protect_file_shape (fs : gmap string node) (p : Vault.path) (f : file) :
  Vault.lookup_path fs p = Some (File f) → locked f = false →
  isfile fs App.PROTECTED_DIR = false →
  ∃ ch' unique,
    Vault.protect_file true (Some p) fs
    = Some (<[App.PROTECTED_DIR := NDir (<[unique := File f]> ch')]>
              (Vault.remove_path (App.ensure_folder fs App.PROTECTED_DIR) p),
            Redirect "dashboard", []) ∧
    Vault.remove_path (App.ensure_folder fs App.PROTECTED_DIR) p !! App.PROTECTED_DIR
    = Some (NDir ch') ∧
    ch' !! unique = None ∧
    exists_in fs App.PROTECTED_DIR unique = false ∧
    p ≠ Vault.In_folder App.PROTECTED_DIR unique ∧
    Vault.lookup_path (App.ensure_folder fs App.PROTECTED_DIR) p = Some (File f) ∧
    ∀ q e, Vault.lookup_path fs q = Some e →
           Vault.lookup_path (App.ensure_folder fs App.PROTECTED_DIR) q = Some e.
Proof.
  intros Hp Hl Hprot. unfold Vault.protect_file. cbn [negb]. rewrite Hp.
  change (if negb (exists_ fs App.PROTECTED_DIR)
          then makedirs fs App.PROTECTED_DIR else fs)
    with (App.ensure_folder fs App.PROTECTED_DIR).
  set (fs1 := App.ensure_folder fs App.PROTECTED_DIR).
  assert (∃ ch, fs1 !! App.PROTECTED_DIR = Some (NDir ch) ∧
                (∀ name, exists_in fs App.PROTECTED_DIR name = true → is_Some (ch !! name)) ∧
                ∀ q e, Vault.lookup_path fs q = Some e → Vault.lookup_path fs1 q = Some e)
    as (ch & Hd & Hch & Hmono).
  { unfold fs1, App.ensure_folder.
    destruct (exists_ fs App.PROTECTED_DIR) eqn:E; cbn [negb].
    - unfold exists_ in E. apply bool_decide_eq_true in E as [nd Hnd].
      unfold isfile in Hprot. rewrite Hnd in Hprot. destruct nd as [g|ch]; [done|].
      exists ch. split; [done|]. split; [|done].
      intros name. unfold exists_in. rewrite Hnd. by intros ?%bool_decide_eq_true.
    - apply exists_false in E. exists ∅. split; [apply lookup_insert_eq|]. split.
      + intros name. unfold exists_in. by rewrite E.
      + intros q e. by apply lookup_path_makedirs. }
  set (unique := Namer.generate_unique_filename fs1 App.PROTECTED_DIR (Vault.basename p)).
  assert (ch !! unique = None) as Hfree.
  { pose proof (generate_unique_filename_fresh fs1 App.PROTECTED_DIR (Vault.basename p))
      as Hfr.
    unfold exists_in in Hfr. rewrite Hd in Hfr. apply bool_decide_eq_false in Hfr.
    by apply eq_None_not_Some. }
  pose proof (Hmono _ _ Hp) as Hp1.
  assert (p ≠ Vault.In_folder App.PROTECTED_DIR unique) as Hne.
  { intros Heq. rewrite Heq in Hp1. cbn [Vault.lookup_path] in Hp1.
    rewrite Hd in Hp1. congruence. }
  destruct (remove_path_folder fs1 p f _ _ Hp1 Hd) as (ch' & Hd' & Hsame).
  assert (ch' !! unique = None) as Hfree'.
  { rewrite Hsame; [done|]. intros Heq. exact (Hne (eq_sym Heq)). }
  unfold Vault.move_file_into. rewrite Hp1, Hl, Hd', Hfree'.
  exists ch', unique. split; [done|]. split; [done|]. split; [done|].
  split; [|done].
  destruct (exists_in fs App.PROTECTED_DIR unique) eqn:E; [|done].
  apply Hch in E as [? E]. congruence.
Qed.

(** X12. Protecting a regular file that can be moved, when no regular
    file bears the name of the protected folder: the request succeeds,
    the file is afterwards in the protected folder, under a name that
    was free there and with the same content, it is no longer at its
    old path, and everything else that was in the watched directory is
    as before. *)
Theorem protect_file_moves
    (fs : gmap string node) (p : Vault.path) (f : file) :
  Vault.lookup_path fs p = Some (File f) → locked f = false →
  isfile fs App.PROTECTED_DIR = false →
  ∃ fs' unique,
    Vault.protect_file true (Some p) fs = Some (fs', Redirect "dashboard", []) ∧
    exists_in fs App.PROTECTED_DIR unique = false ∧
    Vault.lookup_path fs' (Vault.In_folder App.PROTECTED_DIR unique) = Some (File f) ∧
    Vault.lookup_path fs' p = None ∧
    ∀ q e, Vault.lookup_path fs q = Some e → q ≠ p →
           Vault.lookup_path fs' q = Some e.
Proof.
  intros Hp Hl Hprot.
  destruct (protect_file_shape fs p f Hp Hl Hprot)
    as (ch' & unique & Hrun & Hd' & Hfree' & Hnew & Hne & Hp1 & Hmono).
  eexists _, unique. split; [exact Hrun|]. split; [done|]. split; [|split].
  - rewrite (lookup_add_to_folder _ _ _ _ _ _ Hd' Hfree'). by rewrite decide_True.
  - rewrite (lookup_add_to_folder _ _ _ _ _ _ Hd' Hfree'). rewrite decide_False by done.
    by apply (lookup_remove_path_eq _ _ f).
  - intros q e Hq Hqp. rewrite (lookup_add_to_folder _ _ _ _ _ _ Hd' Hfree').
    destruct (decide (q = Vault.In_folder App.PROTECTED_DIR unique)) as [Heq|Hqu].
    + exfalso. apply Hmono in Hq.
      rewrite <- (lookup_remove_path _ p f q Hp1 Hqp) in Hq. rewrite Heq in Hq.
      cbn [Vault.lookup_path] in Hq. rewrite Hd' in Hq. congruence.
    + rewrite (lookup_remove_path _ _ f) by done. by apply Hmono.
Qed.

Lemma protect_file_moves_witness :
  ∃ fs' unique,
    Vault.protect_file true (Some (Vault.At_root "notes.txt")) fs_notes
    = Some (fs', Redirect "dashboard", []) ∧
    exists_in fs_notes App.PROTECTED_DIR unique = false ∧
    Vault.lookup_path fs' (Vault.In_folder App.PROTECTED_DIR unique)
    = Some (File (plain_file "n")) ∧
    Vault.lookup_path fs' (Vault.At_root "notes.txt") = None ∧
    ∀ q e, Vault.lookup_path fs_notes q = Some e → q ≠ Vault.At_root "notes.txt" →
           Vault.lookup_path fs' q = Some e.
Proof.
  apply (protect_file_moves fs_notes (Vault.At_root "notes.txt") (plain_file "n")).
  - vm_compute. reflexivity.
  - reflexivity.
  - vm_compute. reflexivity.
Defined.

(** X13. Unprotecting a regular file that can be moved puts it back at
    the root of the watched directory without overwriting anything: it
    lands under a name that was free at the root, which is its own base
    name when that was free, with the same content; it is no longer at
    its old path, and everything else is as before. *)
Theorem unprotect_file_restores
    (fs : gmap string node) (p : Vault.path) (f : file) :
  Vault.lookup_path fs p = Some (File f) → locked f = false →
  ∃ fs' name,
    Vault.unprotect_file true (Some p) fs = Some (fs', Redirect "dashboard", []) ∧
    fs !! name = None ∧
    (fs !! Vault.basename p = None → name = Vault.basename p) ∧
    fs' !! name = Some (NFile f) ∧
    Vault.lookup_path fs' p = None ∧
    ∀ q e, Vault.lookup_path fs q = Some e → q ≠ p →
           Vault.lookup_path fs' q = Some e.
Proof.
  intros Hp Hl. unfold Vault.unprotect_file. cbn [negb]. rewrite Hp.
  set (name := if exists_ fs (Vault.basename p)
               then Vault.generate_unique_filename_root fs (Vault.basename p)
               else Vault.basename p).
  assert (fs !! name = None) as Hfree.
  { unfold name. destruct (exists_ fs (Vault.basename p)) eqn:E.
    - apply generate_unique_filename_root_fresh.
    - by apply exists_false. }
  assert (p ≠ Vault.At_root name) as Hne.
  { intros Heq. rewrite Heq in Hp. cbn [Vault.lookup_path] in Hp.
    by rewrite Hfree in Hp. }
  pose proof (remove_path_root_none fs p name Hfree) as Hfree'.
  unfold Vault.move_file_to_root. rewrite Hp, Hl, Hfree'.
  eexists _, name. split; [done|]. split; [done|]. split; [|split; [|split]].
  - intros Hb. unfold name. apply exists_false in Hb. by rewrite Hb.
  - apply lookup_insert_eq.
  - rewrite (lookup_add_to_root _ _ _ _ Hfree'). rewrite decide_False by done.
    by apply (lookup_remove_path_eq _ _ f).
  - intros q e Hq Hqp. rewrite (lookup_add_to_root _ _ _ _ Hfree').
    destruct (decide (q = Vault.At_root name)) as [->|Hqn].
    + cbn [Vault.lookup_path] in Hq. by rewrite Hfree in Hq.
    + by rewrite (lookup_remove_path _ _ f).
Qed.

Lemma unprotect_file_restores_witness :
  ∃ fs' name,
    Vault.unprotect_file true (Some (Vault.In_folder "Documents" "report.pdf")) fs_scenario
    = Some (fs', Redirect "dashboard", []) ∧
    fs_scenario !! name = None ∧
    (fs_scenario !! Vault.basename (Vault.In_folder "Documents" "report.pdf") = None →
     name = Vault.basename (Vault.In_folder "Documents" "report.pdf")) ∧
    fs' !! name = Some (NFile (plain_file "old report")) ∧
    Vault.lookup_path fs' (Vault.In_folder "Documents" "report.pdf") = None ∧
    ∀ q e, Vault.lookup_path fs_scenario q = Some e →
           q ≠ Vault.In_folder "Documents" "report.pdf" →
           Vault.lookup_path fs' q = Some e.
Proof.
  apply (unprotect_file_restores fs_scenario (Vault.In_folder "Documents" "report.pdf")
           (plain_file "old report")).
  - vm_compute. reflexivity.
  - reflexivity.
Defined.

(** X14. Round trip. A regular file at the root of the watched
    directory that can be moved and whose name is free in the protected
    folder: protecting it and then unprotecting it where it went puts it
    back under its own name with its content, and the watched directory
    is as it was at the start, but for the protected folder, which now
    exists. *)
Theorem protect_unprotect_round_trip
    (fs : gmap string node) (x : string) (f : file) :
  fs !! x = Some (NFile f) → locked f = false →
  isfile fs App.PROTECTED_DIR = false →
  exists_in fs App.PROTECTED_DIR x = false →
  ∃ fs1,
    Vault.protect_file true (Some (Vault.At_root x)) fs
    = Some (fs1, Redirect "dashboard", []) ∧
    Vault.lookup_path fs1 (Vault.In_folder App.PROTECTED_DIR x) = Some (File f) ∧
    Vault.unprotect_file true (Some (Vault.In_folder App.PROTECTED_DIR x)) fs1
    = Some (App.ensure_folder fs App.PROTECTED_DIR, Redirect "dashboard", []).
Proof.
  intros Hx Hl Hprot Hnx.
  assert (x ≠ App.PROTECTED_DIR) as Hxp.
  { intros Heq. unfold isfile in Hprot. by rewrite <- Heq, Hx in Hprot. }
  unfold Vault.protect_file. cbn [negb Vault.lookup_path Vault.basename]. rewrite Hx.
  change (if negb (exists_ fs App.PROTECTED_DIR)
          then makedirs fs App.PROTECTED_DIR else fs)
    with (App.ensure_folder fs App.PROTECTED_DIR).
  set (fs1 := App.ensure_folder fs App.PROTECTED_DIR).
  assert (fs1 !! x = Some (NFile f)) as Hx1.
  { unfold fs1, App.ensure_folder. destruct (exists_ fs App.PROTECTED_DIR); cbn [negb];
      [done|]. unfold makedirs. by rewrite lookup_insert_ne. }
  assert (∃ ch, fs1 !! App.PROTECTED_DIR = Some (NDir ch) ∧ ch !! x = None)
    as (ch & Hd & Hfree).
  { unfold fs1, App.ensure_folder.
    destruct (exists_ fs App.PROTECTED_DIR) eqn:E; cbn [negb].
    - unfold exists_ in E. apply bool_decide_eq_true in E as [nd Hnd].
      unfold isfile in Hprot. unfold exists_in in Hnx. rewrite Hnd in Hprot, Hnx.
      destruct nd as [g|ch]; [done|]. exists ch. split; [done|].
      apply bool_decide_eq_false in Hnx. by apply eq_None_not_Some.
    - exists ∅. split; [apply lookup_insert_eq|done]. }
  assert (exists_in fs1 App.PROTECTED_DIR x = false) as Hnx1.
  { unfold exists_in. rewrite Hd. apply bool_decide_eq_false. rewrite Hfree.
    by intros [? ?]. }
  unfold Namer.generate_unique_filename. rewrite Hnx1. cbn [negb].
  unfold Vault.move_file_into. cbn [Vault.lookup_path Vault.remove_path].
  rewrite Hx1, Hl. rewrite lookup_delete_ne by done. rewrite Hd, Hfree.
  eexists. split; [done|].
  set (fs2 := <[App.PROTECTED_DIR := NDir (<[x := File f]> ch)]> (delete x fs1)).
  assert (fs2 !! App.PROTECTED_DIR = Some (NDir (<[x := File f]> ch))) as Hd2
    by apply lookup_insert_eq.
  assert (fs2 !! x = None) as Hx2.
  { unfold fs2. rewrite lookup_insert_ne by done. apply lookup_delete_eq. }
  split.
  { cbn [Vault.lookup_path]. rewrite Hd2. apply lookup_insert_eq. }
  unfold Vault.unprotect_file. cbn [negb Vault.lookup_path Vault.basename].
  rewrite Hd2, lookup_insert_eq.
  assert (exists_ fs2 x = false) as ->.
  { unfold exists_. apply bool_decide_eq_false. rewrite Hx2. by intros [? ?]. }
  unfold Vault.move_file_to_root. cbn [Vault.lookup_path Vault.remove_path].
  rewrite Hd2, lookup_insert_eq, Hl. rewrite lookup_insert_ne by done. rewrite Hx2.
  do 2 f_equal. f_equal. apply map_eq. intros k.
  destruct (decide (k = x)) as [->|Hkx].
  { by rewrite lookup_insert_eq. }
  rewrite lookup_insert_ne by done.
  destruct (decide (k = App.PROTECTED_DIR)) as [->|Hkp].
  { rewrite lookup_insert_eq, Hd. do 2 f_equal. apply map_eq. intros j.
    destruct (decide (j = x)) as [->|Hjx].
    - by rewrite lookup_delete_eq.
    - rewrite lookup_delete_ne by done. by rewrite lookup_insert_ne. }
  rewrite lookup_insert_ne by done. unfold fs2.
  rewrite lookup_insert_ne by done. by rewrite lookup_delete_ne.
Qed.

Lemma protect_unprotect_round_trip_witness :
  ∃ fs1,
    Vault.protect_file true (Some (Vault.At_root "notes.txt")) fs_notes
    = Some (fs1, Redirect "dashboard", []) ∧
    Vault.lookup_path fs1 (Vault.In_folder App.PROTECTED_DIR "notes.txt")
    = Some (File (plain_file "n")) ∧
    Vault.unprotect_file true (Some (Vault.In_folder App.PROTECTED_DIR "notes.txt")) fs1
    = Some (App.ensure_folder fs_notes App.PROTECTED_DIR, Redirect "dashboard", []).
Proof.
  apply (protect_unprotect_round_trip fs_notes "notes.txt" (plain_file "n")).
  - vm_compute. reflexivity.
  - reflexivity.
  - vm_compute. reflexivity.
  - vm_compute. reflexivity.
Defined.

(** ** The list of protected files *)

Lemma elem_of_protected_infos ch listing i :
  i ∈ Vault.protected_infos ch listing ↔
  Vault.info_name i ∈ listing ∧
  ∃ g, ch !! Vault.info_name i = Some (File g) ∧
       Vault.info_size i = String.length (data g) ∧
       Vault.info_path i = Vault.In_folder App.PROTECTED_DIR (Vault.info_name i).
Proof.
  induction listing as [|n rest IH]; cbn [Vault.protected_infos].
  { split; [by intros ?%elem_of_nil|by intros [?%elem_of_nil _]]. }
  assert (i ∈ Vault.protected_infos ch rest ∨
          (∃ g, ch !! n = Some (File g) ∧
                i = {| Vault.info_name := n; Vault.info_size := String.length (data g);
                       Vault.info_path := Vault.In_folder App.PROTECTED_DIR n |}) ↔
          Vault.info_name i ∈ n :: rest ∧
          ∃ g, ch !! Vault.info_name i = Some (File g) ∧
               Vault.info_size i = String.length (data g) ∧
               Vault.info_path i
               = Vault.In_folder App.PROTECTED_DIR (Vault.info_name i)) as Hiff.
  { rewrite IH, elem_of_cons. split.
    - intros [[Hin Hg]|(g & Hg & ->)]; [by split; [right|]|].
      split; [by left|]. by exists g.
    - intros [[Heq|Hin] (g & Hg & Hs & Hp)]; [|left; split; [done|by exists g]].
      right. exists g. rewrite <- Heq. split; [done|].
      destruct i as [nm sz pth]. cbn in *. by rewrite Hs, Hp. }
  rewrite <- Hiff. destruct (ch !! n) as [[g|]|] eqn:En.
  - rewrite elem_of_cons. split.
    + intros [->|Hin]; [right; by exists g|by left].
    + intros [Hin|(g' & Hg' & ->)]; [by right|left]. congruence.
  - split; [by left|]. by intros [?|(g & Hg & _)].
  - split; [by left|]. by intros [?|(g & Hg & _)].
Qed.

Lemma NoDup_protected_infos ch listing :
  NoDup listing → NoDup (Vault.protected_infos ch listing).
Proof.
  induction 1 as [|n rest Hn Hnd IH]; cbn [Vault.protected_infos]; [constructor|].
  destruct (ch !! n) as [[g|]|]; [|done..]. constructor; [|done].
  intros Hin. apply elem_of_protected_infos in Hin as [Hin _]. by apply Hn.
Qed.

(** X15. [get_protected_files] for a logged-in session, when no regular
    file bears the name of the protected folder: it returns, each once,
    the regular files of the protected folder with their sizes and their
    paths, and nothing else, whatever the order of the listing;
    subfolders of the protected folder are left out. *)
Theorem get_protected_files_lists
    (fs : gmap string node) (listing : list string) :
  isfile fs App.PROTECTED_DIR = false →
  lists_folder fs App.PROTECTED_DIR listing →
  ∃ files,
    Vault.get_protected_files true fs listing = Vault.Files files ∧
    NoDup files ∧
    ∀ i, i ∈ files ↔
         ∃ g, Vault.lookup_path fs (Vault.info_path i) = Some (File g) ∧
              Vault.info_path i = Vault.In_folder App.PROTECTED_DIR (Vault.info_name i) ∧
              Vault.info_size i = String.length (data g).
Proof.
  intros Hprot Hl. unfold Vault.get_protected_files. cbn [negb].
  unfold isfile in Hprot. unfold lists_folder in Hl.
  destruct (fs !! App.PROTECTED_DIR) as [[g0|ch]|] eqn:Ed; [done| |].
  - destruct (Hl ch eq_refl) as [Hnd Hdom]. eexists. split; [done|].
    split; [by apply NoDup_protected_infos|].
    intros i. rewrite elem_of_protected_infos. split.
    + intros (_ & g & Hg & Hs & Hp). exists g. rewrite Hp. cbn [Vault.lookup_path].
      by rewrite Ed.
    + intros (g & Hg & Hp & Hs). rewrite Hp in Hg. cbn [Vault.lookup_path] in Hg.
      rewrite Ed in Hg. split; [|by exists g].
      apply (elem_of_list_to_set (C := gset string)). rewrite Hdom.
      apply elem_of_dom. by eexists.
  - exists []. split; [done|]. split; [constructor|]. intros i. split.
    + by intros ?%elem_of_nil.
    + intros (g & Hg & Hp & _). rewrite Hp in Hg. cbn [Vault.lookup_path] in Hg.
      by rewrite Ed in Hg.
Qed.

Lemma get_protected_files_lists_witness :
  ∃ files,
    Vault.get_protected_files true
      {[ "protected_files" := NDir {[ "a.txt" := File (plain_file "abc");
                                      "old" := Subdir ]} ]}
      ["old"; "a.txt"]
    = Vault.Files files ∧
    NoDup files ∧
    ∀ i, i ∈ files ↔
         ∃ g, Vault.lookup_path
                {[ "protected_files" := NDir {[ "a.txt" := File (plain_file "abc");
                                                "old" := Subdir ]} ]}
                (Vault.info_path i) = Some (File g) ∧
              Vault.info_path i = Vault.In_folder App.PROTECTED_DIR (Vault.info_name i) ∧
              Vault.info_size i = String.length (data g).
Proof.
  apply (get_protected_files_lists
           {[ "protected_files" := NDir {[ "a.txt" := File (plain_file "abc");
                                           "old" := Subdir ]} ]}
           ["old"; "a.txt"]).
  - vm_compute. reflexivity.
  - intros ch Hch. vm_compute in Hch. injection Hch as <-. split.
    + apply (bool_decide_unpack _). vm_compute. exact I.
    + apply (bool_decide_unpack _). vm_compute. exact I.
Defined.

(** X16. Composition. After a file was protected, the list of
    protected files shows it, under the name it was given, with the size
    of its content. *)
Theorem protected_file_is_listed
    (fs : gmap string node) (p : Vault.path) (f : file) :
  Vault.lookup_path fs p = Some (File f) → locked f = false →
  isfile fs App.PROTECTED_DIR = false →
  ∃ fs' unique,
    Vault.protect_file true (Some p) fs = Some (fs', Redirect "dashboard", []) ∧
    ∀ listing, lists_folder fs' App.PROTECTED_DIR listing →
      ∃ files,
        Vault.get_protected_files true fs' listing = Vault.Files files ∧
        {| Vault.info_name := unique; Vault.info_size := String.length (data f);
           Vault.info_path := Vault.In_folder App.PROTECTED_DIR unique |} ∈ files.
Proof.
  intros Hp Hl Hprot.
  destruct (protect_file_shape fs p f Hp Hl Hprot)
    as (ch' & unique & Hrun & _ & _ & _ & _ & _ & _).
  eexists _, unique. split; [exact Hrun|]. intros listing Hlist.
  unfold Vault.get_protected_files. cbn [negb]. rewrite lookup_insert_eq.
  eexists. split; [done|]. apply elem_of_protected_infos. cbn.
  destruct (Hlist _ (lookup_insert_eq _ _ _)) as [_ Hdom]. split.
  - apply (elem_of_list_to_set (C := gset string)). rewrite Hdom.
    apply elem_of_dom. rewrite lookup_insert_eq. by eexists.
  - exists f. by rewrite lookup_insert_eq.
Qed.

Lemma protected_file_is_listed_witness :
  ∃ fs' unique,
    Vault.protect_file true (Some (Vault.At_root "notes.txt")) fs_notes
    = Some (fs', Redirect "dashboard", []) ∧
    ∀ listing, lists_folder fs' App.PROTECTED_DIR listing →
      ∃ files,
        Vault.get_protected_files true fs' listing = Vault.Files files ∧
        {| Vault.info_name := unique; Vault.info_size := String.length (data (plain_file "n"));
           Vault.info_path := Vault.In_folder App.PROTECTED_DIR unique |} ∈ files.
Proof.
  apply (protected_file_is_listed fs_notes (Vault.At_root "notes.txt") (plain_file "n")).
  - vm_compute. reflexivity.
  - reflexivity.
  - vm_compute. reflexivity.
Defined.

(** ** The password *)

Section account.

Import Account.

Variable hash_password : string → string.

Lemma change_password_length m p s p' resp :
  change_password hash_password m p s = (p', resp) →
  p' = p ∨ 4 ≤ String.length p'.
Proof.
  unfold change_password. destruct (authenticated s); cbn [negb]; [|by left; congruence].
  destruct m as [|form]; [by left; congruence|].
  destruct (bool_decide (hash_password _ = _)); cbn [negb]; [|by left; congruence].
  destruct (bool_decide (form_get form "new_password" = _)); cbn [negb];
    [|by left; congruence].
  destruct (String.length _ <? 4) eqn:E; [by left; congruence|].
  apply Nat.ltb_ge in E. intros [= <- _]. by right.
Qed.

Lemma handle_length client req st st' resp :
  handle hash_password client req st = (st', resp) →
  4 ≤ String.length (DEFAULT_PASSWORD st) →
  4 ≤ String.length (DEFAULT_PASSWORD st').
Proof.
  unfold handle. destruct req as [m| |m].
  - destruct (login _ _ _ _) as [s' r]. by intros [= <- _].
  - cbn. by intros [= <- _].
  - destruct (change_password _ _ _ _) as [p' r] eqn:E. intros [= <- _] Hlen.
    cbn. by destruct (change_password_length _ _ _ _ _ E) as [->|?].
Qed.

(** A client whose session is not authenticated does not change the
    password, and a login with a password of another digest does not
    authenticate. *)
Lemma handle_locked_out client req st st' resp :
  handle hash_password client req st = (st', resp) →
  (∀ c, authenticated (session_of st c) = false) →
  (∀ form, req = Login (POST form) →
     hash_password (form_get form "password") ≠ hash_password (DEFAULT_PASSWORD st)) →
  DEFAULT_PASSWORD st' = DEFAULT_PASSWORD st ∧
  (∀ c, authenticated (session_of st' c) = false) ∧
  resp ≠ Redirect "dashboard" ∧
  ∀ t e ok, resp = Render_template t e ok → ok = None.
Proof.
  intros Hrun Hout Hlogin. unfold handle in Hrun.
  assert (∀ s' (sess : gmap nat session) c,
            authenticated s' = false →
            (∀ c, authenticated (default empty_session (sess !! c)) = false) →
            authenticated (default empty_session (<[client := s']> sess !! c)) = false)
    as Hins.
  { intros s' sess c Hs' Hsess. destruct (decide (c = client)) as [->|Hne].
    - by rewrite lookup_insert_eq.
    - rewrite lookup_insert_ne by done. apply Hsess. }
  destruct req as [m| |m].
  - unfold login in Hrun. destruct m as [|form].
    + injection Hrun as <- <-. cbn. split; [done|]. split.
      * intros c. apply Hins; [apply Hout|apply Hout].
      * split; [done|]. by intros t e ok [= _ _ <-].
    + rewrite bool_decide_eq_false_2 in Hrun by by apply Hlogin.
      injection Hrun as <- <-. cbn. split; [done|]. split.
      * intros c. apply Hins; [apply Hout|apply Hout].
      * split; [done|]. by intros t e ok [= _ _ <-].
  - cbn in Hrun. injection Hrun as <- <-. cbn. split; [done|]. split.
    + intros c. apply Hins; [done|apply Hout].
    + split; [done|]. done.
  - unfold change_password in Hrun. rewrite Hout in Hrun. cbn [negb] in Hrun.
    injection Hrun as <- <-. cbn. split; [done|]. split; [apply Hout|]. split; done.
Qed.

End account.

(** X17. The password never gets shorter than four characters: if it
    has four characters or more, it still has after any requests of any
    clients, whatever the digest is. *)
Theorem password_never_short
    (hash_password : string → string) (reqs : list (nat * Account.request))
    (st st' : Account.server) (resps : list response) :
  4 ≤ String.length (Account.DEFAULT_PASSWORD st) →
  Account.run hash_password reqs st = (st', resps) →
  4 ≤ String.length (Account.DEFAULT_PASSWORD st').
Proof.
  revert st st' resps. induction reqs as [|[client req] later IH];
    intros st st' resps Hlen Hrun; cbn [Account.run] in Hrun.
  { by injection Hrun as <- _. }
  destruct (Account.handle hash_password client req st) as [st1 resp] eqn:E1.
  destruct (Account.run hash_password later st1) as [st2 resps'] eqn:E2.
  injection Hrun as <- _. apply (IH _ _ _ (handle_length _ _ _ _ _ _ E1 Hlen) E2).
Qed.

Lemma password_never_short_witness :
  4 ≤ String.length
        (Account.DEFAULT_PASSWORD
           (Account.run (λ password, "h" +:+ password)
              [(1, Account.Login (Account.POST {[ "password" := "Irfan@786" ]}));
               (1, Account.Change_password
                     (Account.POST {[ "current_password" := "Irfan@786";
                                      "new_password" := "abc";
                                      "confirm_password" := "abc" ]}));
               (1, Account.Change_password
                     (Account.POST {[ "current_password" := "Irfan@786";
                                      "new_password" := "abcd";
                                      "confirm_password" := "abcd" ]}))]
              Account.start).1).
Proof.
  refine (password_never_short (λ password, "h" +:+ password) _ Account.start _ _ _ _).
  - vm_compute. lia.
  - apply surjective_pairing.
Defined.

(** X18. The password is changed by logged-in clients only. As long
    as no session is authenticated and no login carries a password with
    the digest of the current one, the requests of the clients, whatever
    they are, leave the password as it is and every session
    unauthenticated, and none of them is answered by the dashboard or a
    notice of success. *)
Theorem password_needs_login
    (hash_password : string → string) (reqs : list (nat * Account.request))
    (st st' : Account.server) (resps : list response) :
  (∀ c, Account.authenticated (Account.session_of st c) = false) →
  (∀ c form, (c, Account.Login (Account.POST form)) ∈ reqs →
     hash_password (Account.form_get form "password")
     ≠ hash_password (Account.DEFAULT_PASSWORD st)) →
  Account.run hash_password reqs st = (st', resps) →
  Account.DEFAULT_PASSWORD st' = Account.DEFAULT_PASSWORD st ∧
  (∀ c, Account.authenticated (Account.session_of st' c) = false) ∧
  ∀ resp, resp ∈ resps →
    resp ≠ Redirect "dashboard" ∧
    ∀ t e ok, resp = Render_template t e ok → ok = None.
Proof.
  revert st st' resps. induction reqs as [|[client req] later IH];
    intros st st' resps Hout Hlogin Hrun; cbn [Account.run] in Hrun.
  { injection Hrun as <- <-. split; [done|]. split; [done|].
    by intros resp ?%elem_of_nil. }
  destruct (Account.handle hash_password client req st) as [st1 resp] eqn:E1.
  destruct (Account.run hash_password later st1) as [st2 resps'] eqn:E2.
  injection Hrun as <- <-.
  destruct (handle_locked_out _ _ _ _ _ _ E1 Hout) as (Hpw & Hout1 & Hresp).
  { intros form ->. apply (Hlogin client). by left. }
  assert (∀ c form, (c, Account.Login (Account.POST form)) ∈ later →
            hash_password (Account.form_get form "password")
            ≠ hash_password (Account.DEFAULT_PASSWORD st1)) as Hlogin1.
  { intros c form Hin. rewrite Hpw. apply (Hlogin c). by right. }
  destruct (IH _ _ _ Hout1 Hlogin1 E2) as (Hpw2 & Hout2 & Hresps).
  split; [congruence|]. split; [done|].
  intros r [->|Hin]%elem_of_cons; [done|by apply Hresps].
Qed.

Lemma password_needs_login_witness :
  Account.DEFAULT_PASSWORD
    (Account.run (λ password, "h" +:+ password)
       [(1, Account.Login (Account.POST {[ "password" := "guess" ]}));
        (1, Account.Change_password
              (Account.POST {[ "current_password" := "Irfan@786";
                               "new_password" := "abcd";
                               "confirm_password" := "abcd" ]}));
        (2, Account.Logout)]
       Account.start).1
  = Account.DEFAULT_PASSWORD Account.start.
Proof.
  refine (proj1 (password_needs_login (λ password, "h" +:+ password)
                   [(1, Account.Login (Account.POST {[ "password" := "guess" ]}));
                    (1, Account.Change_password
                          (Account.POST {[ "current_password" := "Irfan@786";
                                           "new_password" := "abcd";
                                           "confirm_password" := "abcd" ]}));
                    (2, Account.Logout)]
                   Account.start _ _ _ _ _)).
  - intros c. reflexivity.
  - intros c form Hin. apply elem_of_cons in Hin as [Heq|Hin].
    + injection Heq as _ ->. vm_compute. discriminate.
    + apply elem_of_cons in Hin as [Heq|Hin]; [discriminate|].
      apply elem_of_cons in Hin as [Heq|Hin]; [discriminate|].
      by apply elem_of_nil in Hin.
  - apply surjective_pairing.
Defined.

(** ** The dashboard *)

Section dashboard.

Import Dashboard.
Implicit Types fs : gmap string node.

Lemma elem_of_folder_files d category ch listing i :
  i ∈ folder_files d category ch listing →
  ∃ g, ch !! item_name i = Some (File g) ∧
       item_size i = String.length (data g) ∧
       item_path i = Vault.In_folder d (item_name i).
Proof.
  induction listing as [|f rest IH]; cbn [folder_files]; [by intros ?%elem_of_nil|].
  destruct (ch !! f) as [[g|]|] eqn:E; [|done..].
  intros [->|Hin]%elem_of_cons; [|by apply IH]. by exists g.
Qed.

Lemma elem_of_root_items fs listing i :
  i ∈ root_items fs listing →
  ∃ g, fs !! item_name i = Some (NFile g) ∧
       item_size i = String.length (data g) ∧
       item_path i = Vault.At_root (item_name i).
Proof.
  induction listing as [|f rest IH]; cbn [root_items]; [by intros ?%elem_of_nil|].
  destruct (fs !! f) as [[g|]|] eqn:E; [|done..].
  intros [->|Hin]%elem_of_cons; [|by apply IH]. by exists g.
Qed.

(** The loop over the categories adds to the count what it adds to the
    lists, and it lists files of category folders only. *)
Lemma scan_categories_spec fs listdir names cats total cats' total' :
  scan_categories fs listdir names cats total = Some (cats', total') →
  total' + length (concat cats.*2) = total + length (concat cats'.*2) ∧
  ∀ i, i ∈ concat cats'.*2 →
       i ∈ concat cats.*2 ∨
       ∃ c ch, c ∈ names ∧ fs !! c = Some (NDir ch) ∧
               i ∈ folder_files c c ch (listdir c).
Proof.
  revert cats total. induction names as [|c rest IH]; intros cats total H;
    cbn [scan_categories] in H.
  { injection H as <- <-. split; [done|]. intros i Hi. by left. }
  destruct (fs !! c) as [[g|ch]|] eqn:Ec; [done| |].
  - apply IH in H as [Hcount Hitems]. split.
    + rewrite fmap_app, concat_app, length_app in Hcount. cbn in Hcount.
      rewrite app_nil_r in Hcount. lia.
    + intros i Hi. apply Hitems in Hi as [Hi|(c' & ch' & Hc' & Hd & Hi)].
      * rewrite fmap_app, concat_app in Hi. cbn in Hi. rewrite app_nil_r in Hi.
        apply elem_of_app in Hi as [Hi|Hi]; [by left|].
        right. exists c, ch. split; [by left|done].
      * right. exists c', ch'. split; [by right|done].
  - apply IH in H as [Hcount Hitems]. split; [done|].
    intros i Hi. apply Hitems in Hi as [Hi|(c' & ch' & Hc' & Hd & Hi)]; [by left|].
    right. exists c', ch'. split; [by right|done].
Qed.

Lemma scan_categories_some fs listdir names cats total :
  (∀ c, c ∈ names → isfile fs c = false) →
  is_Some (scan_categories fs listdir names cats total).
Proof.
  revert cats total. induction names as [|c rest IH]; intros cats total Hnames;
    cbn [scan_categories]; [by eexists|].
  assert (∀ c', c' ∈ rest → isfile fs c' = false) as Hrest.
  { intros c' Hc'. apply Hnames. by right. }
  assert (isfile fs c = false) as Hc by (apply Hnames; by left).
  clear Hnames. unfold isfile in Hc.
  destruct (fs !! c) as [[g|ch]|]; [done|by apply IH..].
Qed.

Lemma root_items_names fs listing i :
  i ∈ root_items fs listing → isfile fs (item_name i) = true.
Proof.
  intros (g & Hg & _)%elem_of_root_items. unfold isfile. by rewrite Hg.
Qed.

End dashboard.

(** X19. What the dashboard is given. When [get_directory_structure]
    returns, its count [total_files] is the number of the items it
    lists, every item is a regular file of the watched directory, at the
    path and with the size the item states, and no item is in the
    protected folder. *)
Theorem get_directory_structure_sound
    (watch_dir : string) (fs : gmap string node) (listing : list string)
    (listdir : string → list string) (s : Dashboard.structure) :
  Dashboard.get_directory_structure watch_dir fs listing listdir = Some s →
  Dashboard.total_files s = length (Dashboard.shown s) ∧
  ∀ i, i ∈ Dashboard.shown s →
    (∃ g, Vault.lookup_path fs (Dashboard.item_path i) = Some (File g) ∧
          Dashboard.item_size i = String.length (data g)) ∧
    Vault.basename (Dashboard.item_path i) = Dashboard.item_name i ∧
    ∀ n, Dashboard.item_path i ≠ Vault.In_folder App.PROTECTED_DIR n.
Proof.
  unfold Dashboard.get_directory_structure. intros H.
  destruct (Dashboard.scan_categories _ _ _ _ _) as [[cats total]|] eqn:Escan; [|done].
  apply scan_categories_spec in Escan as [Hcount Hcats].
  cbn [fmap list_fmap concat length] in Hcount. rewrite Nat.add_0_r in Hcount.
  assert (App.PROTECTED_DIR ∉ app_folder_names) as Hprot.
  { apply (bool_decide_unpack _). vm_compute. exact I. }
  assert (∀ d ch i, d ∈ app_folder_names → fs !! d = Some (NDir ch) →
            i ∈ Dashboard.folder_files d d ch (listdir d) →
            (∃ g, Vault.lookup_path fs (Dashboard.item_path i) = Some (File g) ∧
                  Dashboard.item_size i = String.length (data g)) ∧
            Vault.basename (Dashboard.item_path i) = Dashboard.item_name i ∧
            ∀ n, Dashboard.item_path i ≠ Vault.In_folder App.PROTECTED_DIR n) as Hfolder.
  { intros d ch i Hd Hch (g & Hg & Hs & Hp)%elem_of_folder_files. rewrite Hp.
    cbn [Vault.lookup_path Vault.basename]. rewrite Hch. split; [by exists g|].
    split; [done|]. intros n [= -> _]. by apply Hprot. }
  assert (∀ i, i ∈ Dashboard.root_items fs listing →
            (∃ g, Vault.lookup_path fs (Dashboard.item_path i) = Some (File g) ∧
                  Dashboard.item_size i = String.length (data g)) ∧
            Vault.basename (Dashboard.item_path i) = Dashboard.item_name i ∧
            ∀ n, Dashboard.item_path i ≠ Vault.In_folder App.PROTECTED_DIR n) as Hroot.
  { intros i (g & Hg & Hs & Hp)%elem_of_root_items. rewrite Hp.
    cbn [Vault.lookup_path Vault.basename]. rewrite Hg. split; [by exists g|]. done. }
  assert (∀ i, i ∈ concat cats.*2 →
            (∃ g, Vault.lookup_path fs (Dashboard.item_path i) = Some (File g) ∧
                  Dashboard.item_size i = String.length (data g)) ∧
            Vault.basename (Dashboard.item_path i) = Dashboard.item_name i ∧
            ∀ n, Dashboard.item_path i ≠ Vault.In_folder App.PROTECTED_DIR n) as Hcat.
  { intros i Hi. apply Hcats in Hi as [Hi|(c & ch & Hc & Hd & Hi)].
    { cbn in Hi. by apply elem_of_nil in Hi. }
    apply (Hfolder c ch); [|done..]. unfold app_folder_names.
    apply elem_of_app. by left. }
  destruct (fs !! "Others") as [[g|ch]|] eqn:Eo; [done| |].
  - injection H as <-. unfold Dashboard.shown. cbn. split.
    + rewrite !length_app. lia.
    + intros i [Hi|[Hi|Hi]%elem_of_app]%elem_of_app.
      * by apply Hcat.
      * apply (Hfolder "Others" ch); [|done..]. unfold app_folder_names.
        apply elem_of_app. right. by left.
      * by apply Hroot.
  - injection H as <-. unfold Dashboard.shown. cbn. split.
    + rewrite !length_app. cbn. lia.
    + intros i [Hi|Hi]%elem_of_app; [by apply Hcat|by apply Hroot].
Qed.

Lemma get_directory_structure_sound_witness :
  ∃ s,
    Dashboard.get_directory_structure "Downloads" fs_scenario
      ["report.pdf"; "photo.jpg"; "script.py"; "Documents"] (λ _, ["report.pdf"])
    = Some s ∧
    Dashboard.total_files s = length (Dashboard.shown s) ∧
    ∀ i, i ∈ Dashboard.shown s →
      (∃ g, Vault.lookup_path fs_scenario (Dashboard.item_path i) = Some (File g) ∧
            Dashboard.item_size i = String.length (data g)) ∧
      Vault.basename (Dashboard.item_path i) = Dashboard.item_name i ∧
      ∀ n, Dashboard.item_path i ≠ Vault.In_folder App.PROTECTED_DIR n.
Proof.
  destruct (Dashboard.get_directory_structure "Downloads" fs_scenario
              ["report.pdf"; "photo.jpg"; "script.py"; "Documents"] (λ _, ["report.pdf"]))
    as [s|] eqn:E.
  - exists s. split; [reflexivity|].
    exact (get_directory_structure_sound "Downloads" fs_scenario
             ["report.pdf"; "photo.jpg"; "script.py"; "Documents"] (λ _, ["report.pdf"])
             s E).
  - vm_compute in E. discriminate E.
Defined.

(** X20. Composition. After a web pass on a directory where no
    regular file of the root refuses to move and none bears the name of
    a category folder or of [Others], the dashboard can be built, and
    the files it shows as not organized are dot names or bear the name
    of the protected folder. *)
Theorem dashboard_after_pass
    (w w' : world) (entries : list string) (r : App.results)
    (out : list Organizer.message)
    (watch_dir : string) (listing : list string) (listdir : string → list string) :
  is_listing (App.ensure_folders (root_of w)) entries →
  (∀ x g, root_of w !! x = Some (NFile g) → locked g = false ∧ x ∉ app_folder_names) →
  App.organize_all_files w entries = (w', App.Returned r, out) →
  ∃ s,
    Dashboard.get_directory_structure watch_dir (root_of w') listing listdir = Some s ∧
    ∀ i, i ∈ Dashboard.root_files s →
         PyStr.startswith_dot (Dashboard.item_name i) = true ∨
         Dashboard.item_name i = App.PROTECTED_DIR.
Proof.
  intros Hl Hfiles H.
  destruct (organize_all_files_clean _ _ _ _ _ Hl Hfiles H)
    as (fs' & -> & _ & _ & Hdirs & Hleft).
  cbn [root_of]. unfold Dashboard.get_directory_structure.
  assert (∀ c, c ∈ app_folder_names → isfile fs' c = false) as Hnofile.
  { intros c Hc. specialize (Hdirs c Hc). unfold isdir in Hdirs. unfold isfile.
    by destruct (fs' !! c) as [[g|ch]|]. }
  destruct (scan_categories_some fs' listdir Registry.APP_FILE_EXTENSION_MAP.*1 [] 0)
    as [[cats total] ->].
  { intros c Hc. apply Hnofile. unfold app_folder_names. apply elem_of_app. by left. }
  assert (isfile fs' "Others" = false) as Ho.
  { apply Hnofile. unfold app_folder_names. apply elem_of_app. right. by left. }
  unfold isfile in Ho.
  destruct (fs' !! "Others") as [[g|ch]|] eqn:Eo; [done| |].
  - eexists. split; [done|]. cbn. intros i Hi. by apply Hleft, (root_items_names fs' listing).
  - eexists. split; [done|]. cbn. intros i Hi. by apply Hleft, (root_items_names fs' listing).
Qed.

Lemma dashboard_after_pass_witness :
  ∃ s,
    Dashboard.get_directory_structure "Downloads"
      (root_of (Present (delete "a.txt"
                           (<["Documents" := NDir {[ "a.txt" := File (plain_file "a") ]}]>
                              (App.ensure_folders fs_hidden)))))
      [".env"; "Documents"] (λ _, ["a.txt"])
    = Some s ∧
    ∀ i, i ∈ Dashboard.root_files s →
         PyStr.startswith_dot (Dashboard.item_name i) = true ∨
         Dashboard.item_name i = App.PROTECTED_DIR.
Proof.
  assert (App.organize_all_files (Present fs_hidden)
            [".env"; "a.txt"; "Images"; "Documents"; "Audio"; "Videos"; "Archives";
             "Code"; "Others"]
          = (Present (delete "a.txt"
                        (<["Documents" := NDir {[ "a.txt" := File (plain_file "a") ]}]>
                           (App.ensure_folders fs_hidden))),
             App.Returned {| App.organized := 1; App.errors := 0; App.skipped := 8 |},
             [])) as H.
  { vm_compute. reflexivity. }
  refine (dashboard_after_pass (Present fs_hidden) _ _ _ _ "Downloads"
            [".env"; "Documents"] (λ _, ["a.txt"]) _ _ H).
  - apply (bool_decide_unpack _). vm_compute. exact I.
  - intros x g Hx. cbn [root_of] in Hx. unfold fs_hidden in Hx.
    apply lookup_insert_Some in Hx as [[<- [= <-]]|[_ Hx]].
    { split; [reflexivity|]. apply (bool_decide_unpack _). vm_compute. exact I. }
    apply lookup_singleton_Some in Hx as [<- [= <-]].
    split; [reflexivity|]. apply (bool_decide_unpack _). vm_compute. exact I.
Defined.

(** ** The download *)

Section archive.

Import Archive.

Lemma tree_nested_ind (P : tree → Prop) :
  (∀ files dirs, Forall (λ d : string * tree, P d.2) dirs → P (Node files dirs)) →
  ∀ t, P t.
Proof.
  intros H. fix IH 1. intros [files dirs]. apply H.
  induction dirs as [|[d sub] rest IHrest]; constructor; [apply IH|apply IHrest].
Qed.

(** Every path of the files below a directory goes on from the path of
    the directory. *)
Lemma all_files_prefix t : ∀ root e,
  e ∈ all_files root t → ∃ q, q ≠ [] ∧ e.1 = root ++ q.
Proof.
  induction t as [files dirs IH] using tree_nested_ind. intros root e.
  cbn [all_files]. intros [Hin|Hin]%elem_of_app.
  - apply list_elem_of_fmap in Hin as (file & -> & _). by exists [file.1].
  - induction IH as [|[d sub] rest Hsub _ IHrest]; [by apply elem_of_nil in Hin|].
    apply elem_of_app in Hin as [Hin|Hin]; [|by apply IHrest].
    apply Hsub in Hin as (q & Hq & ->). exists (d :: q). split; [done|].
    by rewrite <- app_assoc.
Qed.

Lemma selected_file root file :
  selected (length root) (root ++ [file]) = negb (endswith_any file SKIPPED_ENDINGS).
Proof.
  unfold selected. rewrite drop_app_length, last_snoc. done.
Qed.

Lemma selected_step root d q :
  q ≠ [] →
  selected (length root) (root ++ d :: q)
  = negb (bool_decide (d ∈ SKIPPED_DIRS)) && selected (length (root ++ [d])) ((root ++ [d]) ++ q).
Proof.
  intros Hq. unfold selected. rewrite !drop_app_length. rewrite <- (app_assoc root [d] q).
  cbn [app]. destruct q as [|c q]; [done|]. cbn [removelast forallb].
  by rewrite andb_assoc.
Qed.

(** The walk that prunes directories writes what a filter on all the
    files selects. *)
Lemma walk_filter t : ∀ root,
  walk root t
  = List.filter (λ e : list string * bool, selected (length root) e.1) (all_files root t).
Proof.
  induction t as [files dirs IH] using tree_nested_ind. intros root.
  cbn [walk all_files]. rewrite List.filter_app. f_equal.
  - induction files as [|file files IHf]; [done|]. cbn [List.filter fmap list_fmap fst].
    rewrite selected_file. destruct (endswith_any file.1 SKIPPED_ENDINGS); cbn [negb].
    + exact IHf.
    + cbn [fmap list_fmap]. f_equal. exact IHf.
  - induction IH as [|[d sub] rest Hsub _ IHrest]; [done|].
    rewrite List.filter_app. rewrite IHrest. f_equal. cbn [snd] in Hsub.
    assert (List.filter (λ e : list string * bool, selected (length root) e.1)
              (all_files (root ++ [d]) sub)
            = if bool_decide (d ∈ SKIPPED_DIRS) then []
              else List.filter (λ e : list string * bool,
                                  selected (length (root ++ [d])) e.1)
                     (all_files (root ++ [d]) sub)) as ->.
    { pose proof (all_files_prefix sub (root ++ [d])) as Hpre.
      induction (all_files (root ++ [d]) sub) as [|e l IHl].
      { by destruct (bool_decide _). }
      cbn [List.filter].
      destruct (Hpre e) as (q & Hq & He); [by left|]. rewrite He.
      rewrite <- (app_assoc root [d] q). cbn [app]. rewrite (selected_step _ _ _ Hq).
      rewrite IHl by (intros e' He'; apply Hpre; by right).
      destruct (bool_decide (d ∈ SKIPPED_DIRS)); [done|]. cbn [negb andb].
      by rewrite <- (app_assoc root [d] q). }
    by rewrite Hsub.
Qed.

End archive.

(** X21. The archive of [download_zip], when it is sent, holds exactly
    the files of the project whose path below the project's root goes
    through no skipped directory and whose name has no skipped ending,
    in the order of the walk. *)
Theorem download_zip_contents
    (project : string) (t : Archive.tree) (names : list (list string)) :
  Archive.download_zip project t = Send_file names →
  names = (List.filter (λ e : list string * bool, Archive.selected 1 e.1)
             (Archive.all_files [project] t)).*1.
Proof.
  unfold Archive.download_zip. destruct (forallb snd _); [|done].
  intros [= <-]. by rewrite walk_filter.
Qed.

Lemma download_zip_contents_witness :
  [["vault"; "README.md"]; ["vault"; "Code"; "app.py"]]
  = (List.filter (λ e : list string * bool, Archive.selected 1 e.1)
       (Archive.all_files ["vault"]
          (Archive.Node [("README.md", true); ("run.log", false)]
             [(".git", Archive.Node [("config", false)] []);
              ("Code", Archive.Node [("app.py", true); ("app.pyc", true)]
                         [("protected_files",
                           Archive.Node [("secret.txt", true)] [])])]))).*1.
Proof.
  apply (download_zip_contents "vault").
  vm_compute. reflexivity.
Defined.

